(** * btplotting: the plot composition core of [btplotting/app.py]

    A shallow embedding of class [BacktraderPlotting] (file
    [src/btplotting/app.py]) and the properties of its rule resolver,
    visibility filter, figure composer, layout sort and session map.

    Python objects are modelled by identity ([oid]) with their mutable
    [plotinfo] namespace kept in a store; methods that mutate [self] or
    raise are computations in a state-and-exception monad in which the
    state reached at a [raise] is kept, as Python keeps it. *)

From Stdlib Require Import ZArith Ascii String List Permutation Sorted Lia.
From stdpp Require Import base decidable option list strings pretty gmap.

(** ** Python strings *)

Module PyStr.

(** [s.split(sep)] for a one-character separator: the pieces between the
    separators, empty pieces included; a string without separator is
    returned whole. *)
Fixpoint split (sep : ascii) (s : string) : list string :=
  match s with
  | EmptyString => [EmptyString]
  | String c s' =>
      if decide (c = sep) then EmptyString :: split sep s'
      else match split sep s' with
           | [] => [String c EmptyString]
           | h :: t => String c h :: t
           end
  end.

(** [a, b = s.split(sep)]: unpacking into two names needs exactly two
    pieces. *)
Definition unpack2 (l : list string) : option (string * string) :=
  match l with
  | [a; b] => Some (a, b)
  | _ => None
  end.

(** [s[0]], [None] standing for the [IndexError] of the empty string. *)
Definition head (s : string) : option ascii :=
  match s with
  | EmptyString => None
  | String c _ => Some c
  end.

(** [f'{i}'] for a non-negative [int]. *)
Definition of_nat (i : nat) : string := pretty i.

Definition to_list (s : string) : list ascii := list_ascii_of_string s.

End PyStr.

(** ** Regular expressions

    The regular fragment of Python's [re] patterns, as abstract syntax, for
    the concrete setting below: the methods themselves take any pattern
    that [re] compiles. For this fragment the truth value of
    [re.match(p, s)] is: some prefix of [s] is a word of [p]; that of
    [re.search(p, s)]: some substring is. *)

Module Regex.

Inductive regex : Type :=
| Void
| Eps
| Chr (c : ascii)
| Dot
| Cat (r s : regex)
| Alt (r s : regex)
| Star (r : regex).

(** The words of a pattern. [Dot] is any character but a newline. *)
Definition newline : ascii := ascii_of_nat 10.

Inductive matches : regex → list ascii → Prop :=
| m_eps : matches Eps []
| m_chr c : matches (Chr c) [c]
| m_dot c : c ≠ newline → matches Dot [c]
| m_cat r s u v : matches r u → matches s v → matches (Cat r s) (u ++ v)
| m_alt_l r s u : matches r u → matches (Alt r s) u
| m_alt_r r s u : matches s u → matches (Alt r s) u
| m_star_nil r : matches (Star r) []
| m_star_cons r u v :
    matches r u → matches (Star r) v → matches (Star r) (u ++ v).

Fixpoint nullable (r : regex) : bool :=
  match r with
  | Void => false
  | Eps => true
  | Chr _ => false
  | Dot => false
  | Cat r s => nullable r && nullable s
  | Alt r s => nullable r || nullable s
  | Star _ => true
  end.

(** Brzozowski derivative: the words [w] with [c :: w] a word of [r]. *)
Fixpoint deriv (c : ascii) (r : regex) : regex :=
  match r with
  | Void => Void
  | Eps => Void
  | Chr d => if decide (c = d) then Eps else Void
  | Dot => if decide (c = newline) then Void else Eps
  | Cat r s =>
      if nullable r then Alt (Cat (deriv c r) s) (deriv c s)
      else Cat (deriv c r) s
  | Alt r s => Alt (deriv c r) (deriv c s)
  | Star r => Cat (deriv c r) (Star r)
  end.

(** [re.match(r, w)] as a truth value: anchored at the start of [w], free
    at its end. *)
Fixpoint re_match (r : regex) (w : list ascii) : bool :=
  nullable r ||
  match w with
  | [] => false
  | c :: w' => re_match (deriv c r) w'
  end.

(** [re.search(r, w)] as a truth value: [re.match] tried at every
    position. *)
Fixpoint re_search (r : regex) (w : list ascii) : bool :=
  re_match r w ||
  match w with
  | [] => false
  | _ :: w' => re_search r w'
  end.

(** The literal pattern of a string of ordinary characters. *)
Fixpoint literal (w : list ascii) : regex :=
  match w with
  | [] => Eps
  | c :: w' => Cat (Chr c) (literal w')
  end.

End Regex.


(** ** Python values, exceptions and ordered dictionaries *)

Module Py.

(** The values an attribute of a [plotinfo] namespace holds. *)
Inductive value : Type :=
| VNone
| VBool (b : bool)
| VInt (z : Z)
| VStr (s : string).

#[global] Instance value_eq_dec : EqDecision value.
Proof. solve_decision. Defined.

(** The exceptions [app.py] raises itself, first, and those Python raises
    for it. The text of a message is not modelled, its data is. *)
Inductive exn : Type :=
| FigurePageExists (figid : Z)      (* Exception('FigurePage with figid ... already exists') *)
| FigurePageMissing (figid : Z)     (* Exception('FigurePage with figid ... does not exist') *)
| UnsupportedSource                 (* Exception('Unsupported plot source object: ...') *)
| UnknownConfigType (k : string)    (* RuntimeError('Unknown config type in plotting config: ...') *)
| ValueError                        (* tuple unpacking of the wrong size, int() of a non-number *)
| IndexError                        (* ''[0] *)
| KeyError                          (* d[k] with k missing *)
| AttributeError                    (* x.a with a missing, None.a *)
| ReError                           (* re.error: the pattern does not compile *)
| External.                         (* raised inside a collaborator *)

#[global] Instance exn_eq_dec : EqDecision exn.
Proof. solve_decision. Defined.

Inductive result (A : Type) : Type :=
| Ok (a : A)
| Raise (e : exn).
Arguments Ok {A} a.
Arguments Raise {A} e.

(** A [dict] keeps insertion order: an association list with at most one
    entry per key. *)
Section dict.
Context {K V : Type} `{EqDecision K}.

Fixpoint dict_get (k : K) (d : list (K * V)) : option V :=
  match d with
  | [] => None
  | (k', v) :: d' => if decide (k' = k) then Some v else dict_get k d'
  end.

(** [d[k] = v]: an existing key keeps its place, a new one goes last. *)
Fixpoint dict_set (k : K) (v : V) (d : list (K * V)) : list (K * V) :=
  match d with
  | [] => [(k, v)]
  | (k', v') :: d' =>
      if decide (k' = k) then (k, v) :: d' else (k', v') :: dict_set k v d'
  end.

Definition dict_keys (d : list (K * V)) : list K := d.*1.

End dict.

(** [d[k].append(x)] on a [defaultdict(list)]. *)
Definition dict_append {K A : Type} `{EqDecision K}
    (k : K) (x : A) (d : list (K * list A)) : list (K * list A) :=
  dict_set k (default [] (dict_get k d) ++ [x]) d.

End Py.
Export Py.

(** ** The data model *)

(** The backtrader classes [app.py] tests an object against, and the
    other classes of plot objects. *)
Inductive btclass : Type :=
| Strategy
| OptReturn
| AbstractDataBase
| IndicatorBase
| ObserverBase
| Analyzer
| PyObject.

#[global] Instance btclass_eq_dec : EqDecision btclass.
Proof. solve_decision. Defined.

Definition btclass_code (c : btclass) : nat :=
  match c with
  | Strategy => 0 | OptReturn => 1 | AbstractDataBase => 2
  | IndicatorBase => 3 | ObserverBase => 4 | Analyzer => 5 | PyObject => 6
  end.

Definition btclass_of_code (n : nat) : btclass :=
  match n with
  | 0 => Strategy | 1 => OptReturn | 2 => AbstractDataBase
  | 3 => IndicatorBase | 4 => ObserverBase | 5 => Analyzer | _ => PyObject
  end.

#[global] Instance btclass_countable : Countable btclass.
Proof.
  apply (inj_countable' btclass_code btclass_of_code). by intros [].
Defined.

(** A Python object: its identity and the class it is an instance of. *)
Record Obj : Type := mkObj { oid : nat; ocls : btclass }.

#[global] Instance Obj_eq_dec : EqDecision Obj.
Proof. solve_decision. Defined.

#[global] Instance Obj_countable : Countable Obj.
Proof.
  apply (inj_countable' (λ o, (oid o, ocls o)) (λ p, mkObj p.1 p.2)).
  by intros [].
Defined.

(** [obj.plotinfo] of every object: attribute name to value. An object the
    store does not hold has the empty namespace. *)
Abbreviation pinfo := (gmap string value).
Abbreviation Store := (gmap Obj (gmap string value)).

(** A [plotconfig] entry's value, a [dict] of attribute overrides, and the
    [filter] argument, [None] or a [dict]. *)
Abbreviation Config := (list (string * value)).
Abbreviation Filter := (option (list (string * value))).

(** [FigureType], with the members [app.py] names. *)
Inductive FigureType : Type := OBS | DATA | VOL | IND.

#[global] Instance FigureType_eq_dec : EqDecision FigureType.
Proof. solve_decision. Defined.

(** [FigureType.X.name]: an [Enum] member's name is its identifier. *)
Definition FigureType_name (t : FigureType) : string :=
  match t with
  | OBS => "OBS" | DATA => "DATA" | VOL => "VOL" | IND => "IND"
  end.

(** Modelled from the spec: class [Figure] of [figure.py], which is not
    among the sources. One visual unit, exactly one master and its
    children, of a kind given at construction or else that of its master;
    [x_range] is the identity of the time axis object of its chart. A
    figure is held by value: [app.py] writes to a figure in the linking
    loop only, before the figures are put on the page. *)
Record Figure : Type := mkFigure {
  master : Obj;
  childs : list Obj;
  ftype : option FigureType;
  x_range : nat;
}.

#[global] Instance Figure_eq_dec : EqDecision Figure.
Proof. solve_decision. Defined.

(** [f.figure.x_range = r] *)
Definition set_x_range (r : nat) (f : Figure) : Figure :=
  mkFigure (master f) (childs f) (ftype f) r.

Abbreviation DataFrame := (list (string * list value)).

(** Modelled from the spec: class [FigurePage] of [figure.py]. It holds the
    figures, the analyzer results, the originating strategy or
    optimization result, the clock and the aligned table. *)
Record FigurePage : Type := mkFigurePage {
  strategy : option Obj;
  optreturn : option Obj;
  figures : list Figure;
  analyzers : list Obj;
  data_clock : option (option Obj * option string);
  data_clock_objs : list (option string * list Obj);
  cds : option DataFrame;
}.

Definition set_figures (f : list Figure → list Figure) (fp : FigurePage) :=
  mkFigurePage (strategy fp) (optreturn fp) (f (figures fp)) (analyzers fp)
    (data_clock fp) (data_clock_objs fp) (cds fp).

Definition set_analyzers (f : list Obj → list Obj) (fp : FigurePage) :=
  mkFigurePage (strategy fp) (optreturn fp) (figures fp) (f (analyzers fp))
    (data_clock fp) (data_clock_objs fp) (cds fp).

Definition set_data_clock (c : option Obj * option string)
    (objs : list (option string * list Obj)) (fp : FigurePage) :=
  mkFigurePage (strategy fp) (optreturn fp) (figures fp) (analyzers fp)
    (Some c) objs (cds fp).

Definition set_cds_columns_from_df (df : DataFrame) (fp : FigurePage) :=
  mkFigurePage (strategy fp) (optreturn fp) (figures fp) (analyzers fp)
    (data_clock fp) (data_clock_objs fp) (Some df).

(** Modelled from the spec: [FigurePage(obj, scheme)], an empty page bound
    to the strategy or the optimization result it is created for. *)
Definition FigurePage_new (obj : Obj) : FigurePage :=
  mkFigurePage
    (if decide (ocls obj = Strategy) then Some obj else None)
    (if decide (ocls obj = OptReturn) then Some obj else None)
    [] [] None [] None.

(** Modelled from the spec: [fp.reset()], which empties the figure set. *)
Definition FigurePage_reset (fp : FigurePage) : FigurePage :=
  set_figures (λ _, []) fp.

(** The fields of the scheme and the parameters that the modelled methods
    read. *)
Record Scheme : Type := mkScheme { volume : bool; voloverlay : bool }.

Record Params : Type := mkParams {
  plotconfig : option (list (string * list (string * value)));
}.

(** Calls to collaborators that the properties below speak about, in the
    order they are made. *)
Inductive call : Type :=
| CallFilterObj (o : Obj)               (* filter_obj(o, filter) *)
| CallPlot (f : Figure) (o : Obj)       (* figure.plot(o) *)
| CallPlotVolume (f : Figure) (o : Obj) (* figure.plot_volume(o) *)
| CallFigureApply (f : Figure)          (* figure.apply() *)
| CallPageApply (figid : Z).            (* fp.apply() *)

(** The state of a [BacktraderPlotting] instance and of the objects it
    annotates. *)
Record App : Type := mkApp {
  scheme : Scheme;
  params : Params;                    (* self.p *)
  _figurepages : gmap Z FigurePage;
  plotinfos : gmap Obj (gmap string value);
  next_range : nat;
  calls : list call;
}.

Definition set_figurepages (f : gmap Z FigurePage → gmap Z FigurePage)
    (st : App) : App :=
  mkApp (scheme st) (params st) (f (_figurepages st)) (plotinfos st)
    (next_range st) (calls st).

Definition set_plotinfos (f : Store → Store) (st : App) : App :=
  mkApp (scheme st) (params st) (_figurepages st) (f (plotinfos st))
    (next_range st) (calls st).

(** The instance with [plotconfig] set to [config]. *)
Definition with_plotconfig (config : option (list (string * Config)))
    (st : App) : App :=
  mkApp (scheme st) (mkParams config) (_figurepages st) (plotinfos st)
    (next_range st) (calls st).

Definition set_next_range (n : nat) (st : App) : App :=
  mkApp (scheme st) (params st) (_figurepages st) (plotinfos st) n (calls st).

Definition log_calls (cs : list call) (st : App) : App :=
  mkApp (scheme st) (params st) (_figurepages st) (plotinfos st)
    (next_range st) (calls st ++ cs).

(** What the methods call outside [app.py]: Python's [re] and [int], and
    the modules [utils], [figure], [clock] and [helper.label] of the
    package. *)
Class Externals : Type := {
  (** [re.compile(pattern)]: [None] is [re.error]. A compiled pattern [p]
      is given by the truth value of [p.match(string, pos)] at every
      position of every string, whatever the pattern is made of (anchors,
      look-around, back-references): [re.match(pattern, string)] is
      [p.match(string, 0)], and [re.search(pattern, string)] finds a match
      when [p.match(string, pos)] does at some [pos]. *)
  re_compile : string → option (string → nat → bool);
  (** [int(s)]: [None] is [ValueError]. *)
  py_int : string → option Z;
  obj2label : Store → Obj → string;
  (** The table [FigureType.get_obj]: a name to the class it stands for,
      a class being what [isinstance] tests. *)
  FigureType_get_obj : string → option (Obj → bool);
  (** [FigureType.get_type(obj)]: [None] when it raises. *)
  FigureType_get_type : Obj → option FigureType;
  (** [FigureType.X.value] *)
  FigureType_value : FigureType → Z;
  filter_obj : Store → Obj → Filter → bool;
  (** [get_plotobjs(strategy, include_non_plotable, order_by_plotmaster)] *)
  get_plotobjs : Store → option Obj → bool → bool → list (Obj * list Obj);
  (** [get_dataname(obj)]: [Some None] is [False], [None] when it raises. *)
  get_dataname : Obj → option (option string);
  get_datanames : option Obj → list string;
  get_smallest_dataname : option Obj → list (option string) → option string;
  (** [figure.get_plotorder()]: [None] when it raises. *)
  get_plotorder : Store → Figure → option Z;
  (** the values of [obj.analyzers.getitems()] *)
  getitems : Obj → list Obj;
  (** [data_clock.get_index_list(start, end, back, preserveidx)] of a
      [DataClockHandler(strategy, dataname)]: [None] when it raises. *)
  get_index_list :
    option Obj * option string → option Z → option Z → option Z → bool →
    option (list Z);
  (** [data_clock.get_dt_list(start, end, back)], the timestamps as
      numbers: [None] when it raises. *)
  get_dt_list :
    option Obj * option string → option Z → option Z → option Z →
    option (list Z);
  (** [data_clock.get_data(obj, start, end, fillgaps)], the columns of the
      object aligned to the clock: [None] when it raises. *)
  clock_get_data :
    option Obj * option string → Obj → Z → Z → bool → option DataFrame;
}.

(** ** The state-and-exception monad

    A method is a function of the state that returns a value or raises,
    together with the state it leaves; the state reached when an exception
    is raised is kept. *)

Definition M (A : Type) : Type := App → result A * App.

Definition ret {A} (a : A) : M A := λ st, (Ok a, st).

Definition raise {A} (e : exn) : M A := λ st, (Raise e, st).

Definition bind {A B} (c : M A) (k : A → M B) : M B :=
  λ st, match c st with
        | (Ok a, st') => k a st'
        | (Raise e, st') => (Raise e, st')
        end.

Declare Scope py_scope.
Delimit Scope py_scope with py.
Notation "x <- c ;; k" := (bind c (λ x, k))
  (at level 100, c at next level, k at level 200, right associativity)
  : py_scope.
Notation "c ;; k" := (bind c (λ _, k))
  (at level 100, k at level 200, right associativity) : py_scope.
Open Scope py_scope.

Definition gets {A} (f : App → A) : M A := λ st, (Ok (f st), st).

Definition modify (f : App → App) : M unit := λ st, (Ok tt, f st).

(** A partial operation that raises [e] where it is undefined. *)
Definition lift {A} (e : exn) (o : option A) : M A :=
  match o with
  | Some a => ret a
  | None => raise e
  end.

(** Applied to a state, these unfold. *)
Arguments ret {A} a _ /.
Arguments raise {A} e _ /.
Arguments bind {A B} c k _ /.
Arguments gets {A} f _ /.
Arguments modify f _ /.
Arguments lift {A} e o /.

(** [for x in l: body(x)] *)
Fixpoint for_each {A} (l : list A) (body : A → M unit) : M unit :=
  match l with
  | [] => ret tt
  | x :: l' => body x ;; for_each l' body
  end.

(** A [for] loop that updates local variables [b]. *)
Fixpoint foldM {A B} (f : B → A → M B) (b : B) (l : list A) : M B :=
  match l with
  | [] => ret b
  | x :: l' => b' <- f b x ;; foldM f b' l'
  end.

(** ** [list.sort(key=...)]

    Python compares the key tuples with [<], component by component, and its
    sort is stable; insertion from the right, which puts an element before
    the first one that is not smaller, is a stable sort. *)

Definition tuple_lt (a b : Z * nat * Z) : bool :=
  match a, b with
  | (a1, a2, a3), (b1, b2, b3) =>
      if negb (a1 =? b1)%Z then (a1 <? b1)%Z
      else if negb (a2 =? b2)%nat then (a2 <? b2)%nat
      else (a3 <? b3)%Z
  end.

Fixpoint sort_insert {A} (x : (Z * nat * Z) * A) (l : list ((Z * nat * Z) * A))
    : list ((Z * nat * Z) * A) :=
  match l with
  | [] => [x]
  | y :: l' => if tuple_lt y.1 x.1 then y :: sort_insert x l' else x :: y :: l'
  end.

Definition list_sort {A} (l : list ((Z * nat * Z) * A)) : list ((Z * nat * Z) * A) :=
  foldr sort_insert [] l.

(** ** The methods of [BacktraderPlotting] *)

Section methods.
Context `{!Externals}.

(** [obj.plotinfo] *)
Definition plotinfo (S : Store) (o : Obj) : pinfo := default ∅ (S !! o).

Definition hasattr (pi : pinfo) (k : string) : bool :=
  bool_decide (is_Some (pi !! k)).

(** [setattr(obj.plotinfo, k, v)] *)
Definition setattr (o : Obj) (k : string) (v : value) : M unit :=
  modify (set_plotinfos (λ S, <[o := <[k := v]> (plotinfo S o)]> S)).

(** [obj.plotinfo.k] *)
Definition getattr (o : Obj) (k : string) : M value :=
  pi <- gets (λ st, plotinfo (plotinfos st) o) ;;
  lift AttributeError (pi !! k).

Definition log_call (c : call) : M unit := modify (log_calls [c]).

(** [get_figurepage], lines 335-341. *)
Definition get_figurepage (figid : Z) : M FigurePage :=
  pages <- gets _figurepages ;;
  match pages !! figid with
  | None => raise (FigurePageMissing figid)
  | Some fp => ret fp
  end.

(** A mutation of the page object that [get_figurepage(figid)] returned:
    the map holds that very object. *)
Definition update_page (figid : Z) (f : FigurePage → FigurePage) : M unit :=
  modify (set_figurepages (alter f figid)).

(** [apply_config], lines 139-141. *)
Definition apply_config (o : Obj) (config : Config) : M unit :=
  for_each config (λ '(k, v), setattr o k v).

(** [re.match(pattern, string)] as a truth value: the pattern is compiled
    and matched at position 0; [None] is [re.error]. *)
Definition re_match (pattern s : string) : option bool :=
  p ← re_compile pattern; Some (p s 0).

(** The body of the loop over [plotconfig.items()], lines 144-165;
    [continue] ends the body. *)
Definition configure_rule (o : Obj) (idx : nat) (rule : string * Config)
    : M unit :=
  let '(k, config) := rule in
  kv <- lift ValueError (PyStr.unpack2 (PyStr.split ":" k)) ;;
  let '(ctype, target) := kv in
  if decide (ctype = "r") then
    label <- gets (λ st, obj2label (plotinfos st) o) ;;
    m <- lift ReError (re_match target label) ;;
    if m then apply_config o config
    else ret tt
  else
    c0 <- lift IndexError (PyStr.head ctype) ;;
    if decide (c0 = "#"%char) then
      ti <- lift ValueError (PyStr.unpack2 (PyStr.split "-" target)) ;;
      let '(target_type, target_idx) := ti in
      cls <- lift KeyError (FigureType_get_obj target_type) ;;
      if negb (cls o) then ret tt
      else
        n <- lift ValueError (py_int target_idx) ;;
        if negb (n =? Z.of_nat idx)%Z then ret tt
        else apply_config o config
    else if decide (ctype = "id") then
      plotid <- getattr o "plotid" ;;
      if bool_decide (plotid = VNone) || negb (bool_decide (plotid = VStr target))
      then ret tt
      else apply_config o config
    else raise (UnknownConfigType k).

(** The loop of lines 143-165. *)
Definition configure_rules (o : Obj) (idx : nat)
    (rules : list (string * Config)) : M unit :=
  for_each rules (configure_rule o idx).

(** The defaults of lines 130-134: every object is patched to contain a
    [plotid] and a [plotorder]. *)
Definition patch_defaults (o : Obj) (idx : nat) : M unit :=
  pi <- gets (λ st, plotinfo (plotinfos st) o) ;;
  (if hasattr pi "plotid" then ret tt
   else
     t <- lift External (FigureType_get_type o) ;;
     setattr o "plotid" (VStr (FigureType_name t +:+ PyStr.of_nat idx))) ;;
  pi <- gets (λ st, plotinfo (plotinfos st) o) ;;
  (if hasattr pi "plotorder" then ret tt
   else setattr o "plotorder" (VInt 0)).

(** [_configure_plotobject], lines 125-165. *)
Definition _configure_plotobject (o : Obj) (idx : nat) : M unit :=
  patch_defaults o idx ;;
  config <- gets (λ st, plotconfig (params st)) ;;
  match config with
  | None => ret tt
  | Some rules => configure_rules o idx rules
  end.

(** [isinstance(d, bt.Strategy)] *)
Definition is_Strategy (o : Obj) : bool := bool_decide (ocls o = Strategy).

(** [_configure_plotting], lines 109-123: [i] is the local counter. *)
Definition _configure_plotting (figid : Z) : M unit :=
  fp <- get_figurepage figid ;;
  objs <- gets (λ st, get_plotobjs (plotinfos st) (strategy fp) true false) ;;
  foldM (λ i '(d, cs),
      i <- (if negb (is_Strategy d)
            then _configure_plotobject d i ;; ret (S i)
            else ret i) ;;
      foldM (λ i s, _configure_plotobject s i ;; ret (S i)) i cs)
    0 objs ;;
  ret tt.

(** [filter_obj(o, filter)], the call recorded. *)
Definition call_filter_obj (o : Obj) (filter : Filter) : M bool :=
  log_call (CallFilterObj o) ;;
  gets (λ st, filter_obj (plotinfos st) o filter).

(** [_get_plotobjects], lines 167-182. *)
Definition _get_plotobjects (figid : Z) (filter : Filter)
    : M (list (Obj * list Obj)) :=
  fp <- get_figurepage figid ;;
  objs <- gets (λ st, get_plotobjs (plotinfos st) (strategy fp) false true) ;;
  foldM (λ filtered '(o, cs),
      skip <- call_filter_obj o filter ;;
      if skip then ret filtered
      else
        childs <- foldM (λ childs c,
            skip <- call_filter_obj c filter ;;
            ret (if negb skip then childs ++ [c] else childs))
          [] cs ;;
        ret (dict_set o childs filtered))
    [] objs.

(** Modelled from the spec: [Figure(fp, scheme, master, childs, type)]; a
    new figure comes with a time axis object of its own. *)
Definition Figure_new (master : Obj) (childs : list Obj)
    (type : option FigureType) : M Figure :=
  r <- gets next_range ;;
  modify (set_next_range (S r)) ;;
  ret (mkFigure master childs type r).

(** Modelled from the spec: [figure.get_type()], the kind given at
    construction or else the kind of the master. *)
Definition Figure_get_type (f : Figure) : M FigureType :=
  match ftype f with
  | Some t => ret t
  | None => lift External (FigureType_get_type (master f))
  end.

(** The axis linking loop, lines 212-213:
    [figures[i].figure.x_range = figures[0].figure.x_range] for [i] in
    [range(1, len(figures))]. *)
Definition link_axis (figures : list Figure) : list Figure :=
  foldl (λ figs i,
      match figs !! i, figs !! 0 with
      | Some fi, Some f0 => <[i := set_x_range (x_range f0) fi]> figs
      | _, _ => figs
      end)
    figures (seq 1 (length figures - 1)).

(** [fp.strategy.analyzers.getitems()]; [fp.strategy] may be [None]. *)
Definition analyzers_of (o : option Obj) : M (list Obj) :=
  o <- lift AttributeError o ;; ret (getitems o).

(** [_blueprint_strategy], lines 184-235. *)
Definition _blueprint_strategy (figid : Z) (filter : Filter) : M unit :=
  fp <- get_figurepage figid ;;
  scheme <- gets scheme ;;
  update_page figid FigurePage_reset ;;
  ans <- analyzers_of (strategy fp) ;;
  update_page figid (set_analyzers (λ l, l ++ ans)) ;;
  objects <- _get_plotobjects figid filter ;;
  figures <- foldM (λ figures '(parent, childs),
      figure <- Figure_new parent childs None ;;
      log_call (CallPlot figure parent) ;;
      for_each childs (λ c, log_call (CallPlot figure c)) ;;
      log_call (CallFigureApply figure) ;;
      ret (figures ++ [figure]))
    [] objects ;;
  let figures := link_axis figures in
  update_page figid (set_figures (λ l, l ++ figures)) ;;
  (if volume scheme && negb (voloverlay scheme) then
     for_each figures (λ f,
       t <- Figure_get_type f ;;
       if negb (bool_decide (t = DATA)) then ret tt
       else
         figure <- Figure_new (master f) [] (Some VOL) ;;
         log_call (CallPlotVolume figure (master f)) ;;
         log_call (CallFigureApply figure) ;;
         update_page figid (set_figures (λ l, l ++ [figure])))
   else ret tt) ;;
  log_call (CallPageApply figid).

(** [_blueprint_optreturn], lines 237-245. *)
Definition _blueprint_optreturn (figid : Z) : M unit :=
  fp <- get_figurepage figid ;;
  let optreturn := optreturn fp in
  update_page figid FigurePage_reset ;;
  ans <- analyzers_of optreturn ;;
  update_page figid (set_analyzers (λ l, l ++ ans)).

(** [_create_data_clock], lines 247-268. *)
Definition _create_data_clock (figid : Z) : M unit :=
  fp <- get_figurepage figid ;;
  let strategy := strategy fp in
  objs <- foldM (λ objs f,
      dataname <- lift External (get_dataname (master f)) ;;
      foldM (λ objs c,
          dataname <- lift External (get_dataname c) ;;
          ret (dict_append dataname c objs))
        (dict_append dataname (master f) objs) (childs f))
    [] (figures fp) ;;
  let smallest := get_smallest_dataname strategy (dict_keys objs) in
  update_page figid (set_data_clock (strategy, smallest) objs).

(** Modelled from pandas: a [DataFrame] is its columns in order, each a
    name with its values. [pd.DataFrame(data={'index': ..., 'datetime':
    ...})] has these two columns. *)
Definition df_new (int_idx dt_idx : list Z) : DataFrame :=
  [("index", VInt <$> int_idx); ("datetime", VInt <$> dt_idx)].

(** Modelled from pandas: [df.join(other)] without suffixes puts the
    columns of [other] after those of [df], and raises [ValueError] when a
    column name of [other] is one of [df]. The rows are aligned on the
    index by pandas; a column is kept here as the clock gives it. *)
Definition df_join (df other : DataFrame) : M DataFrame :=
  if decide (Forall (λ c, c ∉ df.*1) other.*1) then ret (df ++ other)
  else raise ValueError.

(** [get_data], lines 426-452. [for d in objs: for obj in objs[d]] runs
    over the entries of the dictionary; the result of
    [df.set_index('index')] is dropped by the method. *)
Definition get_data (figid : Z) (start end_ back : option Z)
    (preserveidx fillgaps : bool) : M DataFrame :=
  fp <- get_figurepage figid ;;
  data_clock <- lift AttributeError (data_clock fp) ;;
  let objs := data_clock_objs fp in
  int_idx <- lift External
               (get_index_list data_clock start end_ back preserveidx) ;;
  dt_idx <- lift External (get_dt_list data_clock start end_ back) ;;
  start_dt <- lift IndexError (head dt_idx) ;;
  end_dt <- lift IndexError (last dt_idx) ;;
  let df := df_new int_idx dt_idx in
  foldM (λ df '(d, os),
      foldM (λ df obj,
          df_data <- lift External
                       (clock_get_data data_clock obj start_dt end_dt
                          fillgaps) ;;
          df_join df df_data)
        df os)
    df objs.

(** [create_figurepage], lines 304-327. *)
Definition create_figurepage (obj : Obj) (figid : Z) (start end_ : option Z)
    (filter : Filter) (filldata : bool) : M (Z * FigurePage) :=
  let fp := FigurePage_new obj in
  pages <- gets _figurepages ;;
  if bool_decide (is_Some (pages !! figid)) then raise (FigurePageExists figid)
  else
    modify (set_figurepages (λ m, <[figid := fp]> m)) ;;
    (if bool_decide (ocls obj = Strategy) then
       _configure_plotting figid ;;
       _blueprint_strategy figid filter ;;
       _create_data_clock figid ;;
       if filldata then
         df <- get_data figid start end_ None false false ;;
         update_page figid (set_cds_columns_from_df df)
       else ret tt
     else if bool_decide (ocls obj = OptReturn) then
       _blueprint_optreturn figid
     else raise UnsupportedSource) ;;
    fp <- get_figurepage figid ;;
    ret (figid, fp).

(** [update_figurepage], lines 329-333. *)
Definition update_figurepage (figid : Z) (filter : Filter) : M unit :=
  _blueprint_strategy figid filter.

(** The table [data_sort] of lines 373-377: [False] to 0, then the data
    names numbered from 1. *)
Definition data_sort (names : list string) : list (option string * nat) :=
  foldl (λ d '(i, n), dict_set (Some n) i d)
    [(None, 0)] (zip (seq 1 (length names)) names).

(** The key of the sort, lines 379-382. *)
Definition sort_key (ds : list (option string * nat)) (x : Figure)
    : M (Z * nat * Z) :=
  S <- gets plotinfos ;;
  plotorder <- lift External (get_plotorder S x) ;;
  dataname <- lift External (get_dataname (master x)) ;;
  i <- lift KeyError (dict_get dataname ds) ;;
  t <- Figure_get_type x ;;
  ret (plotorder, i, FigureType_value t).

(** The figures in display order, lines 370-382 of
    [generate_model_panels]: [list.sort] computes every key first. *)
Definition sorted_figs (figid : Z) : M (list Figure) :=
  fp <- get_figurepage figid ;;
  let ds := data_sort (get_datanames (strategy fp)) in
  keyed <- foldM (λ keyed x, k <- sort_key ds x ;; ret (keyed ++ [(k, x)]))
    [] (figures fp) ;;
  ret ((list_sort keyed).*2).

End methods.

(** A method is unfolded by name only. *)
Arguments setattr : simpl never.
Arguments getattr : simpl never.
Arguments log_call : simpl never.
Arguments get_figurepage : simpl never.
Arguments update_page : simpl never.
Arguments apply_config : simpl never.
Arguments configure_rule : simpl never.
Arguments configure_rules : simpl never.
Arguments patch_defaults : simpl never.
Arguments _configure_plotobject : simpl never.
Arguments _configure_plotting : simpl never.
Arguments call_filter_obj : simpl never.
Arguments _get_plotobjects : simpl never.
Arguments Figure_new : simpl never.
Arguments Figure_get_type : simpl never.
Arguments link_axis : simpl never.
Arguments analyzers_of : simpl never.
Arguments _blueprint_strategy : simpl never.
Arguments _blueprint_optreturn : simpl never.
Arguments _create_data_clock : simpl never.
Arguments get_data : simpl never.
Arguments create_figurepage : simpl never.
Arguments sort_key : simpl never.
Arguments sorted_figs : simpl never.

(** ** A concrete setting

    One implementation of the collaborators, used to run the methods on
    concrete pages. Patterns are taken literally (a pattern of ordinary
    characters stands for itself), [int] reads plain decimal numerals, the
    label of an object is its [plotname], a data feed is named by its
    number, [get_plotobjs] returns a given graph, and the clock has three
    bars and one column per object, named by the object's number. *)

Module Sample.

Fixpoint parse_digits (s : string) (acc : Z) : option Z :=
  match s with
  | EmptyString => Some acc
  | String c s' =>
      let n := nat_of_ascii c in
      if (48 <=? n)%nat && (n <=? 57)%nat
      then parse_digits s' (10 * acc + Z.of_nat (n - 48))
      else None
  end.

Definition int (s : string) : option Z :=
  match s with
  | EmptyString => None
  | _ => parse_digits s 0
  end.

Definition label (S : Store) (o : Obj) : string :=
  match default ∅ (S !! o) !! "plotname" with
  | Some (VStr s) => s
  | _ => ""
  end.

Definition isinstance (c : btclass) (o : Obj) : bool :=
  bool_decide (ocls o = c).

Definition get_obj (name : string) : option (Obj → bool) :=
  if decide (name = "DATA") then Some (isinstance AbstractDataBase)
  else if decide (name = "IND") then Some (isinstance IndicatorBase)
  else if decide (name = "OBS") then Some (isinstance ObserverBase)
  else None.

Definition get_type (o : Obj) : option FigureType :=
  match ocls o with
  | AbstractDataBase => Some DATA
  | IndicatorBase => Some IND
  | ObserverBase => Some OBS
  | _ => None
  end.

Definition type_value (t : FigureType) : Z :=
  match t with
  | OBS => 0 | DATA => 1 | VOL => 2 | IND => 3
  end.

(** An object is filtered out when the filter names its [plotname]. *)
Definition filtered (S : Store) (o : Obj) (filter : Filter) : bool :=
  match filter with
  | None => false
  | Some f => bool_decide (VStr (label S o) ∈ f.*2)
  end.

Definition dataname (o : Obj) : option (option string) :=
  match ocls o with
  | Strategy => Some None
  | AbstractDataBase => Some (Some (pretty (oid o)))
  | IndicatorBase | ObserverBase => Some (Some "1")
  | _ => None
  end.

Definition plotorder (S : Store) (f : Figure) : option Z :=
  match default ∅ (S !! master f) !! "plotorder" with
  | Some (VInt z) => Some z
  | _ => None
  end.

Definition ext (graph : list (Obj * list Obj)) (names : list string)
    : Externals :=
  {| re_compile := λ pattern,
       Some (λ s pos,
         Regex.re_match (Regex.literal (PyStr.to_list pattern))
           (drop pos (PyStr.to_list s)));
     py_int := int;
     obj2label := label;
     FigureType_get_obj := get_obj;
     FigureType_get_type := get_type;
     FigureType_value := type_value;
     filter_obj := filtered;
     get_plotobjs := λ _ _ _ _, graph;
     get_dataname := dataname;
     get_datanames := λ _, names;
     get_smallest_dataname := λ _ l, default None (head l);
     get_plotorder := plotorder;
     getitems := λ _, [];
     get_index_list := λ _ _ _ _ _, Some [0; 1; 2]%Z;
     get_dt_list := λ _ _ _ _, Some [10; 20; 30]%Z;
     clock_get_data := λ _ o _ _ _,
       Some [(pretty (oid o), [VInt 0; VInt 0; VInt 0])] |}.

(** A strategy with one data feed, two indicators on it and an observer. *)
Definition strat : Obj := mkObj 0 Strategy.
Definition data1 : Obj := mkObj 1 AbstractDataBase.
Definition sma : Obj := mkObj 2 IndicatorBase.
Definition ema : Obj := mkObj 3 IndicatorBase.
Definition broker : Obj := mkObj 4 ObserverBase.
Definition optret : Obj := mkObj 5 OptReturn.
Definition other : Obj := mkObj 6 PyObject.

(** The objects of the strategy as [get_plotobjs] groups them. *)
Definition graph : list (Obj * list Obj) :=
  [(strat, [broker]); (data1, [sma]); (ema, [])].

(** The masters that are plotted, with their children. *)
Definition masters : list (Obj * list Obj) :=
  [(data1, [sma]); (ema, []); (broker, [])].

Definition names (l : list (Obj * string)) : Store :=
  list_to_map (prod_map id (λ s : string, {[ "plotname" := VStr s ]}) <$> l).

Definition store : Store :=
  names [(data1, "data"); (sma, "sma"); (ema, "ema"); (broker, "broker")].

Definition app (S : Store) (config : option (list (string * Config)))
    (pages : gmap Z FigurePage) : App :=
  mkApp (mkScheme true false) (mkParams config) pages S 0 [].

End Sample.

(** ** The notions the properties are stated with *)

(** A rule key whose match-kind is one of the three known kinds: it
    splits at its colon into a kind and a target, and the kind is [r], or
    starts with [#], or is [id]. *)
Definition known_kind (k : string) : bool :=
  match PyStr.unpack2 (PyStr.split ":" k) with
  | Some (ctype, _) =>
      bool_decide (ctype = "r")
      || bool_decide (PyStr.head ctype = Some "#"%char)
      || bool_decide (ctype = "id")
  | None => false
  end.

(** The error a key of no known kind ends in. *)
Definition unknown_kind_error (k : string) : exn :=
  match PyStr.unpack2 (PyStr.split ":" k) with
  | None => ValueError
  | Some (ctype, _) =>
      match PyStr.head ctype with
      | None => IndexError
      | Some _ => UnknownConfigType k
      end
  end.



(** The overrides of [config] have reached the [plotinfo] of [o] between
    the states [st] and [st']: every attribute they name has the
    overriding value, the other attributes of [o] and the [plotinfo] of
    the other objects are as before, and so are the parameters and the
    pages. *)
Definition applied (o : Obj) (config : Config) (st st' : App) : Prop :=
  (∀ k v, (k, v) ∈ config → plotinfo (plotinfos st') o !! k = Some v)
  ∧ (∀ k, k ∉ config.*1 →
       plotinfo (plotinfos st') o !! k = plotinfo (plotinfos st) o !! k)
  ∧ (∀ d, d ≠ o → plotinfos st' !! d = plotinfos st !! d)
  ∧ params st' = params st
  ∧ _figurepages st' = _figurepages st.

(** The visibility filter in the words of the specification: a master on
    which the predicate holds is dropped with all its children; another
    master is kept, with those of its children on which the predicate is
    false. *)
Definition filterObjects (predicate : Obj → bool)
    (objs : list (Obj * list Obj)) : list (Obj * list Obj) :=
  omap (λ '(m, cs),
      if predicate m then None
      else Some (m, filter (λ c, predicate c = false) cs))
    objs.

(** The objects the predicate is tested on, in order: every master, and
    the children of the masters that are kept. *)
Definition tested (predicate : Obj → bool) (objs : list (Obj * list Obj))
    : list Obj :=
  objs ≫= (λ '(m, cs), if predicate m then [m] else m :: cs).

(** The objects the default-identity pass visits, in the order it visits
    them: every master that is not a strategy, then its children; a master
    that is a strategy contributes its children only. *)
Definition traversal (objs : list (Obj * list Obj)) : list Obj :=
  objs ≫= (λ '(d, cs), (if is_Strategy d then [] else [d]) ++ cs).

(** [_configure_plotobject] on the objects of a list, one after the other,
    at the ordinals [i], [i + 1], ... *)
Fixpoint configure_from `{!Externals} (i : nat) (l : list Obj) : M unit :=
  match l with
  | [] => ret tt
  | o :: l' => _configure_plotobject o i ;; configure_from (S i) l'
  end.

(** [obj.plotinfo.plotid], if the attribute is there. *)
Definition plotid_of (st : App) (o : Obj) : option value :=
  plotinfo (plotinfos st) o !! "plotid".

(** The order of the layout sort: [plotOrder], then the feed sort key,
    then the figure kind, each ascending. *)
Definition lex_le (a b : Z * nat * Z) : Prop :=
  match a, b with
  | (a1, a2, a3), (b1, b2, b3) =>
      (a1 < b1)%Z
      ∨ (a1 = b1 ∧ (a2 < b2 ∨ (a2 = b2 ∧ (a3 ≤ b3)%Z)))
  end.

(** The sort key of a figure in a given state, where it is defined: its
    [plotOrder], the entry of its master's data name in the table
    [data_sort], and the value of its kind. *)
Definition figure_key `{!Externals} (S : Store) (names : list string)
    (x : Figure) : option (Z * nat * Z) :=
  plotorder ← get_plotorder S x;
  dataname ← get_dataname (master x);
  i ← dict_get dataname (data_sort names);
  t ← match ftype x with
      | Some t => Some t
      | None => FigureType_get_type (master x)
      end;
  Some (plotorder, i, FigureType_value t).

(** A computation that writes to the [plotinfo] of one object only, and
    leaves the parameters and the pages as they are. *)
Definition touches_only {A} (o : Obj) (c : M A) : Prop :=
  ∀ st, let st' := (c st).2 in
    (∀ d, d ≠ o → plotinfos st' !! d = plotinfos st !! d)
    ∧ params st' = params st
    ∧ _figurepages st' = _figurepages st.

(** A computation that leaves every [plotid] as it is. *)
Definition keeps_plotid {A} (c : M A) : Prop :=
  ∀ st d, plotid_of (c st).2 d = plotid_of st d.

(** No configured rule has [plotid] among its overrides. *)
Definition no_plotid_override (config : option (list (string * Config)))
    : Prop :=
  ∀ rules k cfg, config = Some rules → (k, cfg) ∈ rules → "plotid" ∉ cfg.*1.

(** ** Further notions *)

(** The namespace after the overrides of a [dict] are set in order. *)
Definition overrides (config : Config) (pi : pinfo) : pinfo :=
  foldl (λ m '(k, v), <[k := v]> m) pi config.

(** A computation that leaves the attribute [k] of every object as it is. *)
Definition keeps_attr {A} (k : string) (c : M A) : Prop :=
  ∀ st d,
    plotinfo (plotinfos (c st).2) d !! k = plotinfo (plotinfos st) d !! k.

(** A computation that removes no attribute from any object. *)
Definition grows_attrs {A} (c : M A) : Prop :=
  ∀ st d k,
    is_Some (plotinfo (plotinfos st) d !! k) →
    is_Some (plotinfo (plotinfos (c st).2) d !! k).

(** No configured rule has the attribute [k] among its overrides. *)
Definition no_override (k : string)
    (config : option (list (string * Config))) : Prop :=
  ∀ rules key cfg, config = Some rules → (key, cfg) ∈ rules → k ∉ cfg.*1.

(** A computation that leaves the state in the relation [R] to the state
    it starts in, whether it returns or raises. *)
Definition preserves {A} (R : App → App → Prop) (c : M A) : Prop :=
  ∀ st, R st (c st).2.

(** The pages bound to the ids other than [figid] are the same. *)
Definition same_other_pages (figid : Z) (st st' : App) : Prop :=
  ∀ j, j ≠ figid → _figurepages st' !! j = _figurepages st !! j.

#[global] Instance same_other_pages_refl figid :
  Reflexive (same_other_pages figid).
Proof. by intros st j. Qed.

#[global] Instance same_other_pages_trans figid :
  Transitive (same_other_pages figid).
Proof. intros a b c Hab Hbc j Hj. by rewrite Hbc, Hab. Qed.

(** An id that is bound stays bound. *)
Definition keeps_bound (figid : Z) (st st' : App) : Prop :=
  is_Some (_figurepages st !! figid) → is_Some (_figurepages st' !! figid).

#[global] Instance keeps_bound_refl figid : Reflexive (keeps_bound figid).
Proof. intros st Hb. exact Hb. Qed.

#[global] Instance keeps_bound_trans figid : Transitive (keeps_bound figid).
Proof. intros a b c Hab Hbc Ha. by apply Hbc, Hab. Qed.

(** The objects on a page, figure by figure: the master, then its
    children. *)
Definition page_objs (fp : FigurePage) : list Obj :=
  figures fp ≫= (λ f, master f :: childs f).

(** The objects composition puts on a strategy's page, in page order: the
    kept masters, each with its kept children, then the masters of the
    volume figures. *)
Definition composed_objs `{!Externals} (vol : bool)
    (kept : list (Obj * list Obj)) : list Obj :=
  (kept ≫= (λ '(m, cs), m :: cs))
  ++ (if vol
      then filter (λ m, FigureType_get_type m = Some DATA) kept.*1
      else []).

(** The objects as [_create_data_clock] files them by data name. *)
Definition filed `{!Externals} (l : list Obj)
    : list (option string * list Obj) :=
  foldl (λ d o, dict_append (default None (get_dataname o)) o d) [] l.

(** The frames the clock gives for the objects of a list, one each. *)
Definition frames_of `{!Externals} (clock : option Obj * option string)
    (start_dt end_dt : Z) (fillgaps : bool) (objs : list Obj)
    (frames : list DataFrame) : Prop :=
  Forall2 (λ o fr, clock_get_data clock o start_dt end_dt fillgaps = Some fr)
    objs frames.

(** The calls that build one figure: the master is plotted, then the
    children in order, then the figure is applied. *)
Definition figure_calls (f : Figure) : list call :=
  CallPlot f (master f) :: (CallPlot f <$> childs f) ++ [CallFigureApply f].

(** The calls that build one volume figure. *)
Definition volume_calls (f : Figure) : list call :=
  [CallPlotVolume f (master f); CallFigureApply f].

(** ** The entry point and the panels

    [plot] and [generate_model_panels] raise exceptions of their own, read
    the parameter [filter] and two more fields of the scheme, and ask a
    figure for its tab. *)

Inductive app_exn : Type :=
| PyExn (e : exn)                     (* an exception of the methods above *)
| NumFigs                             (* Exception('numfigs must be 1') *)
| UseNotSupported                     (* Exception('Different backends by use not supported') *)
| UnknownFigureType (t : FigureType). (* Exception('Unknown FigureType ...') *)

Inductive outcome (A : Type) : Type :=
| Done (a : A)
| Fail (e : app_exn).
Arguments Done {A} a.
Arguments Fail {A} e.

(** What these methods read outside the state. *)
Class Settings : Type := {
  (** [self.p.filter] *)
  p_filter : Filter;
  (** [self.scheme.multiple_tabs] *)
  multiple_tabs : bool;
  (** [self.scheme.xaxis_pos] *)
  xaxis_pos : string;
  (** [figure.get_plottab()]: [None] is a value that counts as false. *)
  get_plottab : Store → Figure → option string;
}.

(** The monad of these methods: as [M], with the wider exceptions. *)
Definition L (A : Type) : Type := App → outcome A * App.

Definition lret {A} (a : A) : L A := λ st, (Done a, st).

Definition lraise {A} (e : app_exn) : L A := λ st, (Fail e, st).

Definition lbind {A B} (c : L A) (k : A → L B) : L B :=
  λ st, match c st with
        | (Done a, st') => k a st'
        | (Fail e, st') => (Fail e, st')
        end.

(** A call of one of the methods above. *)
Definition of_M {A} (c : M A) : L A :=
  λ st, match c st with
        | (Ok a, st') => (Done a, st')
        | (Raise e, st') => (Fail (PyExn e), st')
        end.

Declare Scope app_scope.
Delimit Scope app_scope with app.
Notation "x <- c ;; k" := (lbind c (λ x, k))
  (at level 100, c at next level, k at level 200, right associativity)
  : app_scope.
Notation "c ;; k" := (lbind c (λ _, k))
  (at level 100, k at level 200, right associativity) : app_scope.

Fixpoint lfoldM {A B} (f : B → A → L B) (b : B) (l : list A) : L B :=
  match l with
  | [] => lret b
  | x :: l' => lbind (f b x) (λ b', lfoldM f b' l')
  end.

(** A panel: its title and the figures of its grid, one per row, each with
    the value [generate_model_panels] gives to [figure.xaxis.visible], if
    it gives one. *)
Record Panel : Type := mkPanel {
  title : string;
  rows : list (Figure * option bool);
}.

Section entry.
Context `{!Externals} `{!Settings}.
Local Open Scope app_scope.

(** [_reset], lines 103-107. *)
Definition _reset : M unit := modify (set_figurepages (λ _, ∅)).

(** [not filter]: [None] and the empty [dict] count as false. *)
Definition falsy (filter : Filter) : bool :=
  match filter with
  | None | Some [] => true
  | Some _ => false
  end.

(** [plot], lines 479-503; the method does not read [iplot] and the other
    keyword arguments. *)
Definition plot (obj : Obj) (figid numfigs : Z) (use : option string)
    (start end_ : option Z) (filter : Filter) : L (gmap Z FigurePage) :=
  if (1 <? numfigs)%Z then lraise NumFigs
  else if bool_decide (is_Some use) then lraise UseNotSupported
  else
    let filter := if falsy filter then p_filter else filter in
    of_M (create_figurepage obj figid start end_ filter true) ;;
    of_M (gets _figurepages).

(** The loop that fills the tabs, lines 385-402. *)
Definition fill_tabs (sorted_figs : list Figure)
    : L (list (string * list Figure)) :=
  let multiple_tabs := multiple_tabs in
  lfoldM (λ tabs f,
      tab <- of_M (gets (λ st, get_plottab (plotinfos st) f)) ;;
      match tab with
      | Some tab => lret (dict_append tab f tabs)
      | None =>
          if negb multiple_tabs then lret (dict_append "Plots" f tabs)
          else
            figtype <- of_M (Figure_get_type f) ;;
            if bool_decide (figtype = DATA)
            then lret (dict_append "Datas" f tabs)
            else if bool_decide (figtype = OBS)
            then lret (dict_append "Observers" f tabs)
            else if bool_decide (figtype = IND)
            then lret (dict_append "Indicators" f tabs)
            else lraise (UnknownFigureType figtype)
      end)
    [] sorted_figs.

(** The visibility of the time axes in one tab, lines 410-414. *)
Definition xaxis_visible (figs : list Figure) : list (Figure * option bool) :=
  if decide (xaxis_pos = "bottom")
  then imap (λ i x, (x, Some (negb (i <? length figs - 1)%nat))) figs
  else (λ x, (x, None)) <$> figs.

(** [generate_model_panels], lines 366-424. *)
Definition generate_model_panels (figid : Z) : L (list Panel) :=
  figs <- of_M (sorted_figs figid) ;;
  tabs <- fill_tabs figs ;;
  lret (omap (λ '(tab, figs),
          if decide (length figs = 0) then None
          else Some (mkPanel tab (xaxis_visible figs)))
        tabs).

End entry.

Arguments lret {A} a _ /.
Arguments lraise {A} e _ /.
Arguments lbind {A B} c k _ /.
Arguments of_M {A} c _ /.

(** The kind of a figure, where it is known: the kind given at
    construction or else the kind of the master. *)
Definition figure_kind `{!Externals} (f : Figure) : option FigureType :=
  match ftype f with
  | Some t => Some t
  | None => FigureType_get_type (master f)
  end.

(** The tab a figure goes to, where [fill_tabs] finds one: the tab the
    figure names or else, with a single tab, [Plots], and with multiple
    tabs the tab of its kind. *)
Definition tab_of `{!Externals} `{!Settings} (S : Store) (f : Figure)
    : option string :=
  match get_plottab S f with
  | Some tab => Some tab
  | None =>
      if negb multiple_tabs then Some "Plots"
      else
        match figure_kind f with
        | Some DATA => Some "Datas"
        | Some OBS => Some "Observers"
        | Some IND => Some "Indicators"
        | Some VOL | None => None
        end
  end.

(** One setting of what [plot] and [generate_model_panels] read: no default
    filter, and a figure names the tab that its master's [plottab]
    attribute holds, if it is a string that is not empty. *)
Module SampleEntry.

Definition plottab (S : Store) (f : Figure) : option string :=
  match default ∅ (S !! master f) !! "plottab" with
  | Some (VStr s) => if decide (s = EmptyString) then None else Some s
  | _ => None
  end.

(** An instance whose scheme asks for no volume figures. *)
Definition app_no_volume (S : Store) (config : option (list (string * Config)))
    (pages : gmap Z FigurePage) : App :=
  mkApp (mkScheme false false) (mkParams config) pages S 0 [].

Definition settings (multiple : bool) (pos : string) : Settings :=
  {| p_filter := None;
     multiple_tabs := multiple;
     xaxis_pos := pos;
     get_plottab := plottab |}.

End SampleEntry.

(** * Properties *)

(** ** Correctness of the matcher *)

Module RegexFacts.
Import Regex.

Lemma nullable_spec r : nullable r = true ↔ matches r [].
Proof.
  split.
  - induction r; simpl; intros H; try discriminate.
    + constructor.
    + apply andb_true_iff in H as [H1 H2].
      change (@nil ascii) with (@nil ascii ++ []). constructor; auto.
    + apply orb_true_iff in H as [H|H]; [apply m_alt_l|apply m_alt_r]; auto.
    + constructor.
  - intros H. remember [] as w eqn:Hw. induction H; simpl; subst; try done.
    + apply app_eq_nil in Hw as [-> ->]. rewrite IHmatches1, IHmatches2; done.
    + rewrite IHmatches; done.
    + rewrite IHmatches. by rewrite orb_true_r. done.
Qed.

Lemma matches_star_cons_inv r c w :
  matches (Star r) (c :: w) →
  ∃ u v, w = u ++ v ∧ matches r (c :: u) ∧ matches (Star r) v.
Proof.
  intros H. remember (Star r) as sr eqn:Hs. remember (c :: w) as cw eqn:Hw.
  revert c w Hw.
  induction H; intros c' w' Hw; try discriminate.
  inversion Hs; subst r0.
  destruct u as [|a u]; simpl in Hw.
  - apply IHmatches2; auto.
  - inversion Hw; subst. exists u, v. auto.
Qed.

Lemma deriv_spec c r w : matches (deriv c r) w ↔ matches r (c :: w).
Proof.
  revert w. induction r; intros w; simpl.
  - split; inversion 1.
  - split; inversion 1.
  - case_decide as Hc.
    + subst. split; inversion 1; subst; constructor.
    + split; inversion 1; subst; congruence.
  - case_decide as Hc.
    + subst. split; inversion 1; subst; congruence.
    + split; inversion 1; subst; by constructor.
  - destruct (nullable r1) eqn:Hn.
    + split.
      * inversion 1 as [| | | |? ? ? H1| ? ? ? H1 | |]; subst.
        -- inversion H1; subst. rewrite app_comm_cons.
           constructor; [by apply IHr1|done].
        -- change (c :: w) with ([] ++ c :: w).
           constructor; [by apply nullable_spec|by apply IHr2].
      * inversion 1 as [| | |? ? u v H1 H2 | | | |]; subst.
        destruct u as [|a u]; simpl in *; subst.
        -- apply m_alt_r. by apply IHr2.
        -- simplify_eq. apply m_alt_l. constructor; [by apply IHr1|done].
    + split.
      * inversion 1; subst. rewrite app_comm_cons.
        constructor; [by apply IHr1|done].
      * inversion 1 as [| | |? ? u v H1 H2 | | | |]; subst.
        destruct u as [|a u]; simpl in *; subst.
        -- apply nullable_spec in H1. congruence.
        -- simplify_eq. constructor; [by apply IHr1|done].
  - split.
    + inversion 1; subst; [apply m_alt_l; by apply IHr1|apply m_alt_r; by apply IHr2].
    + inversion 1; subst; [apply m_alt_l; by apply IHr1|apply m_alt_r; by apply IHr2].
  - split.
    + inversion 1; subst. rewrite app_comm_cons.
      constructor; [by apply IHr|done].
    + intros (u & v & -> & Hu & Hv)%matches_star_cons_inv.
      constructor; [by apply IHr|done].
Qed.

(** [re_match] decides: a prefix of the string is a word of the pattern. *)
Lemma re_match_spec r w :
  re_match r w = true ↔ ∃ p s, w = p ++ s ∧ matches r p.
Proof.
  revert r. induction w as [|c w IH]; intros r; simpl.
  - rewrite orb_false_r, nullable_spec. split.
    + intros H. by exists [], [].
    + intros (p & s & Hps & Hm). symmetry in Hps.
      apply app_eq_nil in Hps as [-> ->]. done.
  - rewrite orb_true_iff, nullable_spec, IH. split.
    + intros [H|(p & s & -> & Hm)].
      * by exists [], (c :: w).
      * exists (c :: p), s. split; [done|]. by apply deriv_spec.
    + intros (p & s & Hps & Hm). destruct p as [|a p]; simpl in *.
      * by left.
      * simplify_eq. right. exists p, s. split; [done|]. by apply deriv_spec.
Qed.

(** [re_search] decides: a substring of the string is a word of the
    pattern. *)
Lemma re_search_spec r w :
  re_search r w = true ↔ ∃ a p s, w = a ++ p ++ s ∧ matches r p.
Proof.
  induction w as [|c w IH]; cbn [re_search].
  - rewrite orb_false_r, re_match_spec. split.
    + intros (p & s & Hps & Hm). by exists [], p, s.
    + intros (a & p & s & Hps & Hm). symmetry in Hps.
      apply app_eq_nil in Hps as [-> Hps]. by exists p, s.
  - rewrite orb_true_iff, re_match_spec, IH. split.
    + intros [(p & s & Hps & Hm)|(a & p & s & -> & Hm)].
      * by exists [], p, s.
      * by exists (c :: a), p, s.
    + intros (a & p & s & Hps & Hm). destruct a as [|x a]; simpl in *.
      * left. by exists p, s.
      * simplify_eq. right. by exists a, p, s.
Qed.

End RegexFacts.

(** ** Running computations *)

Section monad_facts.

Lemma bind_ok {A B} (c : M A) (k : A → M B) st a st' :
  c st = (Ok a, st') → bind c k st = k a st'.
Proof. unfold bind. by intros ->. Qed.

Lemma for_each_app {A} (l1 l2 : list A) (body : A → M unit) st :
  for_each (l1 ++ l2) body st
  = (for_each l1 body ;; for_each l2 body) st.
Proof.
  revert st. induction l1 as [|x l1 IH]; intros st; simpl; [reflexivity|].
  unfold bind in *. destruct (body x st) as [[[]|e] st1]; [apply IH|done].
Qed.

End monad_facts.

(** ** What a computation leaves alone *)

Section frames.
Context `{!Externals}.

Lemma touches_only_ret {A} o (a : A) : touches_only o (ret a).
Proof. by intros st. Qed.

Lemma touches_only_raise {A} o e : touches_only o (@raise A e).
Proof. by intros st. Qed.

Lemma touches_only_gets {A} o (f : App → A) : touches_only o (gets f).
Proof. by intros st. Qed.

Lemma touches_only_lift {A} o e (x : option A) : touches_only o (lift e x).
Proof. destruct x; by intros st. Qed.

Lemma touches_only_bind {A B} o (c : M A) (k : A → M B) :
  touches_only o c → (∀ a, touches_only o (k a)) → touches_only o (bind c k).
Proof.
  intros Hc Hk st. specialize (Hc st). simpl in *.
  destruct (c st) as [[a|e] st1]; simpl in *; [|done].
  specialize (Hk a st1). simpl in Hk.
  destruct Hc as (Hc1 & Hc2 & Hc3), Hk as (Hk1 & Hk2 & Hk3).
  split_and!; [|congruence|congruence].
  intros d Hd. rewrite Hk1, Hc1; done.
Qed.

Lemma touches_only_setattr o k v : touches_only o (setattr o k v).
Proof.
  intros st. simpl. split_and!; [|done..].
  intros d Hd. by rewrite lookup_insert_ne.
Qed.

Lemma touches_only_for_each {A} o (l : list A) body :
  (∀ x, touches_only o (body x)) → touches_only o (for_each l body).
Proof.
  intros Hb. induction l as [|x l IH]; simpl.
  - apply touches_only_ret.
  - apply touches_only_bind; [apply Hb|done].
Qed.

Lemma keeps_plotid_ret {A} (a : A) : keeps_plotid (ret a).
Proof. by intros st d. Qed.

Lemma keeps_plotid_raise {A} e : keeps_plotid (@raise A e).
Proof. by intros st d. Qed.

Lemma keeps_plotid_gets {A} (f : App → A) : keeps_plotid (gets f).
Proof. by intros st d. Qed.

Lemma keeps_plotid_lift {A} e (x : option A) : keeps_plotid (lift e x).
Proof. destruct x; by intros st d. Qed.

Lemma keeps_plotid_bind {A B} (c : M A) (k : A → M B) :
  keeps_plotid c → (∀ a, keeps_plotid (k a)) → keeps_plotid (bind c k).
Proof.
  intros Hc Hk st d. specialize (Hc st d). simpl in *.
  destruct (c st) as [[a|e] st1]; simpl in *; [|done].
  by rewrite (Hk a st1 d).
Qed.

Lemma keeps_plotid_setattr o k v :
  k ≠ "plotid" → keeps_plotid (setattr o k v).
Proof.
  intros Hk st d. unfold plotid_of, plotinfo. simpl.
  destruct (decide (o = d)) as [->|Hne].
  - rewrite lookup_insert_eq. simpl. by rewrite lookup_insert_ne.
  - by rewrite lookup_insert_ne.
Qed.

Lemma keeps_plotid_for_each {A} (l : list A) body :
  (∀ x, x ∈ l → keeps_plotid (body x)) → keeps_plotid (for_each l body).
Proof.
  induction l as [|x l IH]; intros Hb; simpl.
  - apply keeps_plotid_ret.
  - apply keeps_plotid_bind; [apply Hb; by left|].
    intros _. apply IH. intros y Hy. apply Hb. by right.
Qed.

End frames.

Ltac touches :=
  repeat first
    [ apply touches_only_ret
    | apply touches_only_raise
    | apply touches_only_gets
    | apply touches_only_lift
    | apply touches_only_setattr
    | apply touches_only_for_each; intros []
    | apply touches_only_bind; [|intros ?]
    | match goal with
      | |- touches_only _ (if ?b then _ else _) => destruct b
      | |- touches_only _ (let (_, _) := ?x in _) => destruct x
      | |- touches_only _ (match ?x with _ => _ end) => destruct x
      end ].

Ltac keeps :=
  repeat first
    [ apply keeps_plotid_ret
    | apply keeps_plotid_raise
    | apply keeps_plotid_gets
    | apply keeps_plotid_lift
    | apply keeps_plotid_bind; [|intros ?]
    | match goal with
      | |- keeps_plotid (if ?b then _ else _) => destruct b
      | |- keeps_plotid (let (_, _) := ?x in _) => destruct x
      | |- keeps_plotid (match ?x with _ => _ end) => destruct x
      end ].

Section frames_of_methods.
Context `{!Externals}.

Lemma touches_only_apply_config o config : touches_only o (apply_config o config).
Proof. unfold apply_config. touches. Qed.

Lemma touches_only_patch_defaults o idx : touches_only o (patch_defaults o idx).
Proof. unfold patch_defaults. touches. Qed.

Lemma touches_only_configure_plotobject o idx :
  touches_only o (_configure_plotobject o idx).
Proof.
  unfold _configure_plotobject, configure_rules.
  apply touches_only_bind; [apply touches_only_patch_defaults|intros _].
  touches.
Qed.

Lemma keeps_plotid_apply_config o config :
  "plotid" ∉ config.*1 → keeps_plotid (apply_config o config).
Proof.
  intros Hcfg. unfold apply_config. apply keeps_plotid_for_each.
  intros [k v] Hin. apply keeps_plotid_setattr. intros ->.
  apply Hcfg. by apply (list_elem_of_fmap_2 fst) in Hin.
Qed.

Lemma keeps_plotid_configure_rule o idx k config :
  "plotid" ∉ config.*1 → keeps_plotid (configure_rule o idx (k, config)).
Proof.
  intros Hcfg. unfold configure_rule, getattr.
  keeps; by apply keeps_plotid_apply_config.
Qed.

Lemma keeps_plotid_configure_rules o idx rules :
  (∀ k config, (k, config) ∈ rules → "plotid" ∉ config.*1) →
  keeps_plotid (configure_rules o idx rules).
Proof.
  intros Hrules. unfold configure_rules. apply keeps_plotid_for_each.
  intros [k config] Hin. apply keeps_plotid_configure_rule. by eapply Hrules.
Qed.

End frames_of_methods.

(** ** The session map *)

Section session.
Context `{!Externals}.

(** C3: creating a page under a session id that is already bound raises,
    and the state, with the page bound to that id and the whole map of
    pages, is left as it was. *)
Theorem create_figurepage_bound obj figid start end_ filter filldata st :
  is_Some (_figurepages st !! figid) →
  create_figurepage obj figid start end_ filter filldata st
  = (Raise (FigurePageExists figid), st).
Proof.
  intros Hbound. unfold create_figurepage, bind, gets.
  by rewrite bool_decide_true.
Qed.

(** C10: creating a page for an object that is neither a strategy nor an
    optimization result raises the unsupported-source error after the id
    has been bound: the state left holds the new, empty page under that id. *)
Theorem create_figurepage_unsupported obj figid start end_ filter filldata st :
  _figurepages st !! figid = None →
  ocls obj ≠ Strategy →
  ocls obj ≠ OptReturn →
  create_figurepage obj figid start end_ filter filldata st
  = (Raise UnsupportedSource,
     set_figurepages
       (λ m, <[figid := mkFigurePage None None [] [] None [] None]> m) st).
Proof.
  intros Hfree Hs Ho. unfold create_figurepage, bind, gets, modify, raise.
  rewrite bool_decide_false by (rewrite Hfree; by intros [? ?]).
  rewrite !bool_decide_false by done.
  unfold FigurePage_new. by rewrite !decide_False.
Qed.

End session.

(** The second of two calls with session id 0 fails and changes nothing. *)
Lemma create_figurepage_bound_witness :
  let e := Sample.ext Sample.graph ["1"] in
  let st := (create_figurepage Sample.optret 0 None None None true
               (Sample.app Sample.store None ∅)).2 in
  is_Some (_figurepages st !! 0%Z)
  ∧ create_figurepage Sample.strat 0 None None None true st
    = (Raise (FigurePageExists 0), st).
Proof.
  intros e st.
  assert (Hb : is_Some (_figurepages st !! 0%Z)) by (vm_compute; eauto).
  split; [exact Hb|].
  exact (create_figurepage_bound Sample.strat 0 None None None true st Hb).
Defined.

Lemma create_figurepage_unsupported_witness :
  let e := Sample.ext Sample.graph ["1"] in
  let st := Sample.app Sample.store None ∅ in
  create_figurepage Sample.other 7 None None None true st
  = (Raise UnsupportedSource,
     set_figurepages
       (λ m, <[7%Z := mkFigurePage None None [] [] None [] None]> m) st).
Proof.
  intros e st.
  apply (create_figurepage_unsupported Sample.other 7 None None None true st);
    [reflexivity|discriminate|discriminate].
Defined.

(** ** What applying overrides does *)

Section overriding.
Context `{!Externals}.

Lemma apply_config_state o config st :
  apply_config o config st
  = (Ok tt,
     match config with
     | [] => st
     | _ => set_plotinfos
              (λ S, <[o := overrides config (plotinfo S o)]> S) st
     end).
Proof.
  unfold apply_config. revert st.
  induction config as [|[k v] config IH]; intros st; [done|].
  simpl. rewrite IH. f_equal. destruct config as [|kv config]; [done|].
  destruct st as [sc pa fps S nr cs]. unfold set_plotinfos, overrides, plotinfo.
  simpl. f_equal. rewrite lookup_insert_eq. simpl. by rewrite insert_insert_eq.
Qed.

Lemma apply_config_plotinfo o config st :
  plotinfo (plotinfos (apply_config o config st).2) o
  = overrides config (plotinfo (plotinfos st) o).
Proof.
  rewrite apply_config_state. destruct config as [|kv config]; [done|].
  unfold plotinfo at 1. simpl. by rewrite lookup_insert_eq.
Qed.

Lemma overrides_other config pi k :
  k ∉ config.*1 → overrides config pi !! k = pi !! k.
Proof.
  unfold overrides. revert pi.
  induction config as [|[k' v] config IH]; intros pi Hk; [done|].
  simpl in *. apply not_elem_of_cons in Hk as [Hne Hk].
  rewrite IH by done. by rewrite lookup_insert_ne.
Qed.

Lemma overrides_entry config pi k v :
  NoDup config.*1 → (k, v) ∈ config → overrides config pi !! k = Some v.
Proof.
  unfold overrides. revert pi.
  induction config as [|[k' v'] config IH]; intros pi Hnd Hin.
  { by apply elem_of_nil in Hin. }
  simpl in *. apply NoDup_cons in Hnd as [Hfresh Hnd].
  apply elem_of_cons in Hin as [[= -> ->]|Hin].
  - fold (overrides config (<[k' := v']> pi)).
    rewrite overrides_other by done. by rewrite lookup_insert_eq.
  - by apply IH.
Qed.

(** [apply_config] returns, and the overrides have then reached the
    object. *)
Lemma apply_config_applied o config st :
  NoDup config.*1 →
  ∃ st', apply_config o config st = (Ok tt, st') ∧ applied o config st st'.
Proof.
  intros Hnd. exists (apply_config o config st).2. split.
  - rewrite apply_config_state. done.
  - pose proof (touches_only_apply_config o config st) as (Hfr & Hpar & Hpg).
    split_and!; [| |done..].
    + intros k v Hin. rewrite apply_config_plotinfo. by apply overrides_entry.
    + intros k Hk. rewrite apply_config_plotinfo. by apply overrides_other.
Qed.

End overriding.

(** ** The rules of [plotconfig] *)

Section rules.
Context `{!Externals}.


(** C4: a rule of kind [#] whose target names a class and an ordinal
    applies its overrides, so that each of them is set in the [plotinfo]
    of the object and nothing else is changed, when the object is an
    instance of the class and sits at that ordinal, and applies nothing,
    leaving the state as it is, when either differs. *)
Theorem configure_rule_index o idx k ctype target target_type target_idx
    cls n config st :
  PyStr.unpack2 (PyStr.split ":" k) = Some (ctype, target) →
  PyStr.head ctype = Some "#"%char →
  PyStr.unpack2 (PyStr.split "-" target) = Some (target_type, target_idx) →
  FigureType_get_obj target_type = Some cls →
  py_int target_idx = Some n →
  NoDup config.*1 →
  (cls o = true ∧ n = Z.of_nat idx →
   ∃ st', configure_rule o idx (k, config) st = (Ok tt, st')
     ∧ applied o config st st')
  ∧ (¬ (cls o = true ∧ n = Z.of_nat idx) →
     configure_rule o idx (k, config) st = (Ok tt, st)).
Proof.
  intros Hk Hc Ht Hcls Hn Hnd. unfold configure_rule. rewrite Hk. simpl.
  rewrite decide_False by (intros ->; discriminate). simpl.
  rewrite Hc. simpl.
  rewrite Ht. simpl. rewrite Hcls. simpl.
  destruct (cls o) eqn:Hinst; simpl.
  - rewrite Hn. simpl. destruct (Z.eqb_spec n (Z.of_nat idx)) as [->|Hne]; simpl.
    + split; [|intros []; done]. intros _. by apply apply_config_applied.
    + split; [|done]. intros [_ ?]. done.
  - split; [|done]. intros [? _]. done.
Qed.

Lemma configure_rule_unknown o idx k config st :
  known_kind k = false →
  configure_rule o idx (k, config) st = (Raise (unknown_kind_error k), st).
Proof.
  unfold known_kind, unknown_kind_error, configure_rule.
  destruct (PyStr.unpack2 (PyStr.split ":" k)) as [[ctype target]|]; [|done].
  simpl. intros Hk.
  apply orb_false_iff in Hk as [Hk Hid].
  apply orb_false_iff in Hk as [Hr Hh].
  apply bool_decide_eq_false in Hr, Hh, Hid.
  rewrite decide_False by done. simpl.
  destruct (PyStr.head ctype) as [c0|]; [|done]. simpl.
  rewrite decide_False by congruence.
  by rewrite decide_False.
Qed.

(** C8: a rule whose key is of no known kind ends the rule loop with an
    error as soon as the loop reaches it: the state left is the one the
    rules before it produced, so nothing of this rule or of a later one is
    applied; and [_configure_plotobject] never returns normally when such
    a rule is configured. *)
Theorem configure_rules_unknown_kind o idx pre k config post st :
  known_kind k = false →
  configure_rules o idx (pre ++ (k, config) :: post) st
  = match configure_rules o idx pre st with
    | (Ok _, st') => (Raise (unknown_kind_error k), st')
    | (Raise e, st') => (Raise e, st')
    end
  ∧ ∃ e, (_configure_plotobject o idx
            (with_plotconfig (Some (pre ++ (k, config) :: post)) st)).1
         = Raise e.
Proof.
  intros Hk.
  assert (Hloop : ∀ st,
    configure_rules o idx (pre ++ (k, config) :: post) st
    = match configure_rules o idx pre st with
      | (Ok _, st') => (Raise (unknown_kind_error k), st')
      | (Raise e, st') => (Raise e, st')
      end).
  { intros st0. unfold configure_rules. rewrite for_each_app. simpl.
    destruct (for_each pre (configure_rule o idx) st0) as [[[]|e] st1]; [|done].
    simpl. by rewrite configure_rule_unknown. }
  split; [apply Hloop|].
  unfold _configure_plotobject. simpl.
  assert (Hend : ∀ st1,
    ∃ e, (configure_rules o idx (pre ++ (k, config) :: post) st1).1 = Raise e).
  { intros st1. rewrite Hloop.
    destruct (configure_rules o idx pre st1) as [[[]|e] st2]; simpl; eauto. }
  pose proof (touches_only_patch_defaults o idx
                (with_plotconfig (Some (pre ++ (k, config) :: post)) st))
    as (_ & Hpar & _).
  destruct (patch_defaults o idx _) as [[[]|e] st1]; simpl in *; [|eauto].
  rewrite Hpar. simpl. apply Hend.
Qed.

End rules.



(** The patterns of the concrete setting are literal: one matches at a
    position of a string when a word of it starts there. *)
Lemma sample_pattern_spec graph names pattern p s pos :
  @re_compile (Sample.ext graph names) pattern = Some p →
  p s pos = true
  ↔ ∃ u v, drop pos (PyStr.to_list s) = u ++ v
      ∧ Regex.matches (Regex.literal (PyStr.to_list pattern)) u.
Proof. intros [= <-]. apply RegexFacts.re_match_spec. Qed.

(** The rule [#:IND-2] is applied to the indicator at ordinal 2: its
    colour is set. *)
Lemma configure_rule_index_witness :
  let e := Sample.ext [] [] in
  let st := Sample.app Sample.store None ∅ in
  let config := [("color", VStr "red")] in
  ∃ st', configure_rule Sample.sma 2 ("#:IND-2", config) st = (Ok tt, st')
    ∧ applied Sample.sma config st st'
    ∧ plotinfo (plotinfos st') Sample.sma !! "color" = Some (VStr "red").
Proof.
  intros e st config.
  assert (Hnd : NoDup config.*1).
  { apply (bool_decide_unpack _). vm_compute. exact I. }
  destruct (@configure_rule_index e Sample.sma 2 "#:IND-2" "#" "IND-2"
              "IND" "2" (Sample.isinstance IndicatorBase) 2 config st
              eq_refl eq_refl eq_refl eq_refl eq_refl Hnd) as [Hmatch _].
  destruct Hmatch as (st' & Hrun & Happ); [split; reflexivity|].
  exists st'. split_and!; [exact Hrun|exact Happ|].
  destruct Happ as (Hset & _). apply Hset. by left.
Defined.

(** The key [color:red] is of no known kind: the loop stops there, after
    the rule before it. *)
Lemma configure_rules_unknown_kind_witness :
  let e := Sample.ext [] [] in
  let config := [("color", VStr "red")] in
  let pre := [("r:sm", [("plotorder", VInt 5)])] in
  let st := Sample.app Sample.store None ∅ in
  configure_rules Sample.sma 2 (pre ++ ("color:red", config) :: []) st
  = match configure_rules Sample.sma 2 pre st with
    | (Ok _, st') => (Raise (unknown_kind_error "color:red"), st')
    | (Raise e, st') => (Raise e, st')
    end
  ∧ ∃ e, (_configure_plotobject Sample.sma 2
            (with_plotconfig (Some (pre ++ ("color:red", config) :: [])) st)).1
         = Raise e.
Proof.
  intros e config pre st.
  exact (@configure_rules_unknown_kind e Sample.sma 2 pre "color:red" config
           [] st eq_refl).
Defined.

(** ** The visibility filter *)

Section visibility.
Context `{!Externals}.

Lemma log_calls_nil st : log_calls [] st = st.
Proof. destruct st. unfold log_calls. simpl. by rewrite app_nil_r. Qed.

Lemma log_calls_app a b st :
  log_calls b (log_calls a st) = log_calls (a ++ b) st.
Proof. unfold log_calls. simpl. by rewrite app_assoc. Qed.

Lemma dict_set_fresh {K V} `{EqDecision K} (k : K) (v : V) d :
  k ∉ d.*1 → dict_set k v d = d ++ [(k, v)].
Proof.
  induction d as [|[k' v'] d IH]; simpl; [done|].
  intros Hk. apply not_elem_of_cons in Hk as [Hne Hk].
  rewrite decide_False by done. by rewrite IH.
Qed.

Lemma filterObjects_keys predicate objs :
  (filterObjects predicate objs).*1
  = filter (λ m, predicate m = false) objs.*1.
Proof.
  induction objs as [|[m cs] objs IH]; simpl; [done|].
  rewrite filter_cons. destruct (predicate m) eqn:Hm; simpl.
  - apply IH.
  - f_equal. apply IH.
Qed.

(** The loop over the children of a master that is kept. *)
Lemma filter_childs flt cs childs st :
  foldM (λ childs c,
      skip <- call_filter_obj c flt ;;
      ret (if negb skip then childs ++ [c] else childs)) childs cs st
  = (Ok (childs
         ++ filter (λ c, filter_obj (plotinfos st) c flt = false) cs),
     log_calls (CallFilterObj <$> cs) st).
Proof.
  revert childs st. induction cs as [|c cs IH]; intros childs st; simpl.
  - by rewrite app_nil_r, log_calls_nil.
  - rewrite IH. simpl.
    rewrite log_calls_app. simpl. f_equal. rewrite filter_cons.
    destruct (filter_obj (plotinfos st) c flt); simpl.
    + done.
    + by rewrite <- app_assoc.
Qed.

(** The loop over the masters, from any dictionary built so far. *)
Lemma filter_masters flt objs filtered st :
  NoDup (filtered.*1 ++ objs.*1) →
  let predicate := λ o, filter_obj (plotinfos st) o flt in
  foldM (λ filtered '(o, cs),
      skip <- call_filter_obj o flt ;;
      if skip then ret filtered
      else
        childs <- foldM (λ childs c,
            skip <- call_filter_obj c flt ;;
            ret (if negb skip then childs ++ [c] else childs))
          [] cs ;;
        ret (dict_set o childs filtered)) filtered objs st
  = (Ok (filtered ++ filterObjects predicate objs),
     log_calls (CallFilterObj <$> tested predicate objs) st).
Proof.
  intros Hnd predicate. revert filtered st predicate Hnd.
  induction objs as [|[m cs] objs IH]; intros filtered st predicate Hnd.
  - simpl. by rewrite app_nil_r, log_calls_nil.
  - simpl in Hnd. simpl.
    fold (predicate m). destruct (predicate m) eqn:Hm; simpl.
    + rewrite IH; simpl.
      * by rewrite log_calls_app.
      * apply NoDup_app in Hnd as (Hf & Hdis & Hobjs).
        apply NoDup_cons in Hobjs as [_ Hobjs]. apply NoDup_app.
        split_and!; [done| |done].
        intros x Hx Hin. apply (Hdis x Hx). by right.
    + rewrite filter_childs. simpl.
      assert (Hfresh : m ∉ filtered.*1).
      { apply NoDup_app in Hnd as (_ & Hdis & _).
        intros Hin. apply (Hdis m Hin). by left. }
      rewrite dict_set_fresh by done. rewrite IH; simpl.
      * rewrite !log_calls_app. simpl. rewrite <- app_assoc. simpl.
        subst predicate. f_equal. f_equal. change (list_fmap Obj call) with
          (fmap (M:=list) (A:=Obj) (B:=call)). by rewrite fmap_app.
      * rewrite fmap_app. simpl. rewrite <- app_assoc. done.
Qed.

Lemma _get_plotobjects_run figid flt fp st :
  _figurepages st !! figid = Some fp →
  let objs := get_plotobjs (plotinfos st) (strategy fp) false true in
  let predicate := λ o, filter_obj (plotinfos st) o flt in
  NoDup objs.*1 →
  _get_plotobjects figid flt st
  = (Ok (filterObjects predicate objs),
     log_calls (CallFilterObj <$> tested predicate objs) st).
Proof.
  intros Hfp objs predicate Hnd.
  unfold _get_plotobjects, get_figurepage. simpl. rewrite Hfp. simpl.
  fold objs. by rewrite (filter_masters flt objs [] st).
Qed.

(** C2: over a mapping from masters to children, [_get_plotobjects]
    returns the filtered mapping of the specification: a master on which
    the predicate holds is dropped with all its children, and none of
    these children is tested; a master on which it fails is kept with
    exactly its children on which the predicate is false; masters and
    children keep their relative order. *)
Theorem _get_plotobjects_filter figid flt fp st :
  _figurepages st !! figid = Some fp →
  let objs := get_plotobjs (plotinfos st) (strategy fp) false true in
  let predicate := λ o, filter_obj (plotinfos st) o flt in
  NoDup objs.*1 →
  _get_plotobjects figid flt st
  = (Ok (filterObjects predicate objs),
     log_calls (CallFilterObj <$> tested predicate objs) st)
  ∧ (filterObjects predicate objs).*1
    = filter (λ m, predicate m = false) objs.*1
  ∧ (∀ m cs, (m, cs) ∈ filterObjects predicate objs →
       ∃ cs0, (m, cs0) ∈ objs ∧ predicate m = false
              ∧ cs = filter (λ c, predicate c = false) cs0).
Proof.
  intros Hfp objs predicate Hnd. split_and!.
  - by apply _get_plotobjects_run.
  - apply filterObjects_keys.
  - intros m cs Hin. unfold filterObjects in Hin.
    apply list_elem_of_omap in Hin as ([m0 cs0] & Hin0 & Hsome).
    destruct (predicate m0) eqn:Hm0; [done|].
    simplify_eq. eauto.
Qed.

End visibility.

(** ** The default-identity pass *)

Section identity.
Context `{!Externals}.

(** Objects other than those of the list are left alone. *)
Lemma configure_from_frame l i st :
  let st' := (configure_from i l st).2 in
  (∀ d, d ∉ l → plotinfos st' !! d = plotinfos st !! d)
  ∧ params st' = params st
  ∧ _figurepages st' = _figurepages st.
Proof.
  revert i st. induction l as [|o l IH]; intros i st; simpl; [done|].
  pose proof (touches_only_configure_plotobject o i st) as (H1 & H2 & H3).
  simpl in *.
  destruct (_configure_plotobject o i st) as [[[]|e] st1]; simpl in *.
  - specialize (IH (S i) st1) as (I1 & I2 & I3). split_and!; [|congruence..].
    intros d Hd. apply not_elem_of_cons in Hd as [Hne Hd].
    rewrite I1, H1; done.
  - split_and!; [|done..]. intros d Hd.
    apply not_elem_of_cons in Hd as [Hne Hd]. by apply H1.
Qed.

Lemma configure_from_app l1 l2 i st :
  configure_from i (l1 ++ l2) st
  = (configure_from i l1 ;; configure_from (i + length l1) l2) st.
Proof.
  revert i st. induction l1 as [|o l1 IH]; intros i st; simpl.
  - by rewrite Nat.add_0_r.
  - destruct (_configure_plotobject o i st) as [[[]|e] st1]; [|done].
    rewrite IH. simpl. by rewrite Nat.add_succ_r.
Qed.

(** The loop over the children of one master. *)
Lemma configure_childs cs i st :
  foldM (λ i s, _configure_plotobject s i ;; ret (S i)) i cs st
  = (configure_from i cs ;; ret (i + length cs)) st.
Proof.
  revert i st. induction cs as [|s cs IH]; intros i st; simpl.
  - by rewrite Nat.add_0_r.
  - destruct (_configure_plotobject s i st) as [[[]|e] st1]; [|done].
    rewrite IH. simpl. by rewrite Nat.add_succ_r.
Qed.

(** The loop over the masters. *)
Lemma configure_masters objs i st :
  foldM (λ i '(d, cs),
      i <- (if negb (is_Strategy d)
            then _configure_plotobject d i ;; ret (S i)
            else ret i) ;;
      foldM (λ i s, _configure_plotobject s i ;; ret (S i)) i cs)
    i objs st
  = (configure_from i (traversal objs) ;;
     ret (i + length (traversal objs))) st.
Proof.
  revert i st. induction objs as [|[d cs] objs IH]; intros i st.
  - simpl. by rewrite Nat.add_0_r.
  - change (traversal ((d, cs) :: objs))
      with (((if is_Strategy d then [] else [d]) ++ cs) ++ traversal objs).
    simpl. rewrite configure_from_app, length_app. simpl.
    destruct (is_Strategy d); simpl.
    + rewrite configure_childs. simpl.
      destruct (configure_from i cs st) as [[[]|e] st1]; [|done].
      rewrite IH. simpl.
      destruct (configure_from _ _ st1) as [[[]|e] st2]; [|done].
      rewrite length_app. f_equal. f_equal. lia.
    + destruct (_configure_plotobject d i st) as [[[]|e] st1]; [|done].
      rewrite configure_childs. simpl.
      destruct (configure_from (S i) cs st1) as [[[]|e] st2]; [|done].
      rewrite IH. simpl.
      replace (i + S (length cs)) with (S (i + length cs)) by lia.
      destruct (configure_from _ _ st2) as [[[]|e] st3]; [|done].
      rewrite ?length_app. f_equal. f_equal. lia.
Qed.

Lemma _configure_plotting_run figid fp st :
  _figurepages st !! figid = Some fp →
  _configure_plotting figid st
  = configure_from 0
      (traversal (get_plotobjs (plotinfos st) (strategy fp) true false)) st.
Proof.
  intros Hfp. unfold _configure_plotting, get_figurepage.
  cbn [bind gets]. rewrite Hfp. cbn [ret].
  rewrite configure_masters. cbn [bind].
  by destruct (configure_from 0 _ st) as [[[]|e] st1].
Qed.

(** C9: the pass is [_configure_plotobject] on the objects of the
    traversal, numbered from 0; a master that is a strategy is not in the
    traversal by its own entry, so it takes no ordinal, and unless it is
    also some master's child its [plotinfo] is left as it was. *)
Theorem _configure_plotting_skips_strategy figid fp st :
  _figurepages st !! figid = Some fp →
  let objs := get_plotobjs (plotinfos st) (strategy fp) true false in
  _configure_plotting figid st = configure_from 0 (traversal objs) st
  ∧ (∀ d cs rest, is_Strategy d = true →
       traversal ((d, cs) :: rest) = cs ++ traversal rest)
  ∧ (∀ d, d ∉ traversal objs →
       plotinfos (_configure_plotting figid st).2 !! d = plotinfos st !! d).
Proof.
  intros Hfp objs. split_and!.
  - by apply _configure_plotting_run.
  - intros d cs rest Hd. unfold traversal. simpl. by rewrite Hd.
  - intros d Hd. rewrite (_configure_plotting_run figid fp st Hfp).
    by apply configure_from_frame.
Qed.

(** The identifier the pass makes up: the name of the kind, then the
    ordinal. Two of them differ when the ordinals do, and none is empty. *)
Lemma default_plotid_inj t1 i1 t2 i2 :
  FigureType_name t1 +:+ PyStr.of_nat i1
  = FigureType_name t2 +:+ PyStr.of_nat i2 →
  i1 = i2.
Proof.
  intros Heq.
  assert (Ht : t1 = t2).
  { apply (f_equal PyStr.head) in Heq. by destruct t1, t2. }
  subst t2. apply (inj _) in Heq. unfold PyStr.of_nat in Heq.
  by apply (inj pretty) in Heq.
Qed.

Lemma default_plotid_nonempty t i :
  FigureType_name t +:+ PyStr.of_nat i ≠ "".
Proof. by destruct t. Qed.

Lemma plotid_of_frame (st st' : App) d :
  plotinfos st' !! d = plotinfos st !! d → plotid_of st' d = plotid_of st d.
Proof. unfold plotid_of, plotinfo. by intros ->. Qed.

(** The defaults: an identifier that is there is kept, a missing one is
    made up, which needs the kind of the object. *)
Lemma patch_defaults_run o i st :
  match plotid_of st o, FigureType_get_type o with
  | Some v, _ =>
      ∃ st', patch_defaults o i st = (Ok tt, st') ∧ plotid_of st' o = Some v
  | None, Some t =>
      ∃ st', patch_defaults o i st = (Ok tt, st')
        ∧ plotid_of st' o
          = Some (VStr (FigureType_name t +:+ PyStr.of_nat i))
  | None, None => patch_defaults o i st = (Raise External, st)
  end.
Proof.
  unfold patch_defaults, plotid_of, hasattr. simpl.
  destruct (plotinfo (plotinfos st) o !! "plotid") as [v|] eqn:Hid.
  - rewrite bool_decide_true by eauto. simpl.
    destruct (bool_decide (is_Some (plotinfo (plotinfos st) o !! "plotorder")));
      simpl; eexists; (split; [done|]); [done|].
    unfold plotinfo at 1. simpl. rewrite lookup_insert_eq. simpl.
    by rewrite lookup_insert_ne.
  - rewrite bool_decide_false by (by intros [? ?]).
    destruct (FigureType_get_type o) as [t|]; simpl; [|done].
    unfold setattr. simpl.
    match goal with
    | |- context [bool_decide (is_Some (?pi !! "plotorder"))] =>
        destruct (bool_decide (is_Some (pi !! "plotorder")))
    end; simpl; eexists; (split; [done|]).
    + unfold plotinfo at 1. simpl. rewrite lookup_insert_eq. simpl.
      by rewrite lookup_insert_eq.
    + unfold plotinfo at 1. simpl. rewrite lookup_insert_eq. simpl.
      rewrite lookup_insert_ne by done.
      unfold plotinfo at 1. simpl. rewrite lookup_insert_eq. simpl.
      by rewrite lookup_insert_eq.
Qed.

(** [_configure_plotobject], when it returns and no rule overrides the
    identifier. *)
Lemma configure_plotobject_plotid o i st st' :
  no_plotid_override (plotconfig (params st)) →
  _configure_plotobject o i st = (Ok tt, st') →
  match plotid_of st o with
  | Some v => plotid_of st' o = Some v
  | None =>
      ∃ t, FigureType_get_type o = Some t
        ∧ plotid_of st' o = Some (VStr (FigureType_name t +:+ PyStr.of_nat i))
  end.
Proof.
  intros Hno. unfold _configure_plotobject. simpl.
  pose proof (patch_defaults_run o i st) as Hd.
  pose proof (touches_only_patch_defaults o i st) as (_ & Hpar & _).
  assert (Hrules : ∀ st1, params st1 = params st →
    keeps_plotid (match plotconfig (params st1) with
                  | Some rules => configure_rules o i rules
                  | None => ret tt
                  end)).
  { intros st1 ->. destruct (plotconfig (params st)) as [rules|] eqn:Hcfg.
    - apply keeps_plotid_configure_rules. intros k cfg Hin.
      by eapply Hno.
    - apply keeps_plotid_ret. }
  destruct (plotid_of st o) as [v|].
  - destruct Hd as (std & Hrun & Hid). rewrite Hrun in Hpar |- *. simpl in *.
    intros Hc. rewrite <- Hid.
    pose proof (Hrules std Hpar std o) as Hk. by rewrite Hc in Hk.
  - destruct (FigureType_get_type o) as [t|].
    + destruct Hd as (std & Hrun & Hid). rewrite Hrun in Hpar |- *. simpl in *.
      intros Hc. exists t. split; [done|]. rewrite <- Hid.
      pose proof (Hrules std Hpar std o) as Hk. by rewrite Hc in Hk.
    + rewrite Hd. simpl. done.
Qed.

(** [_configure_plotobject] returns when no rule is configured and the
    kind of an object without identifier is known. *)
Lemma configure_plotobject_returns o i st :
  plotconfig (params st) = None →
  (plotid_of st o = None → is_Some (FigureType_get_type o)) →
  ∃ st', _configure_plotobject o i st = (Ok tt, st').
Proof.
  intros Hcfg Htype. unfold _configure_plotobject. simpl.
  pose proof (patch_defaults_run o i st) as Hd.
  pose proof (touches_only_patch_defaults o i st) as (_ & Hpar & _).
  destruct (plotid_of st o) as [v|].
  - destruct Hd as (std & Hrun & _). rewrite Hrun in *. simpl in *.
    rewrite Hpar, Hcfg. by eexists.
  - destruct Htype as [t Ht]; [done|]. rewrite Ht in Hd.
    destruct Hd as (std & Hrun & _). rewrite Hrun in *. simpl in *.
    rewrite Hpar, Hcfg. by eexists.
Qed.

(** The pass over a list of objects, when it returns and no rule
    overrides the identifier: an identifier that is there is kept, a
    missing one is made up from the ordinal of a place the object has in
    the list. *)
Lemma configure_from_ids l i st st' :
  no_plotid_override (plotconfig (params st)) →
  configure_from i l st = (Ok tt, st') →
  (∀ o v, plotid_of st o = Some v → plotid_of st' o = Some v)
  ∧ (∀ o, o ∈ l → plotid_of st o = None →
       ∃ t j, FigureType_get_type o = Some t ∧ l !! j = Some o
         ∧ plotid_of st' o
           = Some (VStr (FigureType_name t +:+ PyStr.of_nat (i + j)))).
Proof.
  revert i st. induction l as [|x l IH]; intros i st Hno Hrun.
  { simpl in Hrun. injection Hrun as <-. split; [done|].
    intros o Ho. by apply elem_of_nil in Ho. }
  simpl in Hrun.
  destruct (_configure_plotobject x i st) as [[[]|e] st1] eqn:Hx; [|done].
  pose proof (touches_only_configure_plotobject x i st) as (Hfr & Hpar & _).
  rewrite Hx in Hfr, Hpar. simpl in Hfr, Hpar.
  pose proof (configure_plotobject_plotid x i st st1 Hno Hx) as Hid.
  assert (Hkeep1 : ∀ o v, plotid_of st o = Some v → plotid_of st1 o = Some v).
  { intros o v Hv. destruct (decide (o = x)) as [->|Hne].
    - by rewrite Hv in Hid.
    - rewrite (plotid_of_frame st st1 o) by (by apply Hfr). done. }
  destruct (IH (S i) st1) as (Hkeep & Hnew); [by rewrite Hpar|done|].
  split.
  - intros o v Hv. by apply Hkeep, Hkeep1.
  - intros o Ho Hnone. destruct (decide (o = x)) as [->|Hne].
    + rewrite Hnone in Hid. destruct Hid as (t & Ht & Hid).
      exists t, 0. split_and!; [done|done|]. rewrite Nat.add_0_r.
      by apply Hkeep.
    + apply elem_of_cons in Ho as [?|Ho]; [done|].
      destruct (Hnew o Ho) as (t & j & Ht & Hj & Hidj).
      { rewrite (plotid_of_frame st st1 o) by (by apply Hfr). done. }
      exists t, (S j). split_and!; [done|done|].
      rewrite Hidj. by rewrite Nat.add_succ_r.
Qed.

Lemma configure_from_returns l i st :
  plotconfig (params st) = None →
  (∀ o, o ∈ l → plotid_of st o = None → is_Some (FigureType_get_type o)) →
  ∃ st', configure_from i l st = (Ok tt, st').
Proof.
  revert i st. induction l as [|x l IH]; intros i st Hcfg Htype.
  { by exists st. }
  destruct (configure_plotobject_returns x i st Hcfg) as (st1 & Hx).
  { apply Htype. by left. }
  pose proof (touches_only_configure_plotobject x i st) as (Hfr & Hpar & _).
  rewrite Hx in Hfr, Hpar. simpl in Hfr, Hpar.
  assert (Hno : no_plotid_override (plotconfig (params st))).
  { intros rules k cfg Hr. congruence. }
  pose proof (configure_plotobject_plotid x i st st1 Hno Hx) as Hid.
  destruct (IH (S i) st1) as (st' & Hrun); [congruence| |].
  - intros o Ho Hnone. apply Htype; [by right|].
    destruct (decide (o = x)) as [->|Hne].
    + destruct (plotid_of st x); [congruence|done].
    + rewrite <- (plotid_of_frame st st1 o) by (by apply Hfr). done.
  - exists st'. simpl. by rewrite Hx.
Qed.

(** C5, as the code has it: when no rule overrides [plotid] and the pass
    returns, every object of the traversal that had no [plotid] has one
    afterwards, made of the name of its kind and an ordinal at which the
    pass visits it: it is not empty, and two such objects never get the
    same one; an object that had a [plotid] keeps it. The pass returns
    when no rule is configured and the kind of every object without
    [plotid] is known. *)
Theorem _configure_plotting_default_ids figid fp st :
  _figurepages st !! figid = Some fp →
  no_plotid_override (plotconfig (params st)) →
  let objs :=
    traversal (get_plotobjs (plotinfos st) (strategy fp) true false) in
  (plotconfig (params st) = None →
   (∀ o, o ∈ objs → plotid_of st o = None →
      is_Some (FigureType_get_type o)) →
   ∃ st', _configure_plotting figid st = (Ok tt, st'))
  ∧ ∀ st', _configure_plotting figid st = (Ok tt, st') →
      (∀ o v, plotid_of st o = Some v → plotid_of st' o = Some v)
      ∧ (∀ o, o ∈ objs → plotid_of st o = None →
           ∃ t i, FigureType_get_type o = Some t ∧ objs !! i = Some o
             ∧ plotid_of st' o
               = Some (VStr (FigureType_name t +:+ PyStr.of_nat i)))
      ∧ (∀ o, o ∈ objs → plotid_of st o = None →
           plotid_of st' o ≠ None ∧ plotid_of st' o ≠ Some (VStr ""))
      ∧ (∀ o1 o2, o1 ∈ objs → o2 ∈ objs →
           plotid_of st o1 = None → plotid_of st o2 = None →
           plotid_of st' o1 = plotid_of st' o2 → o1 = o2).
Proof.
  intros Hfp Hno objs. rewrite (_configure_plotting_run figid fp st Hfp).
  fold objs. split.
  { intros Hcfg Htype. by apply configure_from_returns. }
  intros st' Hrun.
  destruct (configure_from_ids objs 0 st st' Hno Hrun) as (Hkeep & Hnew).
  split_and!; [done|done| |].
  - intros o Ho Hnone. destruct (Hnew o Ho Hnone) as (t & j & _ & _ & ->).
    split; [done|]. intros [=Hempty]. by apply default_plotid_nonempty in Hempty.
  - intros o1 o2 Ho1 Ho2 Hn1 Hn2 Heq.
    destruct (Hnew o1 Ho1 Hn1) as (t1 & j1 & _ & Hj1 & Hid1).
    destruct (Hnew o2 Ho2 Hn2) as (t2 & j2 & _ & Hj2 & Hid2).
    rewrite Hid1, Hid2 in Heq. injection Heq as Heq.
    apply default_plotid_inj in Heq. simpl in Heq. subst j2. congruence.
Qed.

End identity.

(** A page whose data feed is filtered out: the feed goes with its
    indicator, which is not tested. *)
Lemma _get_plotobjects_filter_witness :
  let e := Sample.ext Sample.graph [] in
  let st := Sample.app Sample.store None {[ 0%Z := FigurePage_new Sample.strat ]} in
  let flt := Some [("plotname", VStr "data")] in
  _get_plotobjects 0 flt st
  = (Ok [(Sample.strat, [Sample.broker]); (Sample.ema, [])],
     log_calls
       (CallFilterObj <$> [Sample.strat; Sample.broker; Sample.data1; Sample.ema])
       st).
Proof.
  intros e st flt.
  refine (proj1 (@_get_plotobjects_filter e 0 flt (FigurePage_new Sample.strat)
                   st eq_refl _)).
  apply (bool_decide_unpack _). vm_compute. exact I.
Defined.

(** The strategy of the sample page takes no ordinal and is left alone. *)
Lemma _configure_plotting_skips_strategy_witness :
  let e := Sample.ext Sample.graph [] in
  let st := Sample.app Sample.store None {[ 0%Z := FigurePage_new Sample.strat ]} in
  _configure_plotting 0 st
  = configure_from 0 [Sample.broker; Sample.data1; Sample.sma; Sample.ema] st
  ∧ plotinfos (_configure_plotting 0 st).2 !! Sample.strat
    = plotinfos st !! Sample.strat.
Proof.
  intros e st.
  destruct (@_configure_plotting_skips_strategy e 0
              (FigurePage_new Sample.strat) st eq_refl) as (Hrun & _ & Hframe).
  split; [exact Hrun|]. apply Hframe.
  apply (bool_decide_unpack _). vm_compute. exact I.
Defined.

(** On the sample page, with a rule that sets a colour, no object comes
    with an identifier and the pass gives each of the four objects one of
    its own. *)
Lemma _configure_plotting_default_ids_witness :
  let e := Sample.ext Sample.graph [] in
  let st := Sample.app Sample.store (Some [("r:sm", [("color", VStr "red")])])
              {[ 0%Z := FigurePage_new Sample.strat ]} in
  let st' := (_configure_plotting 0 st).2 in
  let objs := [Sample.broker; Sample.data1; Sample.sma; Sample.ema] in
  (∀ o v, plotid_of st o = Some v → plotid_of st' o = Some v)
  ∧ (∀ o, o ∈ objs → plotid_of st o = None →
       ∃ t i, FigureType_get_type o = Some t ∧ objs !! i = Some o
         ∧ plotid_of st' o
           = Some (VStr (FigureType_name t +:+ PyStr.of_nat i)))
  ∧ (∀ o, o ∈ objs → plotid_of st o = None →
       plotid_of st' o ≠ None ∧ plotid_of st' o ≠ Some (VStr ""))
  ∧ (∀ o1 o2, o1 ∈ objs → o2 ∈ objs →
       plotid_of st o1 = None → plotid_of st o2 = None →
       plotid_of st' o1 = plotid_of st' o2 → o1 = o2).
Proof.
  intros e st st' objs.
  refine (proj2 (@_configure_plotting_default_ids e 0
                   (FigurePage_new Sample.strat) st eq_refl _) st' _).
  - intros rules k cfg Hr Hin.
    change (Some [("r:sm", [("color", VStr "red")])] = Some rules) in Hr.
    injection Hr as <-.
    apply list_elem_of_singleton in Hin as [= -> ->].
    apply (bool_decide_unpack _). vm_compute. exact I.
  - vm_compute. reflexivity.
Defined.

(** C5 fails as stated: two indicators that come with the same [plotid]
    keep it, and an observer that comes with an empty one keeps that. *)
Lemma _configure_plotting_duplicate_ids :
  let e := Sample.ext Sample.graph [] in
  let S : Store :=
    {[ Sample.sma := {[ "plotid" := VStr "ma" ]};
       Sample.ema := {[ "plotid" := VStr "ma" ]};
       Sample.broker := {[ "plotid" := VStr "" ]} ]} in
  let st := Sample.app S None {[ 0%Z := FigurePage_new Sample.strat ]} in
  let st' := (_configure_plotting 0 st).2 in
  (_configure_plotting 0 st).1 = Ok tt
  ∧ traversal (get_plotobjs (plotinfos st) (Some Sample.strat) true false)
    = [Sample.broker; Sample.data1; Sample.sma; Sample.ema]
  ∧ Sample.sma ≠ Sample.ema
  ∧ plotid_of st' Sample.sma = Some (VStr "ma")
  ∧ plotid_of st' Sample.ema = Some (VStr "ma")
  ∧ plotid_of st' Sample.broker = Some (VStr "").
Proof.
  intros e S st st'. split_and!; [reflexivity|reflexivity|discriminate|..];
    vm_compute; reflexivity.
Qed.

(** ** The layout sort *)

Section sorting.
Context {A : Type}.
Implicit Types (x y : (Z * nat * Z) * A) (l : list ((Z * nat * Z) * A)).

Lemma tuple_lt_false a b : tuple_lt b a = false → lex_le a b.
Proof.
  destruct a as [[a1 a2] a3], b as [[b1 b2] b3]. simpl.
  destruct (Z.eqb_spec b1 a1); simpl.
  - destruct (Nat.eqb_spec b2 a2); simpl.
    + intros ?%Z.ltb_ge. lia.
    + intros ?%Nat.ltb_ge. lia.
  - intros ?%Z.ltb_ge. lia.
Qed.

Lemma tuple_lt_true a b : tuple_lt a b = true → lex_le a b ∧ a ≠ b.
Proof.
  destruct a as [[a1 a2] a3], b as [[b1 b2] b3]. simpl.
  destruct (Z.eqb_spec a1 b1); simpl.
  - destruct (Nat.eqb_spec a2 b2); simpl.
    + intros ?%Z.ltb_lt. split; [lia|]. intros [=]. lia.
    + intros ?%Nat.ltb_lt. split; [lia|]. intros [=]. lia.
  - intros ?%Z.ltb_lt. split; [lia|]. intros [=]. lia.
Qed.

Lemma lex_le_trans a b c : lex_le a b → lex_le b c → lex_le a c.
Proof.
  destruct a as [[a1 a2] a3], b as [[b1 b2] b3], c as [[c1 c2] c3].
  unfold lex_le. lia.
Qed.

Lemma sort_insert_perm x l : sort_insert x l ≡ₚ x :: l.
Proof.
  induction l as [|y l IH]; simpl; [done|].
  destruct (tuple_lt y.1 x.1); [|done].
  rewrite IH. apply Permutation_swap.
Qed.

Lemma list_sort_perm l : list_sort l ≡ₚ l.
Proof.
  induction l as [|x l IH]; simpl; [done|].
  by rewrite sort_insert_perm, IH.
Qed.

Lemma sort_insert_sorted x l :
  Sorted (λ a b, lex_le a.1 b.1) l →
  Sorted (λ a b, lex_le a.1 b.1) (sort_insert x l).
Proof.
  induction 1 as [|y l Hl IH Hhd]; simpl.
  - by repeat constructor.
  - destruct (tuple_lt y.1 x.1) eqn:Hlt.
    + constructor; [done|].
      destruct Hhd as [|z l' Hyz]; simpl.
      * constructor. by apply tuple_lt_true.
      * destruct (tuple_lt z.1 x.1); constructor;
          [done|by apply tuple_lt_true].
    + constructor; [by constructor|]. constructor. by apply tuple_lt_false.
Qed.

Lemma list_sort_sorted l :
  StronglySorted (λ a b, lex_le a.1 b.1) (list_sort l).
Proof.
  apply Sorted_StronglySorted.
  { intros a b c. apply lex_le_trans. }
  induction l as [|x l IH]; simpl; [constructor|].
  by apply sort_insert_sorted.
Qed.

(** Insertion does not reorder the elements of one key. *)
Lemma sort_insert_filter k x l :
  filter (λ a, a.1 = k) (sort_insert x l) = filter (λ a, a.1 = k) (x :: l).
Proof.
  induction l as [|y l IH]; simpl; [done|].
  destruct (tuple_lt y.1 x.1) eqn:Hlt; [|done].
  apply tuple_lt_true in Hlt as [_ Hne].
  rewrite (filter_cons _ y), IH, !filter_cons.
  repeat case_decide; congruence.
Qed.

Lemma list_sort_filter k l :
  filter (λ a, a.1 = k) (list_sort l) = filter (λ a, a.1 = k) l.
Proof.
  induction l as [|x l IH]; simpl; [done|].
  by rewrite sort_insert_filter, !filter_cons, IH.
Qed.

End sorting.

Section layout.
Context `{!Externals}.

Lemma dict_get_set {K V} `{EqDecision K} (k k' : K) (v : V) d :
  dict_get k (dict_set k' v d)
  = if decide (k' = k) then Some v else dict_get k d.
Proof.
  induction d as [|[k0 v0] d IH]; simpl.
  - by destruct (decide (k' = k)).
  - destruct (decide (k0 = k')) as [->|Hne]; simpl.
    + by destruct (decide (k' = k)).
    + rewrite IH. destruct (decide (k0 = k)) as [->|]; [|done].
      by rewrite decide_False.
Qed.

(** Filling the table leaves alone the keys that are not filled in. *)
Lemma data_sort_other (l : list (nat * string)) d0 k :
  k ∉ Some <$> l.*2 →
  dict_get k (foldl (λ d '(i, n), dict_set (Some n) i d) d0 l)
  = dict_get k d0.
Proof.
  revert d0. induction l as [|[i n] l IH]; intros d0 Hk; simpl; [done|].
  simpl in Hk. apply not_elem_of_cons in Hk as [Hne Hk].
  rewrite IH by done. rewrite dict_get_set. by rewrite decide_False.
Qed.

(** Filling the table from the place [s] on: a name has the number of
    the last place at which it is filled in. *)
Lemma data_sort_last (names : list string) s d0 j d :
  names !! j = Some d →
  (∀ j', j < j' → names !! j' ≠ Some d) →
  dict_get (Some d)
    (foldl (λ d '(i, n), dict_set (Some n) i d) d0
       (zip (seq s (length names)) names))
  = Some (s + j).
Proof.
  revert s d0 j. induction names as [|n names IH]; intros s d0 j Hj Hlast.
  { by rewrite lookup_nil in Hj. }
  cbn [length seq zip zip_with foldl]. destruct j as [|j].
  - injection Hj as ->. rewrite data_sort_other.
    + rewrite dict_get_set, decide_True by done. by rewrite Nat.add_0_r.
    + rewrite snd_zip by (by rewrite length_seq).
      intros (n' & [= <-] & Hn')%list_elem_of_fmap.
      apply list_elem_of_lookup in Hn' as [j' Hj'].
      by apply (Hlast (S j')); [lia|].
  - rewrite (IH (S s) _ j); [f_equal; lia|done|].
    intros j' Hlt. apply (Hlast (S j')). lia.
Qed.

(** The table [data_sort]: [False] has key 0, and a declared name has the
    key of the last place at which it is declared, counted from 1. *)
Lemma data_sort_spec names :
  dict_get None (data_sort names) = Some 0
  ∧ (∀ j d, names !! j = Some d →
       (∀ j', j < j' → names !! j' ≠ Some d) →
       dict_get (Some d) (data_sort names) = Some (S j)).
Proof.
  unfold data_sort. split.
  - rewrite data_sort_other; [done|].
    by intros (n' & [=] & _)%list_elem_of_fmap.
  - intros j d Hj Hlast. by apply (data_sort_last names 1).
Qed.

Lemma sort_key_run names x k st :
  figure_key (plotinfos st) names x = Some k →
  sort_key (data_sort names) x st = (Ok k, st).
Proof.
  unfold figure_key, sort_key, Figure_get_type. simpl.
  destruct (get_plotorder (plotinfos st) x) as [po|]; [simpl|done].
  destruct (get_dataname (master x)) as [dn|]; [simpl|done].
  destruct (dict_get dn (data_sort names)) as [i|]; [simpl|done].
  destruct (ftype x) as [t|]; simpl.
  - by intros [= <-].
  - destruct (FigureType_get_type (master x)) as [t|]; simpl; [|done].
    by intros [= <-].
Qed.

(** The keys are computed for every figure, in order. *)
Lemma sort_keys_run names figs keyed st :
  (∀ x, x ∈ figs → is_Some (figure_key (plotinfos st) names x)) →
  foldM (λ keyed x,
      k <- sort_key (data_sort names) x ;; ret (keyed ++ [(k, x)]))
    keyed figs st
  = (Ok (keyed
         ++ ((λ x, (default (0%Z, 0, 0%Z)
                      (figure_key (plotinfos st) names x), x)) <$> figs)),
     st).
Proof.
  revert keyed. induction figs as [|x figs IH]; intros keyed Hdef; simpl.
  - by rewrite app_nil_r.
  - destruct (Hdef x) as [k Hk]; [by left|].
    rewrite (sort_key_run names x k st Hk). simpl. rewrite IH.
    + rewrite Hk. simpl. by rewrite <- app_assoc.
    + intros y Hy. apply Hdef. by right.
Qed.

(** From the keyed list to the figures. *)
Lemma keyed_sorted (key : Figure → option (Z * nat * Z))
    (l : list ((Z * nat * Z) * Figure)) :
  (∀ a, a ∈ l → key a.2 = Some a.1) →
  StronglySorted (λ a b, lex_le a.1 b.1) l →
  StronglySorted
    (λ x y, ∃ kx ky, key x = Some kx ∧ key y = Some ky ∧ lex_le kx ky) l.*2.
Proof.
  intros Hkey Hs. induction Hs as [|a l Hs IH Hall]; simpl; constructor.
  - apply IH. intros b Hb. apply Hkey. by right.
  - apply Forall_fmap. apply Forall_forall. intros b Hb. simpl.
    exists a.1, b.1. split_and!.
    + apply Hkey. by left.
    + apply Hkey. by right.
    + rewrite Forall_forall in Hall. by apply Hall.
Qed.

Lemma keyed_filter (key : Figure → option (Z * nat * Z))
    (l : list ((Z * nat * Z) * Figure)) k :
  (∀ a, a ∈ l → key a.2 = Some a.1) →
  filter (λ x, key x = Some k) l.*2 = (filter (λ a, a.1 = k) l).*2.
Proof.
  induction l as [|a l IH]; intros Hkey; [done|].
  rewrite fmap_cons, !filter_cons, IH by (intros b Hb; apply Hkey; by right).
  rewrite (Hkey a) by (by left).
  destruct (decide (a.1 = k)) as [->|Hne].
  - by rewrite decide_True.
  - rewrite decide_False by congruence. done.
Qed.

(** C7, as the code has it: the figures of a page come out of the layout
    sort as a rearrangement of the page's figures in which the keys
    [(plotOrder, feed sort key, kind)] ascend in lexicographic order and
    the figures of one key keep the order they had; the feed sort key is 0
    for [False] and, for a declared data name, one more than the last
    place at which the name is declared: the declared order where every
    name is declared once. *)
Theorem sorted_figs_stable figid fp st :
  _figurepages st !! figid = Some fp →
  let names := get_datanames (strategy fp) in
  let key := figure_key (plotinfos st) names in
  (∀ x, x ∈ figures fp → is_Some (key x)) →
  ∃ l, sorted_figs figid st = (Ok l, st)
    ∧ l ≡ₚ figures fp
    ∧ StronglySorted
        (λ x y, ∃ kx ky, key x = Some kx ∧ key y = Some ky ∧ lex_le kx ky) l
    ∧ (∀ k, filter (λ x, key x = Some k) l
            = filter (λ x, key x = Some k) (figures fp))
    ∧ dict_get None (data_sort names) = Some 0
    ∧ (∀ j d, names !! j = Some d →
         (∀ j', j < j' → names !! j' ≠ Some d) →
         dict_get (Some d) (data_sort names) = Some (S j))
    ∧ (NoDup names →
       ∀ j d, names !! j = Some d →
         dict_get (Some d) (data_sort names) = Some (S j)).
Proof.
  intros Hfp names key Hdef.
  set (keyed := (λ x, (default (0%Z, 0, 0%Z) (key x), x)) <$> figures fp).
  assert (Hfigs : keyed.*2 = figures fp).
  { unfold keyed. rewrite <- list_fmap_compose. apply list_fmap_id. }
  assert (Hkeyed : ∀ a, a ∈ keyed → key a.2 = Some a.1).
  { intros a (x & -> & Hx)%list_elem_of_fmap. simpl.
    destruct (Hdef x Hx) as [k ->]. done. }
  assert (Hsorted : ∀ a, a ∈ list_sort keyed → key a.2 = Some a.1).
  { intros a Ha. apply Hkeyed. by rewrite <- (list_sort_perm keyed). }
  exists (list_sort keyed).*2. split_and!.
  - unfold sorted_figs, get_figurepage. simpl. rewrite Hfp. simpl.
    fold names. rewrite (sort_keys_run names (figures fp) [] st Hdef). done.
  - rewrite <- Hfigs. apply fmap_Permutation, list_sort_perm.
  - apply keyed_sorted; [done|]. apply list_sort_sorted.
  - intros k. rewrite <- Hfigs.
    rewrite !keyed_filter by done. by rewrite list_sort_filter.
  - by apply data_sort_spec.
  - by apply data_sort_spec.
  - intros Hnd j d Hj. apply data_sort_spec; [done|].
    intros j' Hlt Hj'. pose proof (NoDup_lookup names j j' d Hnd Hj Hj'). lia.
Qed.

End layout.

(** ** Figure composition *)

Section composition.
Context `{!Externals}.

(** The linking loop, once the figures [pre] after figure 0 are linked. *)
Lemma link_loop f0 (pre todo : list Figure) :
  foldl (λ figs i,
      match figs !! i, figs !! 0 with
      | Some fi, Some f0 => <[i := set_x_range (x_range f0) fi]> figs
      | _, _ => figs
      end)
    (f0 :: pre ++ todo) (seq (S (length pre)) (length todo))
  = f0 :: pre ++ (set_x_range (x_range f0) <$> todo).
Proof.
  revert pre. induction todo as [|t todo IH]; intros pre; [reflexivity|].
  cbn [length seq foldl].
  replace ((f0 :: pre ++ t :: todo) !! S (length pre)) with (Some t)
    by (symmetry; cbn; by apply list_lookup_middle).
  cbn [lookup list_lookup].
  replace (<[S (length pre) := set_x_range (x_range f0) t]>
             (f0 :: pre ++ t :: todo))
    with (f0 :: (pre ++ [set_x_range (x_range f0) t]) ++ todo).
  - replace (S (S (length pre)))
      with (S (length (pre ++ [set_x_range (x_range f0) t])))
      by (rewrite length_app; simpl; lia).
    rewrite IH. rewrite <- app_assoc. reflexivity.
  - change (<[S (length pre) := ?x]> (f0 :: ?l))
      with (f0 :: <[length pre := x]> l).
    f_equal. rewrite <- app_assoc.
    rewrite insert_app_r_alt, Nat.sub_diag by lia. reflexivity.
Qed.

(** The linking loop gives every later figure the time axis of the first
    and changes nothing else. *)
Lemma link_axis_cons f0 rest :
  link_axis (f0 :: rest) = f0 :: (set_x_range (x_range f0) <$> rest).
Proof.
  unfold link_axis. cbn [length]. rewrite Nat.sub_succ, Nat.sub_0_r.
  apply (link_loop f0 [] rest).
Qed.

Lemma link_axis_x_range figs i f0 fi :
  link_axis figs !! 0 = Some f0 → link_axis figs !! i = Some fi →
  x_range fi = x_range f0.
Proof.
  destruct figs as [|g rest]; [done|]. rewrite link_axis_cons.
  intros [= <-]. destruct i as [|i]; simpl.
  - by intros [= <-].
  - rewrite list_lookup_fmap. destruct (rest !! i); simpl; [|done].
    by intros [= <-].
Qed.

Lemma link_axis_master figs : master <$> link_axis figs = master <$> figs.
Proof.
  destruct figs as [|g rest]; [done|]. rewrite link_axis_cons.
  rewrite !fmap_cons. f_equal. rewrite <- list_fmap_compose.
  by apply list_fmap_ext.
Qed.

Lemma link_axis_ftype figs t :
  Forall (λ f, ftype f = t) figs → Forall (λ f, ftype f = t) (link_axis figs).
Proof.
  destruct figs as [|g rest]; [done|]. rewrite link_axis_cons.
  intros [Hg Hrest]%Forall_cons.
  constructor; [done|]. apply Forall_fmap.
  eapply Forall_impl; [exact Hrest|]. done.
Qed.

Lemma for_each_log {A} (l : list A) (f : A → call) st :
  for_each l (λ x, log_call (f x)) st = (Ok tt, log_calls (f <$> l) st).
Proof.
  revert st. induction l as [|x l IH]; intros st; simpl.
  - by rewrite log_calls_nil.
  - rewrite IH. by rewrite log_calls_app.
Qed.

(** The loop that builds the primary figures: it returns, touches neither
    the pages nor the objects, and builds one figure of the master's kind
    per entry. *)
Lemma build_figures objects figures st :
  ∃ figs st',
    foldM (λ figures '(parent, childs),
        figure <- Figure_new parent childs None ;;
        log_call (CallPlot figure parent) ;;
        for_each childs (λ c, log_call (CallPlot figure c)) ;;
        log_call (CallFigureApply figure) ;;
        ret (figures ++ [figure]))
      figures objects st
    = (Ok (figures ++ figs), st')
    ∧ _figurepages st' = _figurepages st
    ∧ scheme st' = scheme st
    ∧ master <$> figs = objects.*1
    ∧ Forall (λ f, ftype f = None) figs.
Proof.
  revert figures st.
  induction objects as [|[parent childs] objects IH]; intros figures st.
  { exists [], st. simpl. by rewrite app_nil_r. }
  simpl. rewrite for_each_log. simpl.
  match goal with
  | |- context [foldM _ (figures ++ [?f]) objects ?st1] =>
      destruct (IH (figures ++ [f]) st1) as (figs & st' & -> & Hp & Hs & Hm & Ht);
      exists (f :: figs), st'
  end.
  rewrite <- app_assoc. simpl in *. split_and!; [done|done|done| |].
  - f_equal. exact Hm.
  - by constructor.
Qed.

(** The loop that derives the volume figures: it returns when the kind of
    every figure is known, and only appends figures of kind [VOL] to the
    page. *)
Lemma volume_figures figid (l : list Figure) pg st :
  _figurepages st !! figid = Some pg →
  (∀ f, f ∈ l → ftype f = None → is_Some (FigureType_get_type (master f))) →
  ∃ vols st',
    for_each l (λ f,
        t <- Figure_get_type f ;;
        if negb (bool_decide (t = DATA)) then ret tt
        else
          figure <- Figure_new (master f) [] (Some VOL) ;;
          log_call (CallPlotVolume figure (master f)) ;;
          log_call (CallFigureApply figure) ;;
          update_page figid (set_figures (λ l, l ++ [figure])))
      st
    = (Ok tt, st')
    ∧ _figurepages st' !! figid = Some (set_figures (λ l, l ++ vols) pg)
    ∧ Forall (λ f, ftype f = Some VOL) vols.
Proof.
  revert pg st. induction l as [|f l IH]; intros pg st Hpg Hkind.
  { exists [], st. split_and!; [done| |done].
    rewrite Hpg. destruct pg. unfold set_figures. simpl. by rewrite app_nil_r. }
  assert (Hl : ∀ g, g ∈ l → ftype g = None →
                is_Some (FigureType_get_type (master g))).
  { intros g Hg. apply Hkind. by right. }
  assert (Ht : ∃ t, Figure_get_type f st = (Ok t, st)).
  { unfold Figure_get_type. destruct (ftype f) as [t|] eqn:Hf; [by eexists|].
    destruct (Hkind f) as [t Ht]; [by left|done|]. rewrite Ht. by eexists. }
  destruct Ht as [t Ht]. simpl. rewrite Ht.
  destruct (bool_decide (t = DATA)); simpl.
  - match goal with
    | |- context [for_each l _ ?st1] =>
        destruct (IH (set_figures (λ l0, l0 ++
                        [mkFigure (master f) [] (Some VOL) (next_range st)]) pg)
                    st1) as (vols & st' & -> & Hp & Hv);
          [simpl; by rewrite lookup_alter_eq, Hpg|done|]
    end.
    exists (mkFigure (master f) [] (Some VOL) (next_range st) :: vols), st'.
    split_and!; [done| |by constructor].
    rewrite Hp. unfold set_figures. simpl. by rewrite <- app_assoc.
  - destruct (IH pg st Hpg Hl) as (vols & st' & -> & Hp & Hv).
    by exists vols, st'.
Qed.

Lemma figurepages_set f st :
  _figurepages (set_figurepages f st) = f (_figurepages st).
Proof. done. Qed.

Lemma figurepages_log cs st : _figurepages (log_calls cs st) = _figurepages st.
Proof. done. Qed.

(** C6, as the code has it: after composition the page holds the primary
    figures, one per filtered master and in that order, followed by the
    derived volume figures; every primary figure has the time axis object
    of the first one. The volume figures are built after the linking loop
    and are not linked by it. *)
Theorem _blueprint_strategy_links figid flt fp s st :
  _figurepages st !! figid = Some fp →
  strategy fp = Some s →
  let objs := get_plotobjs (plotinfos st) (Some s) false true in
  NoDup objs.*1 →
  (∀ m, m ∈ objs.*1 → is_Some (FigureType_get_type m)) →
  ∃ st' primary vols,
    _blueprint_strategy figid flt st = (Ok tt, st')
    ∧ figures <$> _figurepages st' !! figid = Some (primary ++ vols)
    ∧ master <$> primary
      = (filterObjects (λ o, filter_obj (plotinfos st) o flt) objs).*1
    ∧ Forall (λ f, ftype f = None) primary
    ∧ Forall (λ f, ftype f = Some VOL) vols
    ∧ (∀ i f0 fi, primary !! 0 = Some f0 → primary !! i = Some fi →
         x_range fi = x_range f0).
Proof.
  intros Hfp Hs objs Hnd Hkind.
  destruct fp as [fs fo ffigs fans fdc fdco fcds]. simpl in Hs. subst fs.
  set (predicate := λ o, filter_obj (plotinfos st) o flt).
  set (fp2 := mkFigurePage (Some s) fo [] (fans ++ getitems s) fdc fdco fcds).
  set (st2 := set_figurepages
                (alter (set_analyzers (λ l, l ++ getitems s)) figid)
                (set_figurepages (alter FigurePage_reset figid) st)).
  assert (Hfp2 : _figurepages st2 !! figid = Some fp2).
  { simpl. by rewrite !lookup_alter_eq, Hfp. }
  pose proof (_get_plotobjects_run figid flt fp2 st2 Hfp2 Hnd) as Hget.
  change (_get_plotobjects figid flt st2
          = (Ok (filterObjects predicate objs),
             log_calls (CallFilterObj <$> tested predicate objs) st2)) in Hget.
  destruct (build_figures (filterObjects predicate objs) []
              (log_calls (CallFilterObj <$> tested predicate objs) st2))
    as (figs & st4 & Hbuild & Hpages & Hscheme & Hmaster & Htype).
  simpl in Hbuild. rewrite figurepages_log in Hpages.
  set (pg5 := set_figures (λ l, l ++ link_axis figs) fp2).
  set (st5 := set_figurepages
                (alter (set_figures (λ l, l ++ link_axis figs)) figid) st4).
  assert (Hpg5 : _figurepages st5 !! figid = Some pg5).
  { unfold st5. by rewrite figurepages_set, lookup_alter_eq, Hpages, Hfp2. }
  assert (Hlink : ∀ i f0 fi,
    link_axis figs !! 0 = Some f0 → link_axis figs !! i = Some fi →
    x_range fi = x_range f0).
  { intros i f0 fi. apply link_axis_x_range. }
  assert (Hrun : ∀ r6 st6,
    (if volume (scheme st) && negb (voloverlay (scheme st))
     then for_each (link_axis figs) (λ f,
            t <- Figure_get_type f ;;
            if negb (bool_decide (t = DATA)) then ret tt
            else
              figure <- Figure_new (master f) [] (Some VOL) ;;
              log_call (CallPlotVolume figure (master f)) ;;
              log_call (CallFigureApply figure) ;;
              update_page figid (set_figures (λ l, l ++ [figure])))
     else ret tt) st5 = (r6, st6) →
    _blueprint_strategy figid flt st
    = match r6 with
      | Ok _ => log_call (CallPageApply figid) st6
      | Raise e => (Raise e, st6)
      end).
  { intros r6 st6 Hvol. unfold _blueprint_strategy.
    rewrite (bind_ok _ _ st _ st)
      by (unfold get_figurepage; simpl; by rewrite Hfp).
    simpl. fold st2. rewrite Hget, Hbuild. simpl. fold st5. by rewrite Hvol. }
  destruct (volume (scheme st) && negb (voloverlay (scheme st))).
  - destruct (volume_figures figid (link_axis figs) pg5 st5 Hpg5)
      as (vols & st6 & Hvol & Hpg6 & Hvols).
    { intros f Hf _. apply Hkind.
      assert (Hm : master f ∈ master <$> link_axis figs)
        by (by apply list_elem_of_fmap_2).
      rewrite link_axis_master, Hmaster, filterObjects_keys in Hm.
      by apply list_elem_of_filter in Hm as [_ Hm]. }
    exists (log_calls [CallPageApply figid] st6), (link_axis figs), vols.
    split_and!.
    + by rewrite (Hrun _ _ Hvol).
    + by rewrite figurepages_log, Hpg6.
    + by rewrite link_axis_master.
    + by apply link_axis_ftype.
    + done.
    + done.
  - exists (log_calls [CallPageApply figid] st5), (link_axis figs), [].
    split_and!.
    + by rewrite (Hrun (Ok tt) st5).
    + rewrite figurepages_log, Hpg5. simpl. by rewrite app_nil_r.
    + by rewrite link_axis_master.
    + by apply link_axis_ftype.
    + done.
    + done.
Qed.

End composition.

(** The sample page: three primary figures, all on the axis of the first,
    and the volume figure of the data feed. *)
Lemma _blueprint_strategy_links_witness :
  let e := Sample.ext Sample.masters [] in
  let st := Sample.app Sample.store None {[ 0%Z := FigurePage_new Sample.strat ]} in
  ∃ st' primary vols,
    _blueprint_strategy 0 None st = (Ok tt, st')
    ∧ figures <$> _figurepages st' !! 0%Z = Some (primary ++ vols)
    ∧ master <$> primary = [Sample.data1; Sample.ema; Sample.broker]
    ∧ Forall (λ f, ftype f = None) primary
    ∧ Forall (λ f, ftype f = Some VOL) vols
    ∧ (∀ i f0 fi, primary !! 0 = Some f0 → primary !! i = Some fi →
         x_range fi = x_range f0).
Proof.
  intros e st.
  refine (@_blueprint_strategy_links e 0 None (FigurePage_new Sample.strat)
            Sample.strat st eq_refl eq_refl _ _).
  - apply (bool_decide_unpack _). vm_compute. exact I.
  - intros m Hm. change (m ∈ [Sample.data1; Sample.ema; Sample.broker]) in Hm.
    repeat (apply elem_of_cons in Hm as [->|Hm]; [by eexists|]).
    by apply elem_of_nil in Hm.
Defined.

(** C6 fails as stated: with volume figures enabled the page of the sample
    strategy ends with the volume figure of the data feed, which is built
    after the linking loop and has a time axis object of its own. *)
Lemma _blueprint_strategy_volume_unlinked :
  let e := Sample.ext Sample.masters [] in
  let st := Sample.app Sample.store None {[ 0%Z := FigurePage_new Sample.strat ]} in
  let st' := (_blueprint_strategy 0 None st).2 in
  volume (scheme st) = true
  ∧ voloverlay (scheme st) = false
  ∧ (_blueprint_strategy 0 None st).1 = Ok tt
  ∧ figures <$> _figurepages st' !! 0%Z
    = Some [mkFigure Sample.data1 [Sample.sma] None 0;
            mkFigure Sample.ema [] None 0;
            mkFigure Sample.broker [] None 0;
            mkFigure Sample.data1 [] (Some VOL) 3]
  ∧ x_range (mkFigure Sample.data1 [] (Some VOL) 3)
    ≠ x_range (mkFigure Sample.data1 [Sample.sma] None 0).
Proof.
  intros e st st'.
  split_and!; [reflexivity|reflexivity|reflexivity|reflexivity|discriminate].
Qed.

(** A page of five figures on two feeds: the observer has a later
    [plotOrder] and goes last, the figures of the first feed go before the
    figure of the second, and the two indicators of the first feed, whose
    keys are equal, keep the order they had. *)
Lemma sorted_figs_stable_witness :
  let e := Sample.ext Sample.graph ["1"; "8"] in
  let data8 := mkObj 8 AbstractDataBase in
  let f_ema := mkFigure Sample.ema [] None 0 in
  let f_broker := mkFigure Sample.broker [] None 1 in
  let f_data8 := mkFigure data8 [] None 2 in
  let f_sma := mkFigure Sample.sma [] None 3 in
  let f_data1 := mkFigure Sample.data1 [] None 4 in
  let figs := [f_ema; f_broker; f_data8; f_sma; f_data1] in
  let store : Store :=
    {[ Sample.ema := {[ "plotorder" := VInt 0 ]};
       Sample.sma := {[ "plotorder" := VInt 0 ]};
       Sample.broker := {[ "plotorder" := VInt 5 ]};
       data8 := {[ "plotorder" := VInt 0 ]};
       Sample.data1 := {[ "plotorder" := VInt 0 ]} ]} in
  let fp := mkFigurePage (Some Sample.strat) None figs [] None [] None in
  let st := Sample.app store None {[ 0%Z := fp ]} in
  let names := ["1"; "8"] in
  let key := figure_key store names in
  key <$> figs
  = [Some (0%Z, 1, 3%Z); Some (5%Z, 1, 0%Z); Some (0%Z, 2, 1%Z);
     Some (0%Z, 1, 3%Z); Some (0%Z, 1, 1%Z)]
  ∧ ∃ l, sorted_figs 0 st = (Ok l, st)
    ∧ l = [f_data1; f_ema; f_sma; f_data8; f_broker]
    ∧ l ≡ₚ figs
    ∧ StronglySorted
        (λ x y, ∃ kx ky, key x = Some kx ∧ key y = Some ky ∧ lex_le kx ky) l
    ∧ (∀ k, filter (λ x, key x = Some k) l = filter (λ x, key x = Some k) figs)
    ∧ dict_get None (data_sort names) = Some 0
    ∧ (∀ j d, names !! j = Some d →
         (∀ j', j < j' → names !! j' ≠ Some d) →
         dict_get (Some d) (data_sort names) = Some (S j))
    ∧ (NoDup names →
       ∀ j d, names !! j = Some d →
         dict_get (Some d) (data_sort names) = Some (S j)).
Proof.
  intros e data8 f_ema f_broker f_data8 f_sma f_data1 figs store fp st names
    key.
  split; [vm_compute; reflexivity|].
  destruct (@sorted_figs_stable e 0 fp st eq_refl) as (l & Hrun & Hrest).
  { intros x Hx. change (x ∈ figs) in Hx.
    repeat (apply elem_of_cons in Hx as [->|Hx]; [by eexists|]).
    by apply elem_of_nil in Hx. }
  exists l. split; [exact Hrun|]. split; [|exact Hrest].
  assert (Hc : sorted_figs 0 st
               = (Ok [f_data1; f_ema; f_sma; f_data8; f_broker], st)).
  { vm_compute. reflexivity. }
  rewrite Hc in Hrun. by injection Hrun.
Defined.

(** C7 fails as stated: with the data names [7; 1; 7] declared, the feed
    [7] is declared first, and yet the figure of the feed [1] sorts before
    the figure of the feed [7], the two having the same [plotOrder] and
    the same kind: the table keeps for a name the number of the last place
    at which it is declared. *)
Lemma sorted_figs_declared_twice :
  let names := ["7"; "1"; "7"] in
  let e := Sample.ext Sample.graph names in
  let data7 := mkObj 7 AbstractDataBase in
  let f7 := mkFigure data7 [] None 0 in
  let f1 := mkFigure Sample.data1 [] None 1 in
  let store : Store :=
    {[ data7 := {[ "plotorder" := VInt 0 ]};
       Sample.data1 := {[ "plotorder" := VInt 0 ]} ]} in
  let fp := mkFigurePage (Some Sample.strat) None [f7; f1] [] None [] None in
  let st := Sample.app store None {[ 0%Z := fp ]} in
  get_datanames (strategy fp) = names
  ∧ get_dataname data7 = Some (Some "7")
  ∧ get_dataname Sample.data1 = Some (Some "1")
  ∧ names !! 0 = Some "7"
  ∧ figure_key store names f7 = Some (0%Z, 3, 1%Z)
  ∧ figure_key store names f1 = Some (0%Z, 2, 1%Z)
  ∧ sorted_figs 0 st = (Ok [f1; f7], st).
Proof.
  intros names e data7 f7 f1 store fp st.
  split_and!; vm_compute; reflexivity.
Qed.

(** ** The methods on the sample page *)

Example sorted_figs_sample :
  let e := Sample.ext Sample.graph ["1"] in
  let figs := [mkFigure Sample.ema [] None 0;
               mkFigure Sample.broker [] None 0;
               mkFigure Sample.data1 [] None 0;
               mkFigure Sample.data1 [] (Some VOL) 1] in
  let store : Store :=
    {[ Sample.ema := {[ "plotorder" := VInt 0 ]};
       Sample.broker := {[ "plotorder" := VInt 0 ]};
       Sample.data1 := {[ "plotorder" := VInt 0 ]} ]} in
  let st := Sample.app store None
              {[ 0%Z := mkFigurePage (Some Sample.strat) None figs [] None [] None ]} in
  (sorted_figs 0 st).1
  = Ok [mkFigure Sample.broker [] None 0;
        mkFigure Sample.data1 [] None 0;
        mkFigure Sample.data1 [] (Some VOL) 1;
        mkFigure Sample.ema [] None 0].
Proof. reflexivity. Qed.

Example split_sample :
  PyStr.split ":" "id:IND3" = ["id"; "IND3"]
  ∧ PyStr.split ":" "r:^a:b" = ["r"; "^a"; "b"]
  ∧ PyStr.split ":" "plain" = ["plain"]
  ∧ PyStr.split "-" "IND-3" = ["IND"; "3"].
Proof. repeat split. Qed.

Example default_ids_sample :
  let e := Sample.ext Sample.graph [] in
  let st := Sample.app Sample.store None {[ 0%Z := FigurePage_new Sample.strat ]} in
  let st' := (_configure_plotting 0 st).2 in
  plotid_of st' <$> [Sample.strat; Sample.broker; Sample.data1; Sample.sma; Sample.ema]
  = [None; Some (VStr "OBS0"); Some (VStr "DATA1"); Some (VStr "IND2");
     Some (VStr "IND3")].
Proof. vm_compute. reflexivity. Qed.

(** The rule of the specification's scenario: [id:IND3] colours the object
    whose identifier is [IND3] and no other. *)
Example plotid_rule_sample :
  let e := Sample.ext Sample.graph [] in
  let st := Sample.app Sample.store (Some [("id:IND3", [("color", VStr "red")])])
              {[ 0%Z := FigurePage_new Sample.strat ]} in
  let st' := (_configure_plotting 0 st).2 in
  (λ o, plotinfo (plotinfos st') o !! "color") <$> [Sample.sma; Sample.ema]
  = [None; Some (VStr "red")].
Proof. vm_compute. reflexivity. Qed.

(** A rule may override the identifiers: the empty pattern matches every
    label, and the rule gives every object the same [plotid]. *)
Example plotid_override_sample :
  let e := Sample.ext Sample.graph [] in
  let st := Sample.app Sample.store (Some [("r:", [("plotid", VStr "x")])])
              {[ 0%Z := FigurePage_new Sample.strat ]} in
  let st' := (_configure_plotting 0 st).2 in
  (_configure_plotting 0 st).1 = Ok tt
  ∧ plotid_of st' <$> [Sample.broker; Sample.data1; Sample.sma; Sample.ema]
    = [Some (VStr "x"); Some (VStr "x"); Some (VStr "x"); Some (VStr "x")].
Proof. split; vm_compute; reflexivity. Qed.

(** * Further properties *)

(** ** More on the rules *)

Section more_rules.
Context `{!Externals}.

(** X2: [apply_config] never raises; afterwards every attribute named by
    the overrides has the overriding value, the other attributes of the
    object are as before, and no other object is written to. *)
Theorem apply_config_lookup o config st :
  NoDup config.*1 →
  let st' := (apply_config o config st).2 in
  (apply_config o config st).1 = Ok tt
  ∧ (∀ k v, (k, v) ∈ config → plotinfo (plotinfos st') o !! k = Some v)
  ∧ (∀ k, k ∉ config.*1 →
       plotinfo (plotinfos st') o !! k = plotinfo (plotinfos st) o !! k)
  ∧ (∀ d, d ≠ o → plotinfos st' !! d = plotinfos st !! d).
Proof.
  intros Hnd st'. split_and!.
  - by rewrite apply_config_state.
  - intros k v Hin. unfold st'. rewrite apply_config_plotinfo.
    by apply overrides_entry.
  - intros k Hk. unfold st'. rewrite apply_config_plotinfo.
    by apply overrides_other.
  - intros d Hd. by apply touches_only_apply_config.
Qed.

(** X3: in a rule of kind [#] the ordinal is read only for an object of
    the rule's class: with an ordinal that is no number the rule is
    skipped for the objects of other classes and fails with a value error,
    the state as it was, for an object of the class. *)
Theorem configure_rule_index_bad_ordinal o idx k ctype target target_type
    target_idx cls config st :
  PyStr.unpack2 (PyStr.split ":" k) = Some (ctype, target) →
  PyStr.head ctype = Some "#"%char →
  PyStr.unpack2 (PyStr.split "-" target) = Some (target_type, target_idx) →
  FigureType_get_obj target_type = Some cls →
  py_int target_idx = None →
  configure_rule o idx (k, config) st
  = if cls o then (Raise ValueError, st) else (Ok tt, st).
Proof.
  intros Hk Hc Ht Hcls Hn. unfold configure_rule. rewrite Hk. simpl.
  rewrite decide_False by (intros ->; discriminate). simpl.
  rewrite Hc. simpl. rewrite Ht. simpl. rewrite Hcls. simpl.
  destruct (cls o); simpl; [|done]. by rewrite Hn.
Qed.

(** A rule that raises has applied nothing. *)
Lemma configure_rule_raise o idx rule st e st' :
  configure_rule o idx rule st = (Raise e, st') → st' = st.
Proof.
  destruct rule as [k config]. unfold configure_rule, getattr.
  pose proof (apply_config_state o config st) as Happ.
  simpl. destruct (PyStr.unpack2 (PyStr.split ":" k)) as [[ctype target]|];
    simpl; [|by intros [= _ <-]].
  destruct (decide (ctype = "r")); simpl.
  { unfold re_match. destruct (re_compile target) as [p|]; simpl;
      [|by intros [= _ <-]].
    destruct (p _ 0); [by rewrite Happ|by intros [=]]. }
  destruct (PyStr.head ctype) as [c0|]; simpl; [|by intros [= _ <-]].
  destruct (decide (c0 = "#"%char)); simpl.
  { destruct (PyStr.unpack2 (PyStr.split "-" target)) as [[tt ti]|];
      simpl; [|by intros [= _ <-]].
    destruct (FigureType_get_obj tt) as [cls|]; simpl; [|by intros [= _ <-]].
    destruct (cls o); simpl; [|by intros [=]].
    destruct (py_int ti); simpl; [|by intros [= _ <-]].
    destruct (negb _); [by intros [=]|by rewrite Happ]. }
  destruct (decide (ctype = "id")); simpl; [|by intros [= _ <-]].
  destruct (plotinfo (plotinfos st) o !! "plotid"); simpl;
    [|by intros [= _ <-]].
  destruct (_ || _); [by intros [=]|by rewrite Happ].
Qed.

(** X4: when the loop over the rules raises, it raises at one rule: the
    rules before it have all returned, that rule has applied nothing, and
    the state left is the state the rules before it produced. *)
Theorem configure_rules_raise o idx rules st e st' :
  configure_rules o idx rules st = (Raise e, st') →
  ∃ pre rule post,
    rules = pre ++ rule :: post
    ∧ configure_rules o idx pre st = (Ok tt, st')
    ∧ configure_rule o idx rule st' = (Raise e, st').
Proof.
  unfold configure_rules. revert st.
  induction rules as [|rule rules IH]; intros st; simpl; [done|].
  destruct (configure_rule o idx rule st) as [[[]|e1] st1] eqn:Hrule.
  - intros Hrun. destruct (IH st1 Hrun) as (pre & r & post & -> & Hpre & Hr).
    exists (rule :: pre), r, post. split_and!; [done| |done].
    simpl. by rewrite Hrule.
  - intros [= <- <-]. exists [], rule, rules.
    pose proof (configure_rule_raise o idx rule st e1 st1 Hrule) as ->.
    done.
Qed.

End more_rules.

(** ** More on the default-identity pass *)

Section attributes.
Context `{!Externals}.

Lemma keeps_attr_ret {A} k (a : A) : keeps_attr k (ret a).
Proof. by intros st d. Qed.

Lemma keeps_attr_raise {A} k e : keeps_attr k (@raise A e).
Proof. by intros st d. Qed.

Lemma keeps_attr_gets {A} k (f : App → A) : keeps_attr k (gets f).
Proof. by intros st d. Qed.

Lemma keeps_attr_lift {A} k e (x : option A) : keeps_attr k (lift e x).
Proof. destruct x; by intros st d. Qed.

Lemma keeps_attr_bind {A B} k (c : M A) (f : A → M B) :
  keeps_attr k c → (∀ a, keeps_attr k (f a)) → keeps_attr k (bind c f).
Proof.
  intros Hc Hf st d. specialize (Hc st d). simpl in *.
  destruct (c st) as [[a|e] st1]; simpl in *; [|done].
  by rewrite (Hf a st1 d).
Qed.

Lemma keeps_attr_setattr k o k' v :
  k' ≠ k → keeps_attr k (setattr o k' v).
Proof.
  intros Hk st d. unfold plotinfo. simpl.
  destruct (decide (o = d)) as [->|Hne].
  - rewrite lookup_insert_eq. simpl. by rewrite lookup_insert_ne.
  - by rewrite lookup_insert_ne.
Qed.

Lemma keeps_attr_for_each {A} k (l : list A) body :
  (∀ x, x ∈ l → keeps_attr k (body x)) → keeps_attr k (for_each l body).
Proof.
  induction l as [|x l IH]; intros Hb; simpl.
  - apply keeps_attr_ret.
  - apply keeps_attr_bind; [apply Hb; by left|].
    intros _. apply IH. intros y Hy. apply Hb. by right.
Qed.

Lemma grows_attrs_ret {A} (a : A) : grows_attrs (ret a).
Proof. by intros st d k. Qed.

Lemma grows_attrs_raise {A} e : grows_attrs (@raise A e).
Proof. by intros st d k. Qed.

Lemma grows_attrs_gets {A} (f : App → A) : grows_attrs (gets f).
Proof. by intros st d k. Qed.

Lemma grows_attrs_lift {A} e (x : option A) : grows_attrs (lift e x).
Proof. destruct x; by intros st d k. Qed.

Lemma grows_attrs_bind {A B} (c : M A) (f : A → M B) :
  grows_attrs c → (∀ a, grows_attrs (f a)) → grows_attrs (bind c f).
Proof.
  intros Hc Hf st d k Hk. specialize (Hc st d k Hk). simpl in *.
  destruct (c st) as [[a|e] st1]; simpl in *; [|done].
  by apply (Hf a st1 d k).
Qed.

Lemma grows_attrs_setattr o k v : grows_attrs (setattr o k v).
Proof.
  intros st d k' Hk'. unfold plotinfo in *. simpl.
  destruct (decide (o = d)) as [->|Hne].
  - rewrite lookup_insert_eq. simpl.
    destruct (decide (k = k')) as [->|Hkk].
    + rewrite lookup_insert_eq. eauto.
    + by rewrite lookup_insert_ne.
  - by rewrite lookup_insert_ne.
Qed.

Lemma grows_attrs_for_each {A} (l : list A) body :
  (∀ x, grows_attrs (body x)) → grows_attrs (for_each l body).
Proof.
  intros Hb. induction l as [|x l IH]; simpl.
  - apply grows_attrs_ret.
  - apply grows_attrs_bind; [apply Hb|done].
Qed.

End attributes.

Ltac keeps_attrs :=
  repeat first
    [ apply keeps_attr_ret
    | apply keeps_attr_raise
    | apply keeps_attr_gets
    | apply keeps_attr_lift
    | apply keeps_attr_bind; [|intros ?]
    | match goal with
      | |- keeps_attr _ (if ?b then _ else _) => destruct b
      | |- keeps_attr _ (let (_, _) := ?x in _) => destruct x
      | |- keeps_attr _ (match ?x with _ => _ end) => destruct x
      end ].

Ltac grows :=
  repeat first
    [ apply grows_attrs_ret
    | apply grows_attrs_raise
    | apply grows_attrs_gets
    | apply grows_attrs_lift
    | apply grows_attrs_setattr
    | apply grows_attrs_for_each; intros []
    | apply grows_attrs_bind; [|intros ?]
    | match goal with
      | |- grows_attrs (if ?b then _ else _) => destruct b
      | |- grows_attrs (let (_, _) := ?x in _) => destruct x
      | |- grows_attrs (match ?x with _ => _ end) => destruct x
      end ].

Section more_identity.
Context `{!Externals}.

Lemma plotinfo_insert_eq (S : Store) o (pi : pinfo) :
  plotinfo (<[o := pi]> S) o = pi.
Proof. unfold plotinfo. by rewrite lookup_insert_eq. Qed.

Lemma grows_attrs_configure_plotobject o idx :
  grows_attrs (_configure_plotobject o idx).
Proof.
  unfold _configure_plotobject, patch_defaults, configure_rules,
    configure_rule, getattr, apply_config.
  grows.
Qed.

Lemma keeps_attr_apply_config k o config :
  k ∉ config.*1 → keeps_attr k (apply_config o config).
Proof.
  intros Hcfg. unfold apply_config. apply keeps_attr_for_each.
  intros [k' v] Hin. apply keeps_attr_setattr. intros ->.
  apply Hcfg. by apply (list_elem_of_fmap_2 fst) in Hin.
Qed.

Lemma keeps_attr_configure_rules k o idx rules :
  (∀ key config, (key, config) ∈ rules → k ∉ config.*1) →
  keeps_attr k (configure_rules o idx rules).
Proof.
  intros Hrules. unfold configure_rules. apply keeps_attr_for_each.
  intros [key config] Hin. unfold configure_rule, getattr.
  keeps_attrs; apply keeps_attr_apply_config; by eapply Hrules.
Qed.

(** The defaults, when they are set: both attributes are there, and the
    order is the one that was there or else 0. *)
Lemma patch_defaults_attrs o i st st' :
  patch_defaults o i st = (Ok tt, st') →
  is_Some (plotinfo (plotinfos st') o !! "plotid")
  ∧ plotinfo (plotinfos st') o !! "plotorder"
    = Some (default (VInt 0) (plotinfo (plotinfos st) o !! "plotorder")).
Proof.
  unfold patch_defaults, hasattr, setattr. simpl.
  destruct (plotinfo (plotinfos st) o !! "plotid") as [v|] eqn:Hid.
  - rewrite bool_decide_true by eauto. simpl.
    destruct (plotinfo (plotinfos st) o !! "plotorder") as [w|] eqn:Hord.
    + rewrite bool_decide_true by eauto. simpl. intros [= <-].
      rewrite Hid, Hord. eauto.
    + rewrite bool_decide_false by (by intros [? ?]). simpl. intros [= <-].
      simpl. rewrite !plotinfo_insert_eq. split.
      * rewrite lookup_insert_ne by done. rewrite Hid. eauto.
      * by rewrite lookup_insert_eq.
  - rewrite bool_decide_false by (by intros [? ?]).
    destruct (FigureType_get_type o) as [t|]; simpl; [|done].
    rewrite !plotinfo_insert_eq. rewrite lookup_insert_ne by done.
    destruct (plotinfo (plotinfos st) o !! "plotorder") as [w|] eqn:Hord.
    + rewrite bool_decide_true by eauto. simpl. intros [= <-].
      simpl. rewrite !plotinfo_insert_eq. split.
      * rewrite lookup_insert_eq. eauto.
      * by rewrite lookup_insert_ne.
    + rewrite bool_decide_false by (by intros [? ?]). simpl. intros [= <-].
      simpl. rewrite !plotinfo_insert_eq. split.
      * rewrite lookup_insert_ne by done. rewrite lookup_insert_eq. eauto.
      * by rewrite lookup_insert_eq.
Qed.

Lemma configure_plotobject_attrs o i st st' :
  _configure_plotobject o i st = (Ok tt, st') →
  is_Some (plotinfo (plotinfos st') o !! "plotid")
  ∧ is_Some (plotinfo (plotinfos st') o !! "plotorder").
Proof.
  intros Hrun.
  pose proof (grows_attrs_configure_plotobject o i) as Hgrow.
  unfold _configure_plotobject in Hrun, Hgrow. simpl in Hrun.
  destruct (patch_defaults o i st) as [[[]|e] st1] eqn:Hp; [|done].
  apply patch_defaults_attrs in Hp as [Hid Hord].
  assert (Hg : grows_attrs
    (config <- gets (λ st, plotconfig (params st)) ;;
     match config with
     | None => ret tt
     | Some rules => configure_rules o i rules
     end)).
  { unfold configure_rules, configure_rule, getattr, apply_config. grows. }
  pose proof (Hg st1 o) as Hg1. simpl in Hg1. rewrite Hrun in Hg1. simpl in Hg1.
  split; apply Hg1; [done|]. rewrite Hord. eauto.
Qed.

Lemma configure_from_attrs l i st st' :
  configure_from i l st = (Ok tt, st') →
  ∀ o, o ∈ l →
    is_Some (plotinfo (plotinfos st') o !! "plotid")
    ∧ is_Some (plotinfo (plotinfos st') o !! "plotorder").
Proof.
  revert i st. induction l as [|x l IH]; intros i st Hrun o Ho.
  { by apply elem_of_nil in Ho. }
  simpl in Hrun.
  destruct (_configure_plotobject x i st) as [[[]|e] st1] eqn:Hx; [|done].
  destruct (decide (o ∈ l)) as [Hin|Hnin]; [by eapply IH|].
  apply elem_of_cons in Ho as [->|?]; [|done].
  apply configure_plotobject_attrs in Hx as [Hid Hord].
  pose proof (configure_from_frame l (S i) st1) as (Hfr & _ & _).
  rewrite Hrun in Hfr. simpl in Hfr. unfold plotinfo.
  rewrite (Hfr x Hnin). done.
Qed.

(** X5: whatever the rules, when the pass returns every object it has
    visited has a [plotid] and a [plotorder] attribute. *)
Theorem _configure_plotting_has_attrs figid fp st st' :
  _figurepages st !! figid = Some fp →
  _configure_plotting figid st = (Ok tt, st') →
  ∀ o, o ∈ traversal (get_plotobjs (plotinfos st) (strategy fp) true false) →
    is_Some (plotinfo (plotinfos st') o !! "plotid")
    ∧ is_Some (plotinfo (plotinfos st') o !! "plotorder").
Proof.
  intros Hfp Hrun. rewrite (_configure_plotting_run figid fp st Hfp) in Hrun.
  by eapply configure_from_attrs.
Qed.

Lemma configure_plotobject_plotorder o i st st' :
  no_override "plotorder" (plotconfig (params st)) →
  _configure_plotobject o i st = (Ok tt, st') →
  plotinfo (plotinfos st') o !! "plotorder"
  = Some (default (VInt 0) (plotinfo (plotinfos st) o !! "plotorder")).
Proof.
  intros Hno. unfold _configure_plotobject. simpl.
  pose proof (touches_only_patch_defaults o i st) as (_ & Hpar & _).
  destruct (patch_defaults o i st) as [[[]|e] st1] eqn:Hp; [|done].
  simpl in Hpar. apply patch_defaults_attrs in Hp as [_ Hord].
  rewrite Hpar. intros Hrun. rewrite <- Hord.
  destruct (plotconfig (params st)) as [rules|] eqn:Hcfg.
  - pose proof (keeps_attr_configure_rules "plotorder" o i rules) as Hk.
    specialize (Hk (λ key cfg Hin, Hno rules key cfg eq_refl Hin) st1 o).
    by rewrite Hrun in Hk.
  - by injection Hrun as <-.
Qed.

Lemma configure_from_plotorder l i st st' :
  no_override "plotorder" (plotconfig (params st)) →
  configure_from i l st = (Ok tt, st') →
  ∀ o, o ∈ l →
    plotinfo (plotinfos st') o !! "plotorder"
    = Some (default (VInt 0) (plotinfo (plotinfos st) o !! "plotorder")).
Proof.
  revert i st. induction l as [|x l IH]; intros i st Hno Hrun o Ho.
  { by apply elem_of_nil in Ho. }
  simpl in Hrun.
  destruct (_configure_plotobject x i st) as [[[]|e] st1] eqn:Hx; [|done].
  pose proof (touches_only_configure_plotobject x i st) as (Hfr1 & Hpar & _).
  rewrite Hx in Hfr1, Hpar. simpl in Hfr1, Hpar.
  destruct (decide (o ∈ l)) as [Hin|Hnin].
  - rewrite (IH (S i) st1) by (by rewrite ?Hpar). f_equal.
    destruct (decide (o = x)) as [->|Hne].
    + by rewrite (configure_plotobject_plotorder x i st st1 Hno Hx).
    + unfold plotinfo. by rewrite (Hfr1 o Hne).
  - apply elem_of_cons in Ho as [->|?]; [|done].
    pose proof (configure_from_frame l (S i) st1) as (Hfr & _ & _).
    rewrite Hrun in Hfr. simpl in Hfr. unfold plotinfo at 1.
    rewrite (Hfr x Hnin).
    apply (configure_plotobject_plotorder x i st st1 Hno Hx).
Qed.

(** X6: when no rule overrides [plotorder] and the pass returns, every
    object it has visited keeps the [plotorder] it had and has the order
    0 if it had none. *)
Theorem _configure_plotting_default_plotorder figid fp st st' :
  _figurepages st !! figid = Some fp →
  no_override "plotorder" (plotconfig (params st)) →
  _configure_plotting figid st = (Ok tt, st') →
  ∀ o, o ∈ traversal (get_plotobjs (plotinfos st) (strategy fp) true false) →
    plotinfo (plotinfos st') o !! "plotorder"
    = Some (default (VInt 0) (plotinfo (plotinfos st) o !! "plotorder")).
Proof.
  intros Hfp Hno Hrun.
  rewrite (_configure_plotting_run figid fp st Hfp) in Hrun.
  by eapply configure_from_plotorder.
Qed.

End more_identity.

(** ** The rule of kind [id] *)

Section identity_rule.
Context `{!Externals}.






End identity_rule.

(** ** The pages of a session *)

Section preserving.
Context (R : App → App → Prop) `{!Reflexive R, !Transitive R}.

Lemma preserves_ret {A} (a : A) : preserves R (ret a).
Proof. intros st. simpl. reflexivity. Qed.

Lemma preserves_raise {A} e : preserves R (@raise A e).
Proof. intros st. simpl. reflexivity. Qed.

Lemma preserves_gets {A} (f : App → A) : preserves R (gets f).
Proof. intros st. simpl. reflexivity. Qed.

Lemma preserves_lift {A} e (x : option A) : preserves R (lift e x).
Proof. destruct x; intros st; simpl; reflexivity. Qed.

Lemma preserves_modify f : (∀ st, R st (f st)) → preserves R (modify f).
Proof. intros Hf st. apply Hf. Qed.

Lemma preserves_bind {A B} (c : M A) (k : A → M B) :
  preserves R c → (∀ a, preserves R (k a)) → preserves R (bind c k).
Proof.
  intros Hc Hk st. specialize (Hc st). simpl.
  destruct (c st) as [[a|e] st1]; simpl in *; [|done].
  etrans; [exact Hc|apply Hk].
Qed.

Lemma preserves_for_each {A} (l : list A) body :
  (∀ x, preserves R (body x)) → preserves R (for_each l body).
Proof.
  intros Hb. induction l as [|x l IH]; simpl.
  - apply preserves_ret.
  - apply preserves_bind; [apply Hb|done].
Qed.

Lemma preserves_foldM {A B} (f : B → A → M B) b (l : list A) :
  (∀ b x, preserves R (f b x)) → preserves R (foldM f b l).
Proof.
  intros Hf. revert b. induction l as [|x l IH]; intros b; simpl.
  - apply preserves_ret.
  - apply preserves_bind; [apply Hf|intros b'; apply IH].
Qed.

End preserving.

Ltac preserving leaf :=
  repeat first
    [ apply preserves_ret; typeclasses eauto
    | apply preserves_raise; typeclasses eauto
    | apply preserves_gets; typeclasses eauto
    | apply preserves_lift; typeclasses eauto
    | match goal with
      | |- preserves _ (modify _) => apply preserves_modify; leaf
      end
    | apply preserves_bind; [typeclasses eauto..| |intros ?]
    | apply preserves_for_each; [typeclasses eauto..|intros ?]
    | apply preserves_foldM; [typeclasses eauto..|intros ? ?]
    | match goal with
      | |- preserves _ (if ?b then _ else _) => destruct b
      | |- preserves _ (let (_, _) := ?x in _) => destruct x
      | |- preserves _ (match ?x with _ => _ end) => destruct x
      end
    | progress cbv beta zeta ].

Ltac other_pages :=
  intros ? ? ?; simpl;
  rewrite ?lookup_alter_ne, ?lookup_insert_ne by congruence; reflexivity.

Section pages.
Context `{!Externals}.

Lemma foldM_app {A B} (f : B → A → M B) b (l1 l2 : list A) st :
  foldM f b (l1 ++ l2) st = (b' <- foldM f b l1 ;; foldM f b' l2) st.
Proof.
  revert b st. induction l1 as [|x l1 IH]; intros b st; simpl; [done|].
  destruct (f b x st) as [[b'|e] st1]; [apply IH|done].
Qed.

(** X7: every method that works on the page of a session id starts by
    looking the page up: with an id that is not bound it raises the
    missing-page error and leaves the state as it was. *)
Theorem figid_unbound figid flt start end_ back preserveidx fillgaps st :
  _figurepages st !! figid = None →
  get_figurepage figid st = (Raise (FigurePageMissing figid), st)
  ∧ _configure_plotting figid st = (Raise (FigurePageMissing figid), st)
  ∧ _get_plotobjects figid flt st = (Raise (FigurePageMissing figid), st)
  ∧ _blueprint_strategy figid flt st = (Raise (FigurePageMissing figid), st)
  ∧ update_figurepage figid flt st = (Raise (FigurePageMissing figid), st)
  ∧ _blueprint_optreturn figid st = (Raise (FigurePageMissing figid), st)
  ∧ _create_data_clock figid st = (Raise (FigurePageMissing figid), st)
  ∧ get_data figid start end_ back preserveidx fillgaps st
    = (Raise (FigurePageMissing figid), st)
  ∧ sorted_figs figid st = (Raise (FigurePageMissing figid), st).
Proof.
  intros Hfree.
  unfold update_figurepage, _configure_plotting, _get_plotobjects,
    _blueprint_strategy, _blueprint_optreturn, _create_data_clock, get_data,
    sorted_figs, get_figurepage.
  cbn [bind gets]. rewrite Hfree. split_and!; reflexivity.
Qed.

Lemma preserves_create_figurepage obj figid start end_ flt filldata :
  preserves (same_other_pages figid)
    (create_figurepage obj figid start end_ flt filldata).
Proof.
  unfold create_figurepage, _configure_plotting, _configure_plotobject,
    patch_defaults, configure_rules, configure_rule, apply_config, getattr,
    setattr, _blueprint_strategy, _get_plotobjects, call_filter_obj, log_call,
    Figure_new, Figure_get_type, analyzers_of, _create_data_clock, get_data,
    df_join, _blueprint_optreturn, get_figurepage, update_page.
  preserving other_pages.
Qed.

Lemma preserves_update_figurepage figid flt :
  preserves (same_other_pages figid) (update_figurepage figid flt).
Proof.
  unfold update_figurepage, _blueprint_strategy, _get_plotobjects,
    call_filter_obj, log_call, Figure_new, Figure_get_type, analyzers_of,
    get_figurepage, update_page.
  preserving other_pages.
Qed.

(** X8: creating or updating the page of one session id never changes
    the page bound to another id, whether the call returns or raises. *)
Theorem other_pages_untouched obj figid start end_ flt filldata st j :
  j ≠ figid →
  _figurepages (create_figurepage obj figid start end_ flt filldata st).2 !! j
  = _figurepages st !! j
  ∧ _figurepages (update_figurepage figid flt st).2 !! j
    = _figurepages st !! j.
Proof.
  intros Hj. split.
  - by apply preserves_create_figurepage.
  - by apply preserves_update_figurepage.
Qed.

(** X9: a page for an optimization result is created without a pass over
    any object and without a call to the renderer: the page holds the
    analyzers of the result, no figure and no clock, it is what
    [create_figurepage] returns with its id, and it is the page
    [get_figurepage] finds under that id afterwards. *)
Theorem create_figurepage_optreturn obj figid start end_ flt filldata st :
  _figurepages st !! figid = None →
  ocls obj = OptReturn →
  let fp := mkFigurePage None (Some obj) [] (getitems obj) None [] None in
  let st' := set_figurepages (λ m, <[figid := fp]> m) st in
  create_figurepage obj figid start end_ flt filldata st = (Ok (figid, fp), st')
  ∧ get_figurepage figid st' = (Ok fp, st').
Proof.
  intros Hfree Hcls fp st'.
  assert (Hget : get_figurepage figid st' = (Ok fp, st')).
  { unfold get_figurepage. simpl. by rewrite lookup_insert_eq. }
  split; [|done].
  unfold create_figurepage, _blueprint_optreturn, analyzers_of, update_page,
    FigurePage_new.
  cbn [bind gets modify].
  rewrite bool_decide_false by (rewrite Hfree; by intros [? ?]).
  rewrite Hcls. simpl.
  unfold get_figurepage. simpl. rewrite !lookup_insert_eq. simpl.
  rewrite !lookup_alter_eq, !lookup_insert_eq. simpl.
  unfold st', set_figurepages. simpl. rewrite !alter_insert_eq. done.
Qed.

End pages.

(** ** The clock's objects *)

Section clock.
Context `{!Externals}.

Lemma dict_set_keys {K V} `{EqDecision K} (k : K) (v : V) d :
  (dict_set k v d).*1 = if decide (k ∈ d.*1) then d.*1 else d.*1 ++ [k].
Proof.
  induction d as [|[k' v'] d IH]; [done|].
  cbn [dict_set]. rewrite (fmap_cons fst (k', v') d). cbn [fst].
  destruct (decide (k' = k)) as [->|Hne].
  - rewrite decide_True by left. done.
  - rewrite fmap_cons, IH. cbn [fst].
    destruct (decide (k ∈ d.*1)) as [Hin|Hnin].
    + rewrite decide_True by (by right). done.
    + rewrite decide_False; [done|].
      rewrite not_elem_of_cons. split; [congruence|done].
Qed.

Lemma dict_set_NoDup {K V} `{EqDecision K} (k : K) (v : V) d :
  NoDup d.*1 → NoDup (dict_set k v d).*1.
Proof.
  intros Hnd. rewrite dict_set_keys. case_decide; [done|].
  apply NoDup_app. split_and!; [done| |apply NoDup_singleton].
  intros x Hx Hx'. apply list_elem_of_singleton in Hx' as ->. done.
Qed.

(** Filing objects under their keys, one after the other: under a key are
    the objects that were there, then those of the list with that key, in
    the order of the list. *)
Lemma collect_get {K A} `{EqDecision K} (key : A → K) (l : list A)
    (d : list (K * list A)) k :
  dict_get k (foldl (λ d o, dict_append (key o) o d) d l)
  = match dict_get k d, filter (λ o, key o = k) l with
    | Some old, new => Some (old ++ new)
    | None, [] => None
    | None, new => Some new
    end.
Proof.
  revert d. induction l as [|o l IH]; intros d.
  - simpl. destruct (dict_get k d); [by rewrite app_nil_r|done].
  - cbn [foldl]. rewrite IH. unfold dict_append.
    rewrite dict_get_set, filter_cons.
    destruct (decide (key o = k)) as [Hk|Hk]; [|done].
    rewrite Hk. destruct (dict_get k d) as [old|]; simpl; [|done].
    by rewrite <- app_assoc.
Qed.

Lemma collect_NoDup {K A} `{EqDecision K} (key : A → K) (l : list A)
    (d : list (K * list A)) :
  NoDup d.*1 → NoDup (foldl (λ d o, dict_append (key o) o d) d l).*1.
Proof.
  revert d. induction l as [|o l IH]; intros d Hnd; [done|].
  cbn [foldl]. apply IH. by apply dict_set_NoDup.
Qed.

Lemma filter_ext_elem {A} (P Q : A → Prop) `{!∀ x, Decision (P x)}
    `{!∀ x, Decision (Q x)} (l : list A) :
  (∀ x, x ∈ l → P x ↔ Q x) → filter P l = filter Q l.
Proof.
  induction l as [|x l IH]; intros Hext; [done|].
  rewrite !filter_cons, IH by (intros y Hy; apply Hext; by right).
  destruct (decide (P x)) as [HP|HP].
  - rewrite decide_True; [done|]. apply Hext; [by left|done].
  - rewrite decide_False; [done|]. intros HQ. apply HP, Hext; [by left|done].
Qed.

Lemma clock_childs cs objs st :
  (∀ c, c ∈ cs → is_Some (get_dataname c)) →
  foldM (λ objs c,
      dataname <- lift External (get_dataname c) ;;
      ret (dict_append dataname c objs))
    objs cs st
  = (Ok (foldl (λ d o, dict_append (default None (get_dataname o)) o d)
           objs cs), st).
Proof.
  revert objs. induction cs as [|c cs IH]; intros objs Hdef; simpl; [done|].
  destruct (Hdef c) as [dn Hdn]; [by left|]. rewrite Hdn. simpl.
  rewrite IH by (intros y Hy; apply Hdef; by right). done.
Qed.

Lemma clock_figures figs objs st :
  (∀ o, o ∈ figs ≫= (λ f, master f :: childs f) → is_Some (get_dataname o)) →
  foldM (λ objs f,
      dataname <- lift External (get_dataname (master f)) ;;
      foldM (λ objs c,
          dataname <- lift External (get_dataname c) ;;
          ret (dict_append dataname c objs))
        (dict_append dataname (master f) objs) (childs f))
    objs figs st
  = (Ok (foldl (λ d o, dict_append (default None (get_dataname o)) o d)
           objs (figs ≫= (λ f, master f :: childs f))), st).
Proof.
  revert objs. induction figs as [|f figs IH]; intros objs Hdef; [done|].
  cbn [mbind list_bind] in Hdef.
  assert (Hm : is_Some (get_dataname (master f))).
  { apply Hdef. by left. }
  assert (Hcs : ∀ c, c ∈ childs f → is_Some (get_dataname c)).
  { intros c Hc. apply Hdef. right. apply elem_of_app. by left. }
  assert (Hrest : ∀ o, o ∈ figs ≫= (λ f, master f :: childs f) →
                    is_Some (get_dataname o)).
  { intros o Ho. apply Hdef. right. apply elem_of_app. by right. }
  destruct Hm as [dn Hdn].
  cbn [foldM bind]. rewrite Hdn. cbn [lift ret].
  rewrite (clock_childs (childs f) _ st Hcs).
  rewrite (IH _ Hrest). cbn [mbind list_bind]. cbn [app foldl].
  rewrite foldl_app. by rewrite Hdn.
Qed.

(** X10: when the data name of every object on the page is known, the
    clock is set up and the objects are filed by data name: under each
    name are the objects of that name, masters and children alike, in the
    order of the page, a name without objects has no entry, and no name
    has two. *)
Theorem _create_data_clock_groups figid fp st :
  _figurepages st !! figid = Some fp →
  (∀ o, o ∈ page_objs fp → is_Some (get_dataname o)) →
  ∃ objs st',
    _create_data_clock figid st = (Ok tt, st')
    ∧ _figurepages st' !! figid
      = Some (set_data_clock
                (strategy fp,
                 get_smallest_dataname (strategy fp) (dict_keys objs))
                objs fp)
    ∧ NoDup (dict_keys objs)
    ∧ (∀ dn, dict_get dn objs
         = match filter (λ o, get_dataname o = Some dn) (page_objs fp) with
           | [] => None
           | l => Some l
           end).
Proof.
  intros Hfp Hdef.
  set (objs := foldl (λ d o, dict_append (default None (get_dataname o)) o d)
                 [] (page_objs fp)).
  exists objs. eexists. split_and!.
  - unfold _create_data_clock, get_figurepage, update_page.
    cbn [bind gets]. rewrite Hfp. cbn [ret].
    rewrite (clock_figures (figures fp) [] st Hdef). cbn [modify].
    reflexivity.
  - simpl. by rewrite lookup_alter_eq, Hfp.
  - apply collect_NoDup. constructor.
  - intros dn. unfold objs. rewrite collect_get. simpl.
    rewrite (filter_ext_elem _ (λ o, get_dataname o = Some dn)); [done|].
    intros o Ho. destruct (Hdef o Ho) as [d ->]. simpl.
    split; [by intros ->|by intros [= ->]].
Qed.

End clock.

(** ** The layout sort, when a data name is not declared *)

Section more_layout.
Context `{!Externals}.

(** X11: the layout sort looks the data name of every master up in the
    table of the declared names: at the first figure whose master has a
    name that is not declared it fails with a key error, the state as it
    was. *)
Theorem sorted_figs_undeclared figid fp st pre x post n :
  _figurepages st !! figid = Some fp →
  figures fp = pre ++ x :: post →
  let names := get_datanames (strategy fp) in
  (∀ y, y ∈ pre → is_Some (figure_key (plotinfos st) names y)) →
  is_Some (get_plotorder (plotinfos st) x) →
  get_dataname (master x) = Some (Some n) →
  n ∉ names →
  sorted_figs figid st = (Raise KeyError, st).
Proof.
  intros Hfp Hfigs names Hpre [po Hpo] Hdn Hn.
  assert (Hkey : dict_get (Some n) (data_sort names) = None).
  { unfold data_sort. rewrite data_sort_other; [done|].
    rewrite snd_zip by (by rewrite length_seq).
    intros (n' & [= <-] & Hn')%list_elem_of_fmap. done. }
  unfold sorted_figs, get_figurepage. cbn [bind gets]. rewrite Hfp. cbn [ret].
  fold names. rewrite Hfigs, foldM_app. cbn [bind].
  rewrite (sort_keys_run names pre [] st Hpre).
  cbn [foldM bind]. unfold sort_key. cbn [bind gets].
  rewrite Hpo. cbn [lift ret]. rewrite Hdn. cbn [lift ret].
  rewrite Hkey. done.
Qed.

End more_layout.

(** ** More on figure composition *)

Section more_composition.
Context `{!Externals}.

Lemma calls_log cs st : calls (log_calls cs st) = calls st ++ cs.
Proof. done. Qed.

(** The loop that builds the primary figures, with the calls it makes: a
    figure per entry, with the entry's master and children. *)
Lemma build_figures_calls objects figures st :
  ∃ figs st',
    foldM (λ figures '(parent, childs),
        figure <- Figure_new parent childs None ;;
        log_call (CallPlot figure parent) ;;
        for_each childs (λ c, log_call (CallPlot figure c)) ;;
        log_call (CallFigureApply figure) ;;
        ret (figures ++ [figure]))
      figures objects st
    = (Ok (figures ++ figs), st')
    ∧ _figurepages st' = _figurepages st
    ∧ scheme st' = scheme st
    ∧ (λ f, (master f, childs f)) <$> figs = objects
    ∧ Forall (λ f, ftype f = None) figs
    ∧ calls st' = calls st ++ (figs ≫= figure_calls).
Proof.
  revert figures st.
  induction objects as [|[parent childs] objects IH]; intros figures st.
  { exists [], st. simpl. by rewrite !app_nil_r. }
  simpl. rewrite for_each_log. simpl.
  match goal with
  | |- context [foldM _ (figures ++ [?f]) objects ?st1] =>
      destruct (IH (figures ++ [f]) st1)
        as (figs & st' & -> & Hp & Hs & Hm & Ht & Hc);
      exists (f :: figs), st'
  end.
  rewrite <- app_assoc. simpl in *. split_and!; [done|done|done| | |].
  - f_equal. exact Hm.
  - by constructor.
  - rewrite Hc. unfold figure_calls. simpl.
    rewrite <- !app_assoc. done.
Qed.

(** The loop that derives the volume figures, with the calls it makes: a
    figure of kind [VOL] without children for each figure whose master is
    of kind [DATA]. *)
Lemma volume_figures_calls figid (l : list Figure) pg st :
  _figurepages st !! figid = Some pg →
  Forall (λ f, ftype f = None) l →
  (∀ f, f ∈ l → is_Some (FigureType_get_type (master f))) →
  ∃ vols st',
    for_each l (λ f,
        t <- Figure_get_type f ;;
        if negb (bool_decide (t = DATA)) then ret tt
        else
          figure <- Figure_new (master f) [] (Some VOL) ;;
          log_call (CallPlotVolume figure (master f)) ;;
          log_call (CallFigureApply figure) ;;
          update_page figid (set_figures (λ l, l ++ [figure])))
      st
    = (Ok tt, st')
    ∧ _figurepages st' !! figid = Some (set_figures (λ l, l ++ vols) pg)
    ∧ Forall (λ f, ftype f = Some VOL ∧ childs f = []) vols
    ∧ master <$> vols
      = filter (λ m, FigureType_get_type m = Some DATA) (master <$> l)
    ∧ calls st' = calls st ++ (vols ≫= volume_calls).
Proof.
  revert pg st. induction l as [|f l IH]; intros pg st Hpg Hnone Hkind.
  { exists [], st. split_and!; [done| |done|done|by rewrite app_nil_r].
    rewrite Hpg. destruct pg. unfold set_figures. simpl. by rewrite app_nil_r. }
  apply Forall_cons in Hnone as [Hf Hnone].
  assert (Hl : ∀ g, g ∈ l → is_Some (FigureType_get_type (master g))).
  { intros g Hg. apply Hkind. by right. }
  destruct (Hkind f) as [t Ht]; [by left|].
  assert (Hty : Figure_get_type f st = (Ok t, st)).
  { unfold Figure_get_type. rewrite Hf, Ht. done. }
  rewrite fmap_cons, filter_cons, Ht.
  cbn [for_each bind]. rewrite Hty.
  destruct (decide (t = DATA)) as [->|Hne].
  - rewrite bool_decide_true by done. rewrite decide_True by done.
    set (v := mkFigure (master f) [] (Some VOL) (next_range st)).
    simpl.
    match goal with
    | |- context [for_each l _ ?st1] =>
        destruct (IH (set_figures (λ l0, l0 ++ [v]) pg) st1)
          as (vols & st' & -> & Hp & Hv & Hm & Hc);
          [simpl; by rewrite lookup_alter_eq, Hpg|done|done|]
    end.
    exists (v :: vols), st'. split_and!; [done| | | |].
    + rewrite Hp. unfold set_figures. simpl. by rewrite <- app_assoc.
    + by constructor.
    + by rewrite fmap_cons, Hm.
    + rewrite Hc. simpl. by rewrite <- !app_assoc.
  - rewrite bool_decide_false by done.
    rewrite decide_False by congruence. simpl.
    destruct (IH pg st Hpg Hnone Hl) as (vols & st' & -> & Hp & Hv & Hm & Hc).
    by exists vols, st'.
Qed.

(** What composition does to a strategy's page, step by step. *)
Lemma _blueprint_strategy_run figid flt fp s st :
  _figurepages st !! figid = Some fp →
  strategy fp = Some s →
  let objs := get_plotobjs (plotinfos st) (Some s) false true in
  let predicate := λ o, filter_obj (plotinfos st) o flt in
  NoDup objs.*1 →
  (∀ m, m ∈ objs.*1 → is_Some (FigureType_get_type m)) →
  ∃ st' built vols,
    _blueprint_strategy figid flt st = (Ok tt, st')
    ∧ _figurepages st' !! figid
      = Some (set_figures (λ _, link_axis built ++ vols)
                (set_analyzers (λ l, l ++ getitems s) fp))
    ∧ (λ f, (master f, childs f)) <$> built = filterObjects predicate objs
    ∧ Forall (λ f, ftype f = Some VOL ∧ childs f = []) vols
    ∧ master <$> vols
      = (if volume (scheme st) && negb (voloverlay (scheme st))
         then filter (λ m, FigureType_get_type m = Some DATA)
                (master <$> built)
         else [])
    ∧ calls st'
      = calls st ++ (CallFilterObj <$> tested predicate objs)
          ++ (built ≫= figure_calls) ++ (vols ≫= volume_calls)
          ++ [CallPageApply figid].
Proof.
  intros Hfp Hs objs predicate Hnd Hkind.
  destruct fp as [fs fo ffigs fans fdc fdco fcds]. simpl in Hs. subst fs.
  set (fp2 := mkFigurePage (Some s) fo [] (fans ++ getitems s) fdc fdco fcds).
  set (st2 := set_figurepages
                (alter (set_analyzers (λ l, l ++ getitems s)) figid)
                (set_figurepages (alter FigurePage_reset figid) st)).
  assert (Hfp2 : _figurepages st2 !! figid = Some fp2).
  { simpl. by rewrite !lookup_alter_eq, Hfp. }
  pose proof (_get_plotobjects_run figid flt fp2 st2 Hfp2 Hnd) as Hget.
  change (_get_plotobjects figid flt st2
          = (Ok (filterObjects predicate objs),
             log_calls (CallFilterObj <$> tested predicate objs) st2)) in Hget.
  destruct (build_figures_calls (filterObjects predicate objs) []
              (log_calls (CallFilterObj <$> tested predicate objs) st2))
    as (figs & st4 & Hbuild & Hpages & Hscheme & Hobjs & Htype & Hcalls).
  simpl in Hbuild. rewrite figurepages_log in Hpages.
  rewrite calls_log in Hcalls.
  change (calls st2) with (calls st) in Hcalls.
  set (pg5 := set_figures (λ l, l ++ link_axis figs) fp2).
  set (st5 := set_figurepages
                (alter (set_figures (λ l, l ++ link_axis figs)) figid) st4).
  assert (Hpg5 : _figurepages st5 !! figid = Some pg5).
  { unfold st5. by rewrite figurepages_set, lookup_alter_eq, Hpages, Hfp2. }
  assert (Hmaster : master <$> figs = (filterObjects predicate objs).*1).
  { rewrite <- Hobjs, <- list_fmap_compose. done. }
  assert (Hrun : ∀ r6 st6,
    (if volume (scheme st) && negb (voloverlay (scheme st))
     then for_each (link_axis figs) (λ f,
            t <- Figure_get_type f ;;
            if negb (bool_decide (t = DATA)) then ret tt
            else
              figure <- Figure_new (master f) [] (Some VOL) ;;
              log_call (CallPlotVolume figure (master f)) ;;
              log_call (CallFigureApply figure) ;;
              update_page figid (set_figures (λ l, l ++ [figure])))
     else ret tt) st5 = (r6, st6) →
    _blueprint_strategy figid flt st
    = match r6 with
      | Ok _ => log_call (CallPageApply figid) st6
      | Raise e => (Raise e, st6)
      end).
  { intros r6 st6 Hvol. unfold _blueprint_strategy.
    rewrite (bind_ok _ _ st _ st)
      by (unfold get_figurepage; simpl; by rewrite Hfp).
    simpl. fold st2. rewrite Hget, Hbuild. simpl. fold st5. by rewrite Hvol. }
  destruct (volume (scheme st) && negb (voloverlay (scheme st))).
  - destruct (volume_figures_calls figid (link_axis figs) pg5 st5 Hpg5)
      as (vols & st6 & Hvol & Hpg6 & Hvols & Hvm & Hvc).
    { by apply link_axis_ftype. }
    { intros f Hf. apply Hkind.
      assert (Hm : master f ∈ master <$> link_axis figs)
        by (by apply list_elem_of_fmap_2).
      rewrite link_axis_master, Hmaster, filterObjects_keys in Hm.
      by apply list_elem_of_filter in Hm as [_ Hm]. }
    exists (log_calls [CallPageApply figid] st6), figs, vols.
    split_and!; [by rewrite (Hrun _ _ Hvol)| |done|done| |].
    + by rewrite figurepages_log, Hpg6.
    + by rewrite Hvm, link_axis_master.
    + rewrite calls_log, Hvc. unfold st5.
      change (calls (set_figurepages _ st4)) with (calls st4).
      rewrite Hcalls. by rewrite <- !app_assoc.
  - exists (log_calls [CallPageApply figid] st5), figs, [].
    split_and!; [by rewrite (Hrun (Ok tt) st5)| |done|done|done|].
    + rewrite figurepages_log, Hpg5. unfold pg5, fp2, set_figures. simpl.
      by rewrite app_nil_r.
    + rewrite calls_log. unfold st5.
      change (calls (set_figurepages _ st4)) with (calls st4).
      rewrite Hcalls. simpl. by rewrite <- !app_assoc.
Qed.

(** X12: with volume figures enabled and not overlaid, composition puts
    on the page, after the primary figures, one volume figure for each
    primary figure whose master is of kind [DATA], in the order of these
    figures and each without children; with volume figures disabled or
    overlaid it adds none. *)
Theorem _blueprint_strategy_volume figid flt fp s st :
  _figurepages st !! figid = Some fp →
  strategy fp = Some s →
  let objs := get_plotobjs (plotinfos st) (Some s) false true in
  NoDup objs.*1 →
  (∀ m, m ∈ objs.*1 → is_Some (FigureType_get_type m)) →
  ∃ st' primary vols,
    _blueprint_strategy figid flt st = (Ok tt, st')
    ∧ figures <$> _figurepages st' !! figid = Some (primary ++ vols)
    ∧ master <$> primary
      = (filterObjects (λ o, filter_obj (plotinfos st) o flt) objs).*1
    ∧ Forall (λ f, ftype f = Some VOL ∧ childs f = []) vols
    ∧ master <$> vols
      = (if volume (scheme st) && negb (voloverlay (scheme st))
         then filter (λ m, FigureType_get_type m = Some DATA)
                (master <$> primary)
         else []).
Proof.
  intros Hfp Hs objs Hnd Hkind.
  destruct (_blueprint_strategy_run figid flt fp s st Hfp Hs Hnd Hkind)
    as (st' & built & vols & Hrun & Hfigs & Hobjs & Hvols & Hvm & _).
  exists st', (link_axis built), vols.
  split_and!; [done|by rewrite Hfigs| |done|].
  - rewrite link_axis_master.
    transitivity (((λ f, (master f, childs f)) <$> built).*1);
      [by rewrite <- list_fmap_compose|by rewrite Hobjs].
  - by rewrite link_axis_master.
Qed.

(** X13: the calls composition makes, in order: the filter is asked about
    every master and about the children of the masters that are kept; then
    each primary figure is built, its master plotted first, its children
    next in order, and the figure applied; then each volume figure is
    plotted and applied; the page is applied last, once. *)
Theorem _blueprint_strategy_calls figid flt fp s st :
  _figurepages st !! figid = Some fp →
  strategy fp = Some s →
  let objs := get_plotobjs (plotinfos st) (Some s) false true in
  let predicate := λ o, filter_obj (plotinfos st) o flt in
  NoDup objs.*1 →
  (∀ m, m ∈ objs.*1 → is_Some (FigureType_get_type m)) →
  ∃ st' built vols,
    _blueprint_strategy figid flt st = (Ok tt, st')
    ∧ figures <$> _figurepages st' !! figid = Some (link_axis built ++ vols)
    ∧ (λ f, (master f, childs f)) <$> built = filterObjects predicate objs
    ∧ Forall (λ f, ftype f = Some VOL ∧ childs f = []) vols
    ∧ calls st'
      = calls st ++ (CallFilterObj <$> tested predicate objs)
          ++ (built ≫= figure_calls) ++ (vols ≫= volume_calls)
          ++ [CallPageApply figid].
Proof.
  intros Hfp Hs objs predicate Hnd Hkind.
  destruct (_blueprint_strategy_run figid flt fp s st Hfp Hs Hnd Hkind)
    as (st' & built & vols & Hrun & Hfigs & Hobjs & Hvols & _ & Hcalls).
  exists st', built, vols. split_and!; [done|by rewrite Hfigs|done..].
Qed.

End more_composition.

(** ** The panels of a page *)

Section panels.
Context `{!Externals} `{!Settings}.
Local Open Scope app_scope.

Lemma lfoldM_app {A B} (f : B → A → L B) b (l1 l2 : list A) st :
  lfoldM f b (l1 ++ l2) st = lbind (lfoldM f b l1) (λ b', lfoldM f b' l2) st.
Proof.
  revert b st. induction l1 as [|x l1 IH]; intros b st; simpl; [done|].
  destruct (f b x st) as [[b'|e] st1]; [apply IH|done].
Qed.

Lemma Figure_get_type_run f t st :
  figure_kind f = Some t → Figure_get_type f st = (Ok t, st).
Proof.
  unfold figure_kind, Figure_get_type. destruct (ftype f); [by intros [= ->]|].
  by intros ->.
Qed.

(** The loop that fills the tabs files every figure under its tab. *)
Lemma fill_tabs_loop figs tabs st :
  (∀ f, f ∈ figs → is_Some (tab_of (plotinfos st) f)) →
  lfoldM (λ tabs f,
      tab <- of_M (gets (λ st, get_plottab (plotinfos st) f)) ;;
      match tab with
      | Some tab => lret (dict_append tab f tabs)
      | None =>
          if negb multiple_tabs then lret (dict_append "Plots" f tabs)
          else
            figtype <- of_M (Figure_get_type f) ;;
            if bool_decide (figtype = DATA)
            then lret (dict_append "Datas" f tabs)
            else if bool_decide (figtype = OBS)
            then lret (dict_append "Observers" f tabs)
            else if bool_decide (figtype = IND)
            then lret (dict_append "Indicators" f tabs)
            else lraise (UnknownFigureType figtype)
      end)
    tabs figs st
  = (Done (foldl (λ d f,
             dict_append (default EmptyString (tab_of (plotinfos st) f)) f d)
           tabs figs), st).
Proof.
  revert tabs. induction figs as [|f figs IH]; intros tabs Hdef; [done|].
  destruct (Hdef f) as [k Hk]; [by left|].
  cbn [lfoldM foldl]. rewrite Hk. cbn [default].
  rewrite <- (IH (dict_append k f tabs)) by (intros g Hg; apply Hdef; by right).
  unfold tab_of in Hk. cbn [lbind of_M gets].
  destruct (get_plottab (plotinfos st) f) as [tab|].
  - by injection Hk as ->.
  - destruct multiple_tabs; cbn [negb] in *.
    + destruct (figure_kind f) as [t|] eqn:Hkind; [|done].
      cbn [lbind of_M]. rewrite (Figure_get_type_run f t st Hkind).
      destruct t; simplify_eq; done.
    + by injection Hk as <-.
Qed.

Lemma dict_get_elem {K V} `{EqDecision K} (d : list (K * V)) k v :
  NoDup d.*1 → (k, v) ∈ d → dict_get k d = Some v.
Proof.
  induction d as [|[k' v'] d IH]; intros Hnd Hin.
  { by apply elem_of_nil in Hin. }
  rewrite fmap_cons in Hnd. apply NoDup_cons in Hnd as [Hfresh Hnd].
  cbn [dict_get]. apply elem_of_cons in Hin as [[= -> ->]|Hin].
  - by rewrite decide_True.
  - rewrite decide_False; [by apply IH|].
    intros ->. apply Hfresh. by apply (list_elem_of_fmap_2 fst) in Hin.
Qed.

Lemma dict_get_Some_elem {K V} `{EqDecision K} (d : list (K * V)) k v :
  dict_get k d = Some v → (k, v) ∈ d.
Proof.
  induction d as [|[k' v'] d IH]; [done|]. cbn [dict_get].
  destruct (decide (k' = k)) as [->|Hne].
  - intros [= ->]. by left.
  - intros Hget. right. by apply IH.
Qed.

(** The tabs after the loop: no tab twice, and under a tab the figures
    that go to it, in order; a tab is there when it has a figure. *)
Lemma tabs_spec (key : Figure → string) (l : list Figure) k figs :
  let tabs := foldl (λ d f, dict_append (key f) f d) [] l in
  NoDup tabs.*1
  ∧ ((k, figs) ∈ tabs ↔ figs = filter (λ f, key f = k) l ∧ figs ≠ []).
Proof.
  intros tabs.
  assert (Hnd : NoDup tabs.*1) by (apply collect_NoDup; constructor).
  pose proof (collect_get key l [] k) as Hget. fold tabs in Hget.
  cbn [dict_get] in Hget.
  split; [done|]. split.
  - intros Hin. rewrite (dict_get_elem tabs k figs Hnd Hin) in Hget.
    destruct (filter (λ f, key f = k) l); [done|].
    by injection Hget as ->.
  - intros [-> Hne]. apply dict_get_Some_elem. rewrite Hget.
    by destruct (filter (λ f, key f = k) l).
Qed.

Lemma xaxis_visible_figs figs : (xaxis_visible figs).*1 = figs.
Proof.
  unfold xaxis_visible. case_decide.
  - rewrite fmap_imap. rewrite (imap_ext _ (const id)) by done.
    rewrite imap_const. apply list_fmap_id.
  - rewrite <- list_fmap_compose. apply list_fmap_id.
Qed.

Lemma xaxis_flags (l : list Figure) m :
  length l = S m →
  (imap (λ i x, (x, Some (negb (i <? m)%nat))) l).*2
  = replicate m (Some false) ++ [Some true].
Proof.
  revert m. induction l as [|x l IH]; intros m Hlen; [done|].
  rewrite imap_cons, fmap_cons. cbn [snd]. destruct m as [|m].
  - destruct l; [done|discriminate].
  - cbn [replicate app]. f_equal. apply IH. by injection Hlen.
Qed.

Lemma xaxis_visible_flags figs :
  figs ≠ [] →
  (xaxis_visible figs).*2
  = if decide (xaxis_pos = "bottom")
    then replicate (length figs - 1) (Some false) ++ [Some true]
    else replicate (length figs) None.
Proof.
  intros Hne. unfold xaxis_visible. case_decide.
  - apply xaxis_flags. destruct figs; [done|]. simpl. lia.
  - rewrite <- list_fmap_compose. by apply const_fmap.
Qed.

Lemma panels_of_tabs (tabs : list (string * list Figure)) :
  Forall (λ e, e.2 ≠ []) tabs →
  omap (λ '(tab, figs),
      if decide (length figs = 0) then None
      else Some (mkPanel tab (xaxis_visible figs)))
    tabs
  = (λ e, mkPanel e.1 (xaxis_visible e.2)) <$> tabs.
Proof.
  induction 1 as [|[tab figs] tabs Hne _ IH]; [done|].
  simpl in Hne. rewrite fmap_cons, <- IH. cbn [omap list_omap].
  rewrite decide_False by (by destruct figs). done.
Qed.

(** X14: when every figure of the page has a tab, the panels are the
    tabs: no two panels have the same title, no panel is empty, the
    figures of a panel are the figures of the page that go to the tab of
    that title, in the order of the layout sort, and every figure is in
    the panel of its tab. *)
Theorem generate_model_panels_tabs figid st l st' :
  sorted_figs figid st = (Ok l, st') →
  (∀ f, f ∈ l → is_Some (tab_of (plotinfos st') f)) →
  ∃ panels,
    generate_model_panels figid st = (Done panels, st')
    ∧ NoDup (title <$> panels)
    ∧ (∀ p, p ∈ panels →
         rows p ≠ []
         ∧ (rows p).*1
           = filter (λ f, tab_of (plotinfos st') f = Some (title p)) l)
    ∧ (∀ f, f ∈ l →
         ∃ p, p ∈ panels ∧ tab_of (plotinfos st') f = Some (title p)).
Proof.
  intros Hsort Hdef.
  set (key := λ f, default EmptyString (tab_of (plotinfos st') f)).
  set (tabs := foldl (λ d f, dict_append (key f) f d) [] l).
  assert (Hkey : ∀ k, filter (λ f, key f = k) l
                      = filter (λ f, tab_of (plotinfos st') f = Some k) l).
  { intros k. apply filter_ext_elem. intros f Hf. unfold key.
    destruct (Hdef f Hf) as [t ->]. simpl.
    split; [by intros ->|by intros [= ->]]. }
  assert (Hfull : Forall (λ e, e.2 ≠ []) tabs).
  { apply Forall_forall. intros [k figs] Hin.
    by apply (tabs_spec key l k figs) in Hin as [_ Hne]. }
  exists ((λ e, mkPanel e.1 (xaxis_visible e.2)) <$> tabs). split_and!.
  - unfold generate_model_panels, fill_tabs. cbn [lbind of_M].
    rewrite Hsort. cbv zeta. rewrite (fill_tabs_loop l [] st' Hdef).
    cbn [lret]. change (foldl _ [] l) with tabs.
    by rewrite (panels_of_tabs tabs Hfull).
  - rewrite <- list_fmap_compose.
    apply (tabs_spec key l EmptyString []).
  - intros p ([k figs] & -> & Hin)%list_elem_of_fmap. cbn [title rows fst snd].
    apply (tabs_spec key l k figs) in Hin as [-> Hne]. split.
    + intros Hnil. apply Hne. rewrite <- (xaxis_visible_figs (filter _ l)).
      by rewrite Hnil.
    + by rewrite xaxis_visible_figs, Hkey.
  - intros f Hf. destruct (Hdef f Hf) as [k Hk].
    exists (mkPanel k (xaxis_visible (filter (λ g, key g = k) l))).
    split; [|done]. apply list_elem_of_fmap.
    exists (k, filter (λ g, key g = k) l). split; [done|].
    apply (tabs_spec key l k). split; [done|].
    intros Hnil. assert (Hin : f ∈ filter (λ g, key g = k) l).
    { apply list_elem_of_filter. split; [|done]. unfold key. by rewrite Hk. }
    rewrite Hnil in Hin. by apply elem_of_nil in Hin.
Qed.

(** X15: no panel is returned empty; with the time axis at the bottom
    only the last figure of a panel shows its time axis, and otherwise the
    visibility of the axes is not set. *)
Theorem generate_model_panels_xaxis figid st panels st' p :
  generate_model_panels figid st = (Done panels, st') →
  p ∈ panels →
  rows p ≠ []
  ∧ (rows p).*2
    = if decide (xaxis_pos = "bottom")
      then replicate (length (rows p) - 1) (Some false) ++ [Some true]
      else replicate (length (rows p)) None.
Proof.
  unfold generate_model_panels. cbn [lbind of_M].
  destruct (sorted_figs figid st) as [[l|e] st1]; [|done].
  destruct (fill_tabs l st1) as [[tabs|e] st2]; [|done].
  cbn [lret]. intros [= <- <-] ([tab figs] & Hin & Hp)%list_elem_of_omap.
  destruct (decide (length figs = 0)) as [|Hlen]; [done|].
  injection Hp as <-. cbn [rows].
  assert (Hne : figs ≠ []) by (by destruct figs).
  assert (Hl : length (xaxis_visible figs) = length figs).
  { by rewrite <- (xaxis_visible_figs figs) at 2; rewrite length_fmap. }
  split.
  - intros Hnil. rewrite Hnil in Hl. by destruct figs.
  - rewrite Hl. by apply xaxis_visible_flags.
Qed.

(** X16: with multiple tabs, a figure that names no tab goes to the tab
    of its kind, and there is none for the kind [VOL]: at the first such
    figure in sort order the method raises the unknown-kind error, the
    state as the sort left it. *)
Theorem generate_model_panels_unknown_kind figid st st' pre f post :
  sorted_figs figid st = (Ok (pre ++ f :: post), st') →
  multiple_tabs = true →
  (∀ g, g ∈ pre → is_Some (tab_of (plotinfos st') g)) →
  get_plottab (plotinfos st') f = None →
  figure_kind f = Some VOL →
  generate_model_panels figid st = (Fail (UnknownFigureType VOL), st').
Proof.
  intros Hsort Hm Hpre Htab Hkind.
  unfold generate_model_panels, fill_tabs. cbn [lbind of_M].
  rewrite Hsort. cbv zeta. rewrite lfoldM_app. cbn [lbind].
  rewrite (fill_tabs_loop pre [] st' Hpre).
  cbn [lfoldM lbind of_M gets]. rewrite Htab, Hm. cbn [negb].
  cbn [lbind of_M]. rewrite (Figure_get_type_run f VOL st' Hkind). done.
Qed.

End panels.

(** ** The entry point *)

Section entry_facts.
Context `{!Externals} `{!Settings}.

Lemma bind_ok_inv {A B} (c : M A) (k : A → M B) st b st' :
  bind c k st = (Ok b, st') →
  ∃ a st1, c st = (Ok a, st1) ∧ k a st1 = (Ok b, st').
Proof. unfold bind. destruct (c st) as [[a|e] st1]; [eauto|done]. Qed.

(** A page that has been created is bound to its id. *)
Lemma create_figurepage_ok obj figid start end_ flt filldata st r st' :
  create_figurepage obj figid start end_ flt filldata st = (Ok r, st') →
  _figurepages st !! figid = None
  ∧ ∃ fp, r = (figid, fp) ∧ _figurepages st' !! figid = Some fp.
Proof.
  unfold create_figurepage. cbv zeta. intros Hrun.
  apply bind_ok_inv in Hrun as (pages & st0 & Hg & Hrun).
  injection Hg as <- <-.
  destruct (_figurepages st !! figid) as [fp0|] eqn:Hfree.
  { rewrite bool_decide_true in Hrun by eauto. done. }
  rewrite bool_decide_false in Hrun by (by intros [? ?]).
  apply bind_ok_inv in Hrun as ([] & st1 & _ & Hrun).
  apply bind_ok_inv in Hrun as ([] & st2 & _ & Hrun).
  apply bind_ok_inv in Hrun as (fp & st3 & Hget & Hrun).
  injection Hrun as <- <-. unfold get_figurepage in Hget.
  cbn [bind gets] in Hget.
  destruct (_figurepages st2 !! figid) as [fp2|] eqn:Hfp; [|done].
  injection Hget as <- <-. eauto.
Qed.

(** When [plot] returns: the guards were passed, and the map returned is
    the map of the pages then, with the id bound and the other ids as they
    were. *)
Lemma plot_done obj figid numfigs use start end_ flt st pages st' :
  plot obj figid numfigs use start end_ flt st = (Done pages, st') →
  (1 <? numfigs)%Z = false
  ∧ use = None
  ∧ pages = _figurepages st'
  ∧ _figurepages st !! figid = None
  ∧ is_Some (pages !! figid)
  ∧ (∀ j, j ≠ figid → pages !! j = _figurepages st !! j).
Proof.
  unfold plot. destruct (1 <? numfigs)%Z; [done|].
  destruct use as [u|]; [by rewrite bool_decide_true by eauto|].
  rewrite bool_decide_false by (by intros [? ?]). cbv zeta.
  cbn [lbind of_M gets].
  set (flt0 := if falsy flt then p_filter else flt).
  pose proof (preserves_create_figurepage obj figid start end_ flt0 true st)
    as Hother.
  destruct (create_figurepage obj figid start end_ flt0 true st)
    as [[r|e] st1] eqn:Hrun; [|done].
  intros [= <- <-].
  apply create_figurepage_ok in Hrun as (Hfree & fp & -> & Hfp).
  split_and!; [done|done|done|done|by rewrite Hfp|exact Hother].
Qed.

(** X17: when [plot] returns, it returns the map of all pages as it is
    then: the id was free and is now bound, the pages of the other ids
    are as before, and every further [plot] for the same id, whatever its
    other arguments, fails and changes nothing: with the error of the
    guard on [numfigs] or on [use] when that guard fails, and otherwise
    with the already-exists error. *)
Theorem plot_returns_pages obj figid numfigs use start end_ flt st pages st' :
  plot obj figid numfigs use start end_ flt st = (Done pages, st') →
  pages = _figurepages st'
  ∧ _figurepages st !! figid = None
  ∧ is_Some (pages !! figid)
  ∧ (∀ j, j ≠ figid → pages !! j = _figurepages st !! j)
  ∧ (∀ obj' numfigs' use' start' end_' flt',
       plot obj' figid numfigs' use' start' end_' flt' st'
       = (Fail (if (1 <? numfigs')%Z then NumFigs
                else if bool_decide (is_Some use') then UseNotSupported
                else PyExn (FigurePageExists figid)),
          st')).
Proof.
  intros (Hnum & -> & -> & Hfree & Hbound & Hother)%plot_done.
  split_and!; [done|done|done|done|].
  intros obj' numfigs' use' start' end_' flt'. unfold plot.
  destruct (1 <? numfigs')%Z; [done|].
  destruct (bool_decide (is_Some use')); [done|]. cbv zeta.
  unfold create_figurepage. cbn [lbind of_M bind gets].
  rewrite bool_decide_true by done. done.
Qed.

(** X18: [plot] on a session that has just been reset leaves, when it
    returns, exactly one page: the one of the id it was called with. *)
Theorem plot_after_reset obj figid numfigs use start end_ flt st pages st' :
  plot obj figid numfigs use start end_ flt (_reset st).2 = (Done pages, st') →
  ∀ j, is_Some (pages !! j) ↔ j = figid.
Proof.
  intros (_ & _ & _ & _ & Hbound & Hother)%plot_done j. split.
  - intros Hj. destruct (decide (j = figid)) as [|Hne]; [done|].
    rewrite (Hother j Hne) in Hj. simpl in Hj.
    rewrite lookup_empty in Hj. by destruct Hj.
  - by intros ->.
Qed.

(** X19: updating the page of an optimization result fails: the page has
    no strategy, so after the figures of the page have been reset the
    method raises an attribute error. *)
Theorem update_figurepage_no_strategy figid flt fp st :
  _figurepages st !! figid = Some fp →
  strategy fp = None →
  update_figurepage figid flt st
  = (Raise AttributeError,
     set_figurepages (alter FigurePage_reset figid) st).
Proof.
  intros Hfp Hnone.
  unfold update_figurepage, _blueprint_strategy, get_figurepage, update_page,
    analyzers_of.
  cbn [bind gets]. rewrite Hfp. cbn [ret modify]. by rewrite Hnone.
Qed.

End entry_facts.

(** ** A strategy's page, end to end *)

Section pipeline.
Context `{!Externals}.

Lemma link_axis_objs figs :
  (λ f, (master f, childs f)) <$> link_axis figs
  = (λ f, (master f, childs f)) <$> figs.
Proof.
  destruct figs as [|g rest]; [done|]. rewrite link_axis_cons.
  rewrite !fmap_cons. f_equal. rewrite <- list_fmap_compose.
  by apply list_fmap_ext.
Qed.

Lemma filterObjects_elem predicate objs m cs' :
  (m, cs') ∈ filterObjects predicate objs →
  ∃ cs, (m, cs) ∈ objs ∧ ∀ c, c ∈ cs' → c ∈ cs.
Proof.
  unfold filterObjects. intros ([m0 cs] & Hin & Hf)%list_elem_of_omap.
  destruct (predicate m0); [done|]. injection Hf as <- <-.
  exists cs. split; [done|]. intros c Hc.
  by apply list_elem_of_filter in Hc as [_ Hc].
Qed.

Lemma _create_data_clock_run figid fp st :
  _figurepages st !! figid = Some fp →
  (∀ o, o ∈ page_objs fp → is_Some (get_dataname o)) →
  let objs := foldl (λ d o, dict_append (default None (get_dataname o)) o d)
                [] (page_objs fp) in
  _create_data_clock figid st
  = (Ok tt,
     set_figurepages
       (alter (set_data_clock
                 (strategy fp,
                  get_smallest_dataname (strategy fp) (dict_keys objs))
                 objs) figid) st).
Proof.
  intros Hfp Hdef objs.
  unfold _create_data_clock, get_figurepage, update_page.
  cbn [bind gets]. rewrite Hfp. cbn [ret].
  by rewrite (clock_figures (figures fp) [] st Hdef).
Qed.

(** The default-identity pass leaves the pages alone. *)
Lemma _configure_plotting_pages figid st :
  _figurepages (_configure_plotting figid st).2 = _figurepages st.
Proof.
  destruct (_figurepages st !! figid) as [fp|] eqn:Hfp.
  - rewrite (_configure_plotting_run figid fp st Hfp).
    apply configure_from_frame.
  - unfold _configure_plotting, get_figurepage. cbn [bind gets].
    by rewrite Hfp.
Qed.

Lemma foldM_entries {K A B} (f : B → A → M B) b (entries : list (K * list A))
    st :
  foldM (λ b '(_, l), foldM f b l) b entries st
  = foldM f b (concat entries.*2) st.
Proof.
  revert b st. induction entries as [|[k l] entries IH]; intros b st; [done|].
  rewrite fmap_cons, concat_cons, foldM_app. cbn [foldM bind snd].
  destruct (foldM f b l st) as [[b'|e] st1]; [apply IH|done].
Qed.

(** Joining the frames of the objects, one after the other, when the
    column names are all different. *)
Lemma join_frames clock start_dt end_dt fillgaps os frames df st :
  frames_of clock start_dt end_dt fillgaps os frames →
  NoDup (df.*1 ++ (concat frames).*1) →
  foldM (λ df obj,
      df_data <- lift External
                   (clock_get_data clock obj start_dt end_dt fillgaps) ;;
      df_join df df_data)
    df os st
  = (Ok (df ++ concat frames), st).
Proof.
  unfold frames_of. intros Hfr. revert df.
  induction Hfr as [|o fr os frames Ho _ IH]; intros df Hnd.
  { simpl. by rewrite app_nil_r. }
  rewrite concat_cons, fmap_app in Hnd.
  cbn [foldM bind]. rewrite Ho. cbn [lift ret]. unfold df_join.
  rewrite decide_True.
  - cbn [ret]. rewrite IH.
    + by rewrite concat_cons, app_assoc.
    + by rewrite fmap_app, <- app_assoc.
  - apply Forall_forall. intros c Hc Hin.
    apply NoDup_app in Hnd as (_ & Hdis & _).
    apply (Hdis c Hin). apply elem_of_app. by left.
Qed.

(** Joining the frames of the objects when the clock gives a frame for
    each: either every join succeeds, or a join raises the value error. *)
Lemma join_total clock start_dt end_dt fillgaps os frames df st :
  frames_of clock start_dt end_dt fillgaps os frames →
  let run := foldM (λ df obj,
      df_data <- lift External
                   (clock_get_data clock obj start_dt end_dt fillgaps) ;;
      df_join df df_data)
    df os st in
  run = (Ok (df ++ concat frames), st) ∨ run = (Raise ValueError, st).
Proof.
  unfold frames_of. intros Hfr. cbv zeta.
  set (step := λ (df : DataFrame) obj,
         df_data <- lift External
                      (clock_get_data clock obj start_dt end_dt fillgaps) ;;
         df_join df df_data).
  revert df. induction Hfr as [|o fr os frames Ho _ IH]; intros df.
  { left. simpl. by rewrite app_nil_r. }
  assert (Hs : step df o st
               = if decide (Forall (λ c, c ∉ df.*1) fr.*1)
                 then (Ok (df ++ fr), st) else (Raise ValueError, st)).
  { unfold step, df_join. cbn [bind]. rewrite Ho. cbn [lift ret].
    by destruct (decide _). }
  cbn [foldM bind]. rewrite Hs.
  destruct (decide (Forall (λ c, c ∉ df.*1) fr.*1)); [|by right].
  destruct (IH (df ++ fr)) as [->| ->]; [left|by right].
  by rewrite concat_cons, app_assoc.
Qed.

Lemma get_data_head figid fp clock start end_ back preserveidx fillgaps
    int_idx dt_idx start_dt end_dt st :
  _figurepages st !! figid = Some fp →
  data_clock fp = Some clock →
  get_index_list clock start end_ back preserveidx = Some int_idx →
  get_dt_list clock start end_ back = Some dt_idx →
  head dt_idx = Some start_dt →
  last dt_idx = Some end_dt →
  get_data figid start end_ back preserveidx fillgaps st
  = foldM (λ df obj,
        df_data <- lift External
                     (clock_get_data clock obj start_dt end_dt fillgaps) ;;
        df_join df df_data)
      (df_new int_idx dt_idx) (concat (data_clock_objs fp).*2) st.
Proof.
  intros Hfp Hclock Hidx Hdt Hhead Hlast.
  unfold get_data, get_figurepage. cbn [bind gets]. rewrite Hfp. cbn [ret].
  rewrite Hclock. cbn [lift ret bind]. rewrite Hidx. cbn [lift ret bind].
  rewrite Hdt. cbn [lift ret bind]. rewrite Hhead. cbn [lift ret bind].
  rewrite Hlast. cbn [lift ret bind]. apply foldM_entries.
Qed.

Lemma bind_objs (l : list Figure) :
  l ≫= (λ f, master f :: childs f)
  = ((λ f, (master f, childs f)) <$> l) ≫= (λ '(m, cs), m :: cs).
Proof.
  induction l as [|f l IH]; [done|].
  rewrite fmap_cons, !bind_cons. by rewrite IH.
Qed.

Lemma bind_masters (l : list Figure) :
  Forall (λ f, childs f = []) l →
  l ≫= (λ f, master f :: childs f) = master <$> l.
Proof.
  induction 1 as [|f l Hf _ IH]; [done|].
  rewrite fmap_cons, bind_cons, IH, Hf. done.
Qed.

(** X20: a page for a strategy, end to end. When the id is free, the
    default-identity pass returns, the masters are distinct and of known
    kinds, the data name of every object is known and, if the table is to
    be filled, the clock of this page gives its two axes, the time axis
    not empty, and a frame for every object filed, with column names that
    are all different, then [create_figurepage] returns the id with the
    page now bound to it: the page of that strategy, with the strategy's
    analyzers, the primary figures of the filtered masters in order
    followed by the volume figures, the clock of the objects on the page
    filed by data name, and as its table the two axes followed by the
    frames of the objects in filing order when [filldata] is set, and no
    table when it is not. *)
Theorem create_figurepage_strategy obj figid start end_ flt filldata st st1
    table :
  _figurepages st !! figid = None →
  ocls obj = Strategy →
  let fp0 := mkFigurePage (Some obj) None [] [] None [] None in
  let st0 := set_figurepages (λ m, <[figid := fp0]> m) st in
  _configure_plotting figid st0 = (Ok tt, st1) →
  let objs := get_plotobjs (plotinfos st1) (Some obj) false true in
  let kept := filterObjects (λ o, filter_obj (plotinfos st1) o flt) objs in
  let vol := volume (scheme st1) && negb (voloverlay (scheme st1)) in
  let cobjs := filed (composed_objs vol kept) in
  let clock := (Some obj, get_smallest_dataname (Some obj) (dict_keys cobjs)) in
  NoDup objs.*1 →
  (∀ m, m ∈ objs.*1 → is_Some (FigureType_get_type m)) →
  (∀ m cs o, (m, cs) ∈ objs → o ∈ m :: cs → is_Some (get_dataname o)) →
  match filldata return Prop with
  | true =>
      ∃ int_idx dt_idx start_dt end_dt frames,
        get_index_list clock start end_ None false = Some int_idx
        ∧ get_dt_list clock start end_ None = Some dt_idx
        ∧ head dt_idx = Some start_dt
        ∧ last dt_idx = Some end_dt
        ∧ frames_of clock start_dt end_dt false (concat cobjs.*2) frames
        ∧ NoDup ("index" :: "datetime" :: (concat frames).*1)
        ∧ table = Some (df_new int_idx dt_idx ++ concat frames)
  | false => table = None
  end →
  ∃ fp' st' primary vols,
    create_figurepage obj figid start end_ flt filldata st
    = (Ok (figid, fp'), st')
    ∧ _figurepages st' !! figid = Some fp'
    ∧ strategy fp' = Some obj
    ∧ analyzers fp' = getitems obj
    ∧ figures fp' = primary ++ vols
    ∧ master <$> primary = kept.*1
    ∧ Forall (λ f, ftype f = Some VOL) vols
    ∧ data_clock fp' = Some clock
    ∧ data_clock_objs fp' = cobjs
    ∧ cds fp' = table.
Proof.
  intros Hfree Hcls fp0 st0 Hconf objs kept vol cobjs clock Hnd Hkind Hdn Hfill.
  assert (Hnew : FigurePage_new obj = fp0).
  { unfold FigurePage_new, fp0. by rewrite Hcls. }
  assert (Hp1 : _figurepages st1 !! figid = Some fp0).
  { pose proof (_configure_plotting_pages figid st0) as Hpg.
    rewrite Hconf in Hpg. simpl in Hpg. rewrite Hpg.
    apply lookup_insert_eq. }
  destruct (_blueprint_strategy_run figid flt fp0 obj st1 Hp1 eq_refl Hnd Hkind)
    as (st2 & built & vols & Hbp & Hpage2 & Hobjs & Hvols & Hvm & _).
  change (filterObjects _ _) with kept in Hobjs.
  change (volume (scheme st1) && negb (voloverlay (scheme st1))) with vol
    in Hvm.
  set (fp2 := set_figures (λ _, link_axis built ++ vols)
                (set_analyzers (λ l, l ++ getitems obj) fp0)) in Hpage2.
  assert (Hmaster : master <$> built = kept.*1).
  { rewrite <- Hobjs, <- list_fmap_compose. done. }
  assert (Hpo : page_objs fp2 = composed_objs vol kept).
  { unfold page_objs, composed_objs.
    change (figures fp2) with (link_axis built ++ vols).
    rewrite bind_app. f_equal.
    - by rewrite bind_objs, link_axis_objs, Hobjs.
    - rewrite bind_masters.
      + by rewrite Hvm, Hmaster.
      + eapply Forall_impl; [exact Hvols|]. by intros f [_ ?]. }
  assert (Hnames : ∀ o, o ∈ page_objs fp2 → is_Some (get_dataname o)).
  { intros o. rewrite Hpo. unfold composed_objs.
    intros [Ho|Ho]%elem_of_app.
    - apply list_elem_of_bind in Ho as ([m cs'] & Ho & Hin).
      apply filterObjects_elem in Hin as (cs & Hin & Hsub).
      apply (Hdn m cs o Hin).
      apply elem_of_cons in Ho as [->|Ho]; [by left|right; by apply Hsub].
    - destruct vol; [|by apply elem_of_nil in Ho].
      apply list_elem_of_filter in Ho as [_ Ho].
      apply list_elem_of_fmap in Ho as ([m cs'] & -> & Hin).
      apply filterObjects_elem in Hin as (cs & Hin & _).
      apply (Hdn m cs); [done|by left]. }
  pose proof (_create_data_clock_run figid fp2 st2 Hpage2 Hnames) as Hclock.
  cbv zeta in Hclock. rewrite Hpo in Hclock.
  change (foldl _ [] (composed_objs vol kept)) with cobjs in Hclock.
  change (strategy fp2, get_smallest_dataname (strategy fp2) (dict_keys cobjs))
    with clock in Hclock.
  set (fp3 := set_data_clock clock cobjs fp2).
  set (st3 := set_figurepages (alter (set_data_clock clock cobjs) figid) st2)
    in Hclock.
  assert (Hp3 : _figurepages st3 !! figid = Some fp3).
  { unfold st3. by rewrite figurepages_set, lookup_alter_eq, Hpage2. }
  assert (Hvol : Forall (λ f, ftype f = Some VOL) vols).
  { eapply Forall_impl; [exact Hvols|]. by intros f [? _]. }
  assert (Hprim : master <$> link_axis built = kept.*1).
  { by rewrite link_axis_master. }
  assert (Hhead : ∀ st4,
    (if filldata
     then df <- get_data figid start end_ None false false ;;
          update_page figid (set_cds_columns_from_df df)
     else ret tt) st3 = (Ok tt, st4) →
    create_figurepage obj figid start end_ flt filldata st
    = (fp <- get_figurepage figid ;; ret (figid, fp)) st4).
  { intros st4 Hfd. unfold create_figurepage. cbv zeta.
    cbn [bind gets]. rewrite bool_decide_false by (rewrite Hfree; by intros [? ?]).
    cbn [bind modify]. rewrite Hnew. fold st0.
    rewrite bool_decide_true by done. cbn [bind].
    rewrite Hconf, Hbp, Hclock. cbn [bind]. by rewrite Hfd. }
  destruct filldata.
  - destruct Hfill as (int_idx & dt_idx & start_dt & end_dt & frames
                       & Hidx & Hdt & Hfirst & Hlast & Hframes & Hcols & ->).
    set (df := df_new int_idx dt_idx ++ concat frames).
    assert (Hget : get_data figid start end_ None false false st3
                   = (Ok df, st3)).
    { rewrite (get_data_head figid fp3 clock start end_ None false false
                 int_idx dt_idx start_dt end_dt st3 Hp3 eq_refl Hidx Hdt
                 Hfirst Hlast).
      by apply join_frames. }
    exists (set_cds_columns_from_df df fp3),
      (set_figurepages (alter (set_cds_columns_from_df df) figid) st3),
      (link_axis built), vols.
    split_and!; [|by rewrite figurepages_set, lookup_alter_eq, Hp3
                 |done..].
    rewrite (Hhead (set_figurepages
                      (alter (set_cds_columns_from_df df) figid) st3)).
    + unfold get_figurepage. cbn [bind gets].
      by rewrite figurepages_set, lookup_alter_eq, Hp3.
    + cbn [bind]. rewrite Hget. done.
  - subst table. exists fp3, st3, (link_axis built), vols.
    split_and!; [|done..].
    rewrite (Hhead st3 eq_refl).
    unfold get_figurepage. cbn [bind gets]. by rewrite Hp3.
Qed.

(** X22: an object that is filed twice for the clock, as the master of a
    data figure is when the page also holds its volume figure, makes
    [get_data] fail: when the clock gives its two axes and a frame for
    every object filed, and the frame of an object filed twice has a
    column, a join raises the value error, and the state is left as it
    was. *)
Theorem get_data_filed_twice figid fp clock start end_ back preserveidx
    fillgaps int_idx dt_idx start_dt end_dt frames o fr l1 l2 l3 st :
  _figurepages st !! figid = Some fp →
  data_clock fp = Some clock →
  get_index_list clock start end_ back preserveidx = Some int_idx →
  get_dt_list clock start end_ back = Some dt_idx →
  head dt_idx = Some start_dt →
  last dt_idx = Some end_dt →
  frames_of clock start_dt end_dt fillgaps
    (concat (data_clock_objs fp).*2) frames →
  concat (data_clock_objs fp).*2 = l1 ++ o :: l2 ++ o :: l3 →
  clock_get_data clock o start_dt end_dt fillgaps = Some fr →
  fr ≠ [] →
  get_data figid start end_ back preserveidx fillgaps st
  = (Raise ValueError, st).
Proof.
  intros Hfp Hclock Hidx Hdt Hfirst Hlast Hframes Hsplit Ho Hfr.
  rewrite (get_data_head figid fp clock start end_ back preserveidx fillgaps
             int_idx dt_idx start_dt end_dt st Hfp Hclock Hidx Hdt Hfirst
             Hlast).
  rewrite Hsplit in Hframes |- *. unfold frames_of in Hframes.
  replace (l1 ++ o :: l2 ++ o :: l3) with ((l1 ++ o :: l2) ++ o :: l3)
    in Hframes |- * by (by rewrite <- app_assoc).
  apply Forall2_app_inv_l in Hframes as (fa & fb & Hfa & Hfb & ->).
  apply Forall2_cons_inv_l in Hfb as (fr' & fb' & Ho' & Hfb & ->).
  rewrite Ho in Ho'. injection Ho' as <-.
  apply Forall2_app_inv_l in Hfa as (f1 & f2 & Hf1 & Hf2 & ->).
  apply Forall2_cons_inv_l in Hf2 as (fr' & f2' & Ho' & Hf2 & ->).
  rewrite Ho in Ho'. injection Ho' as <-.
  rewrite foldM_app. cbn [bind].
  assert (Hpre : frames_of clock start_dt end_dt fillgaps (l1 ++ o :: l2)
                   (f1 ++ fr :: f2')).
  { apply Forall2_app; [done|]. by constructor. }
  destruct (join_total clock start_dt end_dt fillgaps (l1 ++ o :: l2)
              (f1 ++ fr :: f2') (df_new int_idx dt_idx) st Hpre)
    as [-> | ->]; [|done].
  cbn [foldM bind]. rewrite Ho. cbn [lift ret]. unfold df_join.
  rewrite decide_False; [done|].
  destruct fr as [|[c col] fr]; [done|].
  intros Hall. apply Forall_cons in Hall as [Hc _]. apply Hc.
  rewrite fmap_app, concat_app, concat_cons, !fmap_app, fmap_cons.
  apply elem_of_app. right. apply elem_of_app. right.
  apply elem_of_app. left. by left.
Qed.

End pipeline.

(** ** The further properties on the sample pages *)


Lemma apply_config_lookup_witness :
  let e := Sample.ext Sample.graph [] in
  let cfg := [("color", VStr "red"); ("plotorder", VInt 5)] in
  let st := Sample.app Sample.store None ∅ in
  let st' := (apply_config Sample.sma cfg st).2 in
  (apply_config Sample.sma cfg st).1 = Ok tt
  ∧ (∀ k v, (k, v) ∈ cfg → plotinfo (plotinfos st') Sample.sma !! k = Some v)
  ∧ (∀ k, k ∉ cfg.*1 →
       plotinfo (plotinfos st') Sample.sma !! k
       = plotinfo (plotinfos st) Sample.sma !! k)
  ∧ (∀ d, d ≠ Sample.sma → plotinfos st' !! d = plotinfos st !! d).
Proof.
  intros e cfg st.
  apply (apply_config_lookup Sample.sma cfg st).
  apply (bool_decide_unpack _). vm_compute. exact I.
Defined.

(** The rule [#:IND-x]: its ordinal is no number, which an indicator finds
    out and a data feed does not. *)
Lemma configure_rule_index_bad_ordinal_witness :
  let e := Sample.ext Sample.graph [] in
  let cfg := [("color", VStr "red")] in
  let st := Sample.app Sample.store None ∅ in
  configure_rule Sample.sma 2 ("#:IND-x", cfg) st = (Raise ValueError, st)
  ∧ configure_rule Sample.data1 1 ("#:IND-x", cfg) st = (Ok tt, st).
Proof.
  intros e cfg st. split.
  - exact (@configure_rule_index_bad_ordinal e Sample.sma 2 "#:IND-x" "#"
             "IND-x" "IND" "x" (Sample.isinstance IndicatorBase) cfg st
             eq_refl eq_refl eq_refl eq_refl eq_refl).
  - exact (@configure_rule_index_bad_ordinal e Sample.data1 1 "#:IND-x" "#"
             "IND-x" "IND" "x" (Sample.isinstance IndicatorBase) cfg st
             eq_refl eq_refl eq_refl eq_refl eq_refl).
Defined.

(** Three rules, the second of an unknown kind: the first is applied, the
    second raises, the third is not reached. *)
Lemma configure_rules_raise_witness :
  let e := Sample.ext Sample.graph [] in
  let cfg := [("color", VStr "red")] in
  let rules := [("r:sm", cfg); ("color:red", cfg); ("r:", cfg)] in
  let st := Sample.app Sample.store None ∅ in
  let st' := (configure_rules Sample.sma 2 rules st).2 in
  ∃ pre rule post,
    rules = pre ++ rule :: post
    ∧ configure_rules Sample.sma 2 pre st = (Ok tt, st')
    ∧ configure_rule Sample.sma 2 rule st'
      = (Raise (UnknownConfigType "color:red"), st').
Proof.
  intros e cfg rules st st'.
  apply (@configure_rules_raise e Sample.sma 2 rules st
           (UnknownConfigType "color:red") st').
  vm_compute. reflexivity.
Defined.

Lemma _configure_plotting_has_attrs_witness :
  let e := Sample.ext Sample.graph [] in
  let rules := [("r:sm", [("color", VStr "red")])] in
  let st := Sample.app Sample.store (Some rules)
              {[ 0%Z := FigurePage_new Sample.strat ]} in
  let st' := (_configure_plotting 0 st).2 in
  is_Some (plotinfo (plotinfos st') Sample.sma !! "plotid")
  ∧ is_Some (plotinfo (plotinfos st') Sample.sma !! "plotorder").
Proof.
  intros e rules st st'.
  apply (@_configure_plotting_has_attrs e 0 (FigurePage_new Sample.strat)
           st st' eq_refl).
  - vm_compute. reflexivity.
  - apply (bool_decide_unpack _). vm_compute. exact I.
Defined.

Lemma _configure_plotting_default_plotorder_witness :
  let e := Sample.ext Sample.graph [] in
  let rules := [("r:sm", [("color", VStr "red")])] in
  let store : Store := <[Sample.ema := {[ "plotorder" := VInt 7 ]}]> Sample.store in
  let st := Sample.app store (Some rules)
              {[ 0%Z := FigurePage_new Sample.strat ]} in
  let st' := (_configure_plotting 0 st).2 in
  plotinfo (plotinfos st') Sample.sma !! "plotorder" = Some (VInt 0)
  ∧ plotinfo (plotinfos st') Sample.ema !! "plotorder" = Some (VInt 7).
Proof.
  intros e rules store st st'.
  assert (Hno : no_override "plotorder" (plotconfig (params st))).
  { intros rs key cfg Hr Hin.
    change (Some rules = Some rs) in Hr. injection Hr as <-.
    apply list_elem_of_singleton in Hin as [= -> ->].
    apply (bool_decide_unpack _). vm_compute. exact I. }
  assert (Hrun : _configure_plotting 0 st = (Ok tt, st')).
  { vm_compute. reflexivity. }
  split.
  - apply (@_configure_plotting_default_plotorder e 0
             (FigurePage_new Sample.strat) st st' eq_refl Hno Hrun Sample.sma).
    apply (bool_decide_unpack _). vm_compute. exact I.
  - apply (@_configure_plotting_default_plotorder e 0
             (FigurePage_new Sample.strat) st st' eq_refl Hno Hrun Sample.ema).
    apply (bool_decide_unpack _). vm_compute. exact I.
Defined.

Lemma figid_unbound_witness :
  let e := Sample.ext Sample.graph [] in
  let st := Sample.app Sample.store None ∅ in
  get_figurepage 3 st = (Raise (FigurePageMissing 3), st)
  ∧ _configure_plotting 3 st = (Raise (FigurePageMissing 3), st)
  ∧ _get_plotobjects 3 None st = (Raise (FigurePageMissing 3), st)
  ∧ _blueprint_strategy 3 None st = (Raise (FigurePageMissing 3), st)
  ∧ update_figurepage 3 None st = (Raise (FigurePageMissing 3), st)
  ∧ _blueprint_optreturn 3 st = (Raise (FigurePageMissing 3), st)
  ∧ _create_data_clock 3 st = (Raise (FigurePageMissing 3), st)
  ∧ get_data 3 None None None false false st
    = (Raise (FigurePageMissing 3), st)
  ∧ sorted_figs 3 st = (Raise (FigurePageMissing 3), st).
Proof.
  intros e st.
  apply (@figid_unbound e 3 None None None None false false st). reflexivity.
Defined.

(** A second page, for a strategy, beside the page of an optimization
    result: the first page is not touched. *)
Lemma other_pages_untouched_witness :
  let e := Sample.ext Sample.masters ["1"] in
  let st := Sample.app Sample.store None
              {[ 0%Z := FigurePage_new Sample.optret ]} in
  _figurepages (create_figurepage Sample.strat 1 None None None true st).2
    !! 0%Z
  = _figurepages st !! 0%Z
  ∧ _figurepages (update_figurepage 1 None st).2 !! 0%Z
    = _figurepages st !! 0%Z.
Proof.
  intros e st.
  apply (@other_pages_untouched e Sample.strat 1 None None None true st 0).
  discriminate.
Defined.

Lemma create_figurepage_optreturn_witness :
  let e := Sample.ext Sample.graph [] in
  let st := Sample.app Sample.store None ∅ in
  let fp := mkFigurePage None (Some Sample.optret) [] [] None [] None in
  let st' := set_figurepages (λ m, <[0%Z := fp]> m) st in
  create_figurepage Sample.optret 0 None None None true st
  = (Ok (0%Z, fp), st')
  ∧ get_figurepage 0 st' = (Ok fp, st').
Proof.
  intros e st fp st'.
  apply (@create_figurepage_optreturn e Sample.optret 0 None None None true st);
    reflexivity.
Defined.

(** Two figures on one feed: the three objects are filed under its name. *)
Lemma _create_data_clock_groups_witness :
  let e := Sample.ext Sample.graph ["1"] in
  let figs := [mkFigure Sample.data1 [Sample.sma] None 0;
               mkFigure Sample.ema [] None 0] in
  let fp := mkFigurePage (Some Sample.strat) None figs [] None [] None in
  let st := Sample.app Sample.store None {[ 0%Z := fp ]} in
  ∃ objs st',
    _create_data_clock 0 st = (Ok tt, st')
    ∧ _figurepages st' !! 0%Z
      = Some (set_data_clock
                (strategy fp,
                 get_smallest_dataname (strategy fp) (dict_keys objs))
                objs fp)
    ∧ NoDup (dict_keys objs)
    ∧ (∀ dn, dict_get dn objs
         = match filter (λ o, get_dataname o = Some dn) (page_objs fp) with
           | [] => None
           | l => Some l
           end).
Proof.
  intros e figs fp st.
  apply (@_create_data_clock_groups e 0 fp st eq_refl).
  intros o Ho. change (o ∈ [Sample.data1; Sample.sma; Sample.ema]) in Ho.
  repeat (apply elem_of_cons in Ho as [->|Ho]; [by eexists|]).
  by apply elem_of_nil in Ho.
Defined.

(** A figure on a feed whose name the strategy does not declare. *)
Lemma sorted_figs_undeclared_witness :
  let e := Sample.ext Sample.graph ["1"] in
  let data7 := mkObj 7 AbstractDataBase in
  let f1 := mkFigure Sample.data1 [] None 0 in
  let f7 := mkFigure data7 [] None 1 in
  let store : Store :=
    {[ Sample.data1 := {[ "plotorder" := VInt 0 ]};
       data7 := {[ "plotorder" := VInt 0 ]} ]} in
  let fp := mkFigurePage (Some Sample.strat) None [f1; f7] [] None [] None in
  let st := Sample.app store None {[ 0%Z := fp ]} in
  sorted_figs 0 st = (Raise KeyError, st).
Proof.
  intros e data7 f1 f7 store fp st.
  apply (@sorted_figs_undeclared e 0 fp st [f1] f7 [] "7" eq_refl eq_refl).
  - intros y Hy. apply list_elem_of_singleton in Hy as ->.
    vm_compute. by eexists.
  - vm_compute. by eexists.
  - vm_compute. reflexivity.
  - apply (bool_decide_unpack _). vm_compute. exact I.
Defined.

(** The sample page: one data feed among the three masters, so one volume
    figure. *)
Lemma _blueprint_strategy_volume_witness :
  let e := Sample.ext Sample.masters [] in
  let st := Sample.app Sample.store None {[ 0%Z := FigurePage_new Sample.strat ]} in
  let objs := get_plotobjs (plotinfos st) (Some Sample.strat) false true in
  ∃ st' primary vols,
    _blueprint_strategy 0 None st = (Ok tt, st')
    ∧ figures <$> _figurepages st' !! 0%Z = Some (primary ++ vols)
    ∧ master <$> primary
      = (filterObjects (λ o, filter_obj (plotinfos st) o None) objs).*1
    ∧ Forall (λ f, ftype f = Some VOL ∧ childs f = []) vols
    ∧ master <$> vols
      = (if volume (scheme st) && negb (voloverlay (scheme st))
         then filter (λ m, FigureType_get_type m = Some DATA)
                (master <$> primary)
         else []).
Proof.
  intros e st objs.
  refine (@_blueprint_strategy_volume e 0 None (FigurePage_new Sample.strat)
            Sample.strat st eq_refl eq_refl _ _).
  - apply (bool_decide_unpack _). vm_compute. exact I.
  - intros m Hm. change (m ∈ [Sample.data1; Sample.ema; Sample.broker]) in Hm.
    repeat (apply elem_of_cons in Hm as [->|Hm]; [by eexists|]).
    by apply elem_of_nil in Hm.
Defined.

Lemma _blueprint_strategy_calls_witness :
  let e := Sample.ext Sample.masters [] in
  let st := Sample.app Sample.store None {[ 0%Z := FigurePage_new Sample.strat ]} in
  let objs := get_plotobjs (plotinfos st) (Some Sample.strat) false true in
  let predicate := λ o, filter_obj (plotinfos st) o None in
  ∃ st' built vols,
    _blueprint_strategy 0 None st = (Ok tt, st')
    ∧ figures <$> _figurepages st' !! 0%Z = Some (link_axis built ++ vols)
    ∧ (λ f, (master f, childs f)) <$> built = filterObjects predicate objs
    ∧ Forall (λ f, ftype f = Some VOL ∧ childs f = []) vols
    ∧ calls st'
      = calls st ++ (CallFilterObj <$> tested predicate objs)
          ++ (built ≫= figure_calls) ++ (vols ≫= volume_calls)
          ++ [CallPageApply 0].
Proof.
  intros e st objs predicate.
  refine (@_blueprint_strategy_calls e 0 None (FigurePage_new Sample.strat)
            Sample.strat st eq_refl eq_refl _ _).
  - apply (bool_decide_unpack _). vm_compute. exact I.
  - intros m Hm. change (m ∈ [Sample.data1; Sample.ema; Sample.broker]) in Hm.
    repeat (apply elem_of_cons in Hm as [->|Hm]; [by eexists|]).
    by apply elem_of_nil in Hm.
Defined.

(** Three figures in multiple tabs: one panel per kind. *)
Lemma generate_model_panels_tabs_witness :
  let e := Sample.ext Sample.graph ["1"] in
  let s := SampleEntry.settings true "bottom" in
  let f1 := mkFigure Sample.data1 [] None 0 in
  let f2 := mkFigure Sample.ema [] None 0 in
  let f3 := mkFigure Sample.broker [] None 0 in
  let store : Store :=
    {[ Sample.ema := {[ "plotorder" := VInt 0 ]};
       Sample.broker := {[ "plotorder" := VInt 0 ]};
       Sample.data1 := {[ "plotorder" := VInt 0 ]} ]} in
  let fp := mkFigurePage (Some Sample.strat) None [f2; f3; f1] [] None [] None in
  let st := Sample.app store None {[ 0%Z := fp ]} in
  let l := [f3; f1; f2] in
  ∃ panels,
    generate_model_panels 0 st = (Done panels, st)
    ∧ NoDup (title <$> panels)
    ∧ (∀ p, p ∈ panels →
         rows p ≠ []
         ∧ (rows p).*1
           = filter (λ f, tab_of (plotinfos st) f = Some (title p)) l)
    ∧ (∀ f, f ∈ l →
         ∃ p, p ∈ panels ∧ tab_of (plotinfos st) f = Some (title p)).
Proof.
  intros e s f1 f2 f3 store fp st l.
  apply (@generate_model_panels_tabs e s 0 st l st).
  - vm_compute. reflexivity.
  - intros f Hf.
    repeat (apply elem_of_cons in Hf as [->|Hf]; [by eexists|]).
    by apply elem_of_nil in Hf.
Defined.

(** Three figures in one tab, the time axis at the bottom. *)
Lemma generate_model_panels_xaxis_witness :
  let e := Sample.ext Sample.graph ["1"] in
  let s := SampleEntry.settings false "bottom" in
  let f1 := mkFigure Sample.data1 [] None 0 in
  let f2 := mkFigure Sample.ema [] None 0 in
  let f3 := mkFigure Sample.broker [] None 0 in
  let store : Store :=
    {[ Sample.ema := {[ "plotorder" := VInt 0 ]};
       Sample.broker := {[ "plotorder" := VInt 0 ]};
       Sample.data1 := {[ "plotorder" := VInt 0 ]} ]} in
  let fp := mkFigurePage (Some Sample.strat) None [f2; f3; f1] [] None [] None in
  let st := Sample.app store None {[ 0%Z := fp ]} in
  let p := mkPanel "Plots" [(f3, Some false); (f1, Some false); (f2, Some true)] in
  generate_model_panels 0 st = (Done [p], st)
  ∧ rows p ≠ []
  ∧ (rows p).*2 = [Some false; Some false; Some true].
Proof.
  intros e s f1 f2 f3 store fp st p.
  assert (Hrun : generate_model_panels 0 st = (Done [p], st)).
  { vm_compute. reflexivity. }
  split; [exact Hrun|].
  apply (@generate_model_panels_xaxis e s 0 st [p] st p Hrun).
  by left.
Defined.

(** A data figure and its volume figure in multiple tabs. *)
Lemma generate_model_panels_unknown_kind_witness :
  let e := Sample.ext Sample.graph ["1"] in
  let s := SampleEntry.settings true "bottom" in
  let f1 := mkFigure Sample.data1 [] None 0 in
  let v1 := mkFigure Sample.data1 [] (Some VOL) 1 in
  let store : Store := {[ Sample.data1 := {[ "plotorder" := VInt 0 ]} ]} in
  let fp := mkFigurePage (Some Sample.strat) None [f1; v1] [] None [] None in
  let st := Sample.app store None {[ 0%Z := fp ]} in
  generate_model_panels 0 st = (Fail (UnknownFigureType VOL), st).
Proof.
  intros e s f1 v1 store fp st.
  apply (@generate_model_panels_unknown_kind e s 0 st st [f1] v1 []).
  - vm_compute. reflexivity.
  - reflexivity.
  - intros g Hg. apply list_elem_of_singleton in Hg as ->. by eexists.
  - reflexivity.
  - reflexivity.
Defined.

(** [plot] of the sample strategy on a fresh session. *)
Lemma plot_returns_pages_witness :
  let e := Sample.ext Sample.masters ["1"] in
  let s := SampleEntry.settings false "bottom" in
  let st := SampleEntry.app_no_volume Sample.store None ∅ in
  let st' := (plot Sample.strat 0 1 None None None None st).2 in
  let pages := _figurepages st' in
  pages = _figurepages st'
  ∧ _figurepages st !! 0%Z = None
  ∧ is_Some (pages !! 0%Z)
  ∧ (∀ j, j ≠ 0%Z → pages !! j = _figurepages st !! j)
  ∧ (∀ obj' numfigs' use' start' end_' flt',
       plot obj' 0 numfigs' use' start' end_' flt' st'
       = (Fail (if (1 <? numfigs')%Z then NumFigs
                else if bool_decide (is_Some use') then UseNotSupported
                else PyExn (FigurePageExists 0)),
          st')).
Proof.
  intros e s st st' pages.
  apply (@plot_returns_pages e s Sample.strat 0 1 None None None None st
           pages st').
  vm_compute. reflexivity.
Defined.

(** A session with a page under the id 5: after a reset, [plot] leaves the
    page of the id 0 and no page of the id 5. *)
Lemma plot_after_reset_witness :
  let e := Sample.ext Sample.masters ["1"] in
  let s := SampleEntry.settings false "bottom" in
  let st := SampleEntry.app_no_volume Sample.store None
              {[ 5%Z := FigurePage_new Sample.optret ]} in
  let st' := (plot Sample.strat 0 1 None None None None (_reset st).2).2 in
  let pages := _figurepages st' in
  (is_Some (pages !! 5%Z) ↔ 5%Z = 0%Z)
  ∧ (is_Some (pages !! 0%Z) ↔ 0%Z = 0%Z).
Proof.
  intros e s st st' pages.
  assert (Hrun : plot Sample.strat 0 1 None None None None (_reset st).2
                 = (Done pages, st')).
  { vm_compute. reflexivity. }
  split.
  - exact (@plot_after_reset e s Sample.strat 0 1 None None None None st
             pages st' Hrun 5%Z).
  - exact (@plot_after_reset e s Sample.strat 0 1 None None None None st
             pages st' Hrun 0%Z).
Defined.

Lemma update_figurepage_no_strategy_witness :
  let e := Sample.ext Sample.graph [] in
  let fp := FigurePage_new Sample.optret in
  let st := Sample.app Sample.store None {[ 0%Z := fp ]} in
  update_figurepage 0 None st
  = (Raise AttributeError,
     set_figurepages (alter FigurePage_reset 0%Z) st).
Proof.
  intros e fp st.
  exact (@update_figurepage_no_strategy e 0 None fp st eq_refl eq_refl).
Defined.

(** The page of the sample strategy without volume figures, created with
    its table: the two axes and a column for each of the four objects. *)
Lemma create_figurepage_strategy_witness :
  let e := Sample.ext Sample.masters ["1"] in
  let st := SampleEntry.app_no_volume Sample.store None ∅ in
  let fp0 := mkFigurePage (Some Sample.strat) None [] [] None [] None in
  let st0 := set_figurepages (λ m, <[0%Z := fp0]> m) st in
  let st1 := (_configure_plotting 0 st0).2 in
  let column := [VInt 0; VInt 0; VInt 0] in
  let table :=
    Some (df_new [0; 1; 2]%Z [10; 20; 30]%Z
          ++ [("1", column); ("2", column); ("3", column); ("4", column)]) in
  ∃ fp' st' primary vols,
    create_figurepage Sample.strat 0 None None None true st
    = (Ok (0%Z, fp'), st')
    ∧ _figurepages st' !! 0%Z = Some fp'
    ∧ strategy fp' = Some Sample.strat
    ∧ analyzers fp' = getitems Sample.strat
    ∧ figures fp' = primary ++ vols
    ∧ master <$> primary = [Sample.data1; Sample.ema; Sample.broker]
    ∧ Forall (λ f, ftype f = Some VOL) vols
    ∧ data_clock fp' = Some (Some Sample.strat, Some "1")
    ∧ data_clock_objs fp'
      = [(Some "1", [Sample.data1; Sample.sma; Sample.ema; Sample.broker])]
    ∧ cds fp' = table.
Proof.
  intros e st fp0 st0 st1 column table.
  refine (@create_figurepage_strategy e Sample.strat 0 None None None true
            st st1 table eq_refl eq_refl _ _ _ _ _).
  - vm_compute. reflexivity.
  - apply (bool_decide_unpack _). vm_compute. exact I.
  - intros m Hm. change (m ∈ [Sample.data1; Sample.ema; Sample.broker]) in Hm.
    repeat (apply elem_of_cons in Hm as [->|Hm]; [by eexists|]).
    by apply elem_of_nil in Hm.
  - intros m cs o Hin Ho. change ((m, cs) ∈ Sample.masters) in Hin.
    unfold Sample.masters in Hin.
    repeat (apply elem_of_cons in Hin as [[= -> ->]|Hin];
            [repeat (apply elem_of_cons in Ho as [->|Ho]; [by eexists|]);
             by apply elem_of_nil in Ho|]).
    by apply elem_of_nil in Hin.
  - exists [0; 1; 2]%Z, [10; 20; 30]%Z, 10%Z, 30%Z,
      [[("1", column)]; [("2", column)]; [("3", column)]; [("4", column)]].
    split_and!;
      [reflexivity|reflexivity|reflexivity|reflexivity| | |reflexivity].
    + unfold frames_of. vm_compute. repeat constructor.
    + apply (bool_decide_unpack _). vm_compute. exact I.
Defined.

(** A data figure and its volume figure on one page: the feed is filed
    twice, and the second join of its column fails. *)
Lemma get_data_filed_twice_witness :
  let e := Sample.ext Sample.masters ["1"] in
  let clock := (Some Sample.strat, Some "1") in
  let fp := mkFigurePage (Some Sample.strat) None
              [mkFigure Sample.data1 [] None 0;
               mkFigure Sample.data1 [] (Some VOL) 1]
              [] (Some clock) [(Some "1", [Sample.data1; Sample.data1])]
              None in
  let st := Sample.app Sample.store None {[ 0%Z := fp ]} in
  get_data 0 None None None false false st = (Raise ValueError, st).
Proof.
  intros e clock fp st.
  refine (@get_data_filed_twice e 0 fp clock None None None false false
            [0; 1; 2]%Z [10; 20; 30]%Z 10%Z 30%Z
            [[("1", [VInt 0; VInt 0; VInt 0])];
             [("1", [VInt 0; VInt 0; VInt 0])]]
            Sample.data1 [("1", [VInt 0; VInt 0; VInt 0])] [] [] [] st
            eq_refl eq_refl eq_refl eq_refl eq_refl eq_refl _ eq_refl
            eq_refl _).
  - repeat constructor.
  - discriminate.
Defined.

(** ** A page stays bound *)

Ltac stays_bound :=
  intros ? ?; simpl;
  rewrite ?lookup_alter_eq, ?lookup_insert_eq, ?fmap_is_Some;
  first [assumption | solve [eauto]].

Section binding.
Context `{!Externals}.

Lemma bind_gets {A B} (f : App → A) (k : A → M B) st :
  bind (gets f) k st = k (f st) st.
Proof. reflexivity. Qed.

(** X21: after [create_figurepage], however it ends, the id is bound: a
    call that fails after the id check leaves the page it has begun under
    the id, and every later [create_figurepage] for that id raises the
    already-exists error and changes nothing. *)
Theorem create_figurepage_binds obj figid start end_ flt filldata st :
  let st' := (create_figurepage obj figid start end_ flt filldata st).2 in
  is_Some (_figurepages st' !! figid)
  ∧ ∀ obj' start' end_' flt' filldata',
      create_figurepage obj' figid start' end_' flt' filldata' st'
      = (Raise (FigurePageExists figid), st').
Proof.
  intros st'.
  assert (Hb : is_Some (_figurepages st' !! figid)).
  { unfold st', create_figurepage. cbv zeta. rewrite bind_gets.
    destruct (_figurepages st !! figid) as [fp|] eqn:Hfp.
    - rewrite bool_decide_true by eauto. simpl. rewrite Hfp. eauto.
    - rewrite bool_decide_false by (by intros [? ?]).
      match goal with
      | |- context [bind (modify ?f) ?k st] =>
          change (bind (modify f) k st) with (k tt (f st));
          assert (Hk : preserves (keeps_bound figid) (k tt))
      end.
      { cbv beta.
        unfold _configure_plotting, _configure_plotobject, patch_defaults,
          configure_rules, configure_rule, apply_config, getattr, setattr,
          _blueprint_strategy, _get_plotobjects, call_filter_obj, log_call,
          Figure_new, Figure_get_type, analyzers_of, _create_data_clock,
          get_data, df_join, _blueprint_optreturn, get_figurepage,
          update_page.
        preserving stays_bound. }
      apply Hk. simpl. rewrite lookup_insert_eq. eauto. }
  split; [done|].
  intros obj' start' end_' flt' filldata'. unfold create_figurepage.
  cbn [bind gets]. by rewrite bool_decide_true.
Qed.

End binding.
